(** * Atari_RL: network-topology library and TD3 experiment assembly

    A shallow embedding of [models/mlp.py] and of
    [projects/policy_based/TD3_BipedalWalker-v2.py].

    Python objects have an identity; a module owns named sub-modules and
    parameter tensors that are mutated in place.  The embedding keeps

    - the module graph as a tree whose nodes carry the object identity
      (two occurrences of one Python object carry the same identity),
    - the parameter tensors in a store indexed by tensor identity,
    - the random generator as a stream and a position,
    - a trace of the modules the weight initializer was called on,

    and threads them through a state-and-exception monad.  Floating point
    numbers are idealised as real numbers: rounding, overflow, infinities
    and NaN are outside the embedding.  The statements are therefore about
    which operations are applied to which values, about shapes and about
    the outcome of calls, not about bounds that hold in exact arithmetic
    only. *)

From Stdlib Require Import ZArith Reals Lra Lia.
From stdpp Require Import base tactics option list gmap strings pretty.

Local Open Scope Z_scope.

(** ** Tensors *)

(** A tensor is seen through its trailing dimension: [rows] are the vectors
    along the last axis (all leading axes flattened into one batch axis) and
    [ncols] is the size of the last axis. *)
Record Tensor := mkTensor { ncols : nat; rows : list (list R) }.

Definition nrows (t : Tensor) : nat := length (rows t).

Definition wf_tensor (t : Tensor) : Prop :=
  Forall (fun r => length r = ncols t) (rows t).

Definition map_tensor (f : R -> R) (t : Tensor) : Tensor :=
  {| ncols := ncols t; rows := map (map f) (rows t) |}.

(** [torch.ones_like] *)
Definition ones_like (t : Tensor) : Tensor := map_tensor (fun _ => 1%R) t.

(** Every entry of a tensor satisfies [P]. *)
Definition entries (P : R -> Prop) (t : Tensor) : Prop :=
  Forall (Forall P) (rows t).

(** The comparisons of two numbers, as tests. *)
#[global] Instance Rlt_decision (x y : R) : Decision (x < y)%R := Rlt_dec x y.
#[global] Instance Rle_decision (x y : R) : Decision (x <= y)%R := Rle_dec x y.

Definition dot (u v : list R) : R :=
  fold_right Rplus 0%R (zip_with Rmult u v).

(** [F.linear(x, W, b)]: [x @ W.T + b]; the sizes must agree. *)
Inductive Error := RuntimeError | TypeError | AttributeError | ValueError.

Inductive result (A : Type) := Ok (a : A) | Err (e : Error).
Arguments Ok {A} a.
Arguments Err {A} e.

Definition F_linear (x W b : Tensor) : result Tensor :=
  if bool_decide (ncols x = ncols W /\ ncols b = nrows W) then
    Ok {| ncols := nrows W;
          rows := map (fun r => zip_with Rplus (map (dot r) (rows W))
                                         (hd [] (rows b))) (rows x) |}
  else Err RuntimeError.

(** ** Activations *)

(** The activation arguments of the constructors are parameterless modules:
    [nn.Sequential()] (the identity), [nn.ReLU()], [nn.Tanh()],
    [nn.Softmax()], or any other elementwise map. *)
Inductive ActKind :=
| Identity
| ReLU
| Tanh
| Softmax
| Elementwise (f : R -> R).

Record Activation := mkAct { act_oid : nat; act_kind : ActKind }.

Definition softmax_row (r : list R) : list R :=
  let e := map exp r in map (fun v => (v / fold_right Rplus 0 e)%R) e.

Definition act_row (k : ActKind) (r : list R) : list R :=
  match k with
  | Identity => r
  | ReLU => map (Rmax 0) r
  | Tanh => map tanh r
  | Softmax => softmax_row r
  | Elementwise f => map f r
  end.

Definition act_forward (k : ActKind) (x : Tensor) : Tensor :=
  {| ncols := ncols x; rows := map (act_row k) (rows x) |}.

(** ** Modules *)

(** The classes of this repository and [nn.Sequential]; a class carries its
    plain (non-module) attributes. *)
Inductive Class :=
| Sequential
| MLP
| NormalDistMLP (share_net std_ones : bool)
| GaussianDistMLP (share_net : bool) (log_std_min log_std_max : R)
| CategoricalMLP.

(** [Linear oid in_features out_features weight bias]: [weight] and [bias]
    are the identities of the two parameter tensors.  A [Container] holds
    its [_modules] dictionary in insertion order. *)
#[local] Unset Elimination Schemes.
Inductive Module :=
| Linear (oid : nat) (in_features out_features : Z) (weight bias : nat)
| Act (a : Activation)
| Container (cls : Class) (oid : nat) (mods : list (string * Module)).
#[local] Set Elimination Schemes.

Definition oid_of (m : Module) : nat :=
  match m with
  | Linear o _ _ _ _ => o
  | Act a => act_oid a
  | Container _ o _ => o
  end.

Definition modules_of (m : Module) : list (string * Module) :=
  match m with
  | Container _ _ mods => mods
  | _ => []
  end.

(** [_modules[name] = module]: an existing key keeps its position. *)
Fixpoint add_module (mods : list (string * Module)) (name : string) (m : Module)
  : list (string * Module) :=
  match mods with
  | [] => [(name, m)]
  | (n, c) :: tl =>
      if String.eqb n name then (n, m) :: tl else (n, c) :: add_module tl name m
  end.

(** Attribute access [self.name] on a module goes through [_modules]. *)
Fixpoint getattr (mods : list (string * Module)) (name : string) : option Module :=
  match mods with
  | [] => None
  | (n, c) :: tl => if String.eqb n name then Some c else getattr tl name
  end.

(** The parameter tensors of a module, in [parameters()] order, before the
    removal of duplicates. *)
Fixpoint own_parameters (m : Module) : list nat :=
  match m with
  | Linear _ _ _ w b => [w; b]
  | Act _ => []
  | Container _ _ mods => flat_map (fun nm => own_parameters (snd nm)) mods
  end.

(** [module.parameters()]: every parameter tensor once. *)
Definition parameters (m : Module) : list nat := remove_dups (own_parameters m).

(** The affine sub-layers of a module, with multiplicity. *)
Fixpoint linears (m : Module) : list Module :=
  match m with
  | Linear _ _ _ _ _ => [m]
  | Act _ => []
  | Container _ _ mods => flat_map (fun nm => linears (snd nm)) mods
  end.

(** The identities of the affine layers and containers of a module, and
    those of its activation modules. *)
Fixpoint owned (m : Module) : list nat :=
  match m with
  | Linear o _ _ _ _ => [o]
  | Act _ => []
  | Container _ o mods => flat_map (fun nm => owned (snd nm)) mods ++ [o]
  end.

Fixpoint act_oids (m : Module) : list nat :=
  match m with
  | Linear _ _ _ _ _ => []
  | Act a => [act_oid a]
  | Container _ _ mods => flat_map (fun nm => act_oids (snd nm)) mods
  end.

(** ** State and the construction monad *)

Record State := mkState {
  next_oid : nat;                (* the next fresh object identity *)
  store : gmap nat Tensor;       (* parameter tensors, by identity *)
  gen : nat -> R;                (* the generator's uniform samples *)
  gen_pos : nat;                 (* how many samples were consumed *)
  visits : list nat;             (* modules the initializer was called on *)
}.

Definition M (A : Type) : Type := State -> result A * State.

Definition ret {A} (a : A) : M A := fun st => (Ok a, st).

Definition bind {A B} (c : M A) (k : A -> M B) : M B :=
  fun st =>
    match c st with
    | (Ok a, st') => k a st'
    | (Err e, st') => (Err e, st')
    end.

Definition throw {A} (e : Error) : M A := fun st => (Err e, st).

Declare Scope monad_scope.
Delimit Scope monad_scope with monad.
Notation "x <- c ;; k" := (bind c (fun x => k))
  (at level 62, c at next level, right associativity) : monad_scope.
Notation "c ;;; k" := (bind c (fun _ => k))
  (at level 62, right associativity) : monad_scope.
Local Open Scope monad_scope.

Definition lift {A} (r : result A) : M A := fun st => (r, st).

(** A fresh object identity. *)
Definition fresh : M nat :=
  fun st => (Ok (next_oid st),
             {| next_oid := S (next_oid st); store := store st; gen := gen st;
                gen_pos := gen_pos st; visits := visits st |}).

Definition write (p : nat) (t : Tensor) : M unit :=
  fun st => (Ok tt,
             {| next_oid := next_oid st; store := <[p := t]> (store st);
                gen := gen st; gen_pos := gen_pos st; visits := visits st |}).

Definition read (p : nat) : M Tensor :=
  fun st => match store st !! p with
            | Some t => (Ok t, st)
            | None => (Err RuntimeError, st)
            end.

(** A new parameter tensor holding [t]. *)
Definition new_param (t : Tensor) : M nat :=
  p <- fresh ;; write p t ;;; ret p.

(** [tensor.uniform_(-bound, bound)] on a tensor of [r] rows and [c]
    columns: [r * c] samples are taken from the generator. *)
Definition uniform (r c : nat) (bound : R) : M Tensor :=
  fun st =>
    let sample k := (- bound + 2 * bound * gen st (gen_pos st + k)%nat)%R in
    (Ok {| ncols := c;
           rows := map (fun i => map (fun j => sample (i * c + j)%nat) (seq 0 c))
                       (seq 0 r) |},
     {| next_oid := next_oid st; store := store st; gen := gen st;
        gen_pos := (gen_pos st + r * c)%nat; visits := visits st |}).

Definition log_visit (o : nat) : M unit :=
  fun st => (Ok tt,
             {| next_oid := next_oid st; store := store st; gen := gen st;
                gen_pos := gen_pos st; visits := visits st ++ [o] |}).

(** ** [torch.nn] *)

(** [nn.Linear(in_features, out_features)]: a tensor of negative size cannot
    be created ([RuntimeError]); a size of zero gives an empty tensor.  The
    default initialisation draws weight and bias uniformly within
    [1 / sqrt fan_in].  Sizes are unbounded integers: the limits of the
    allocator and of 64-bit sizes are not part of the embedding. *)
Definition Linear_init (in_features out_features : Z) : M Module :=
  self <- fresh ;;
  if (in_features <? 0) || (out_features <? 0) then throw RuntimeError
  else
    let fan_in := Z.to_nat in_features in
    let fan_out := Z.to_nat out_features in
    let bound := (1 / sqrt (INR fan_in))%R in
    W <- uniform fan_out fan_in bound ;;
    weight <- new_param W ;;
    B <- uniform 1 fan_out bound ;;
    bias <- new_param B ;;
    ret (Linear self in_features out_features weight bias).

(** [module(x)] where the result is used as a tensor: the affine layers,
    the activations, [nn.Sequential] and [MLP], which are the modules the
    constructors below put into a [Sequential] and into the branches of a
    head.  [nn.Sequential] feeds every entry of [_modules] in order; an
    [MLP] calls its [fcs].  The result of a head is a distribution, not a
    tensor; the call of a network of any class is [module_call], below. *)
Fixpoint forward (m : Module) (x : Tensor) {struct m} : M Tensor :=
  match m with
  | Linear _ _ _ w b =>
      W <- read w ;; B <- read b ;; lift (F_linear x W B)
  | Act a => ret (act_forward (act_kind a) x)
  | Container cls _ mods =>
      match cls with
      | Sequential =>
          (fix chain (l : list (string * Module)) (x : Tensor) : M Tensor :=
             match l with
             | [] => ret x
             | (_, c) :: tl => y <- forward c x ;; chain tl y
             end) mods x
      | MLP =>
          (fix call (l : list (string * Module)) : M Tensor :=
             match l with
             | [] => throw AttributeError
             | (n, c) :: tl => if String.eqb n "fcs" then forward c x else call tl
             end) mods
      | _ => throw TypeError
      end
  end.

(** [module.apply(fn)]: [fn] is called on every child first ([children()]
    yields each distinct child object once), then on the module itself. *)
Fixpoint apply (fn : Module -> M unit) (m : Module) {struct m} : M unit :=
  match m with
  | Container _ _ mods =>
      (fix children (memo : list nat) (l : list (string * Module)) : M unit :=
         match l with
         | [] => ret tt
         | (_, c) :: tl =>
             if bool_decide (oid_of c ∈ memo) then children memo tl
             else apply fn c ;;; children (oid_of c :: memo) tl
         end) [] mods ;;;
      fn m
  | _ => fn m
  end.

(** Modelled from the spec: [models.initializer.init_linear_weights_xavier]
    is not among the sources.  For an affine layer the weight is redrawn,
    uniformly with variance [2 / (fan_in + fan_out)]; the bias and every
    other module are left alone.  The call is recorded in [visits]. *)
Definition init_linear_weights_xavier (m : Module) : M unit :=
  log_visit (oid_of m) ;;;
  match m with
  | Linear _ i o w _ =>
      let fan_in := Z.to_nat i in
      let fan_out := Z.to_nat o in
      W <- uniform fan_out fan_in (sqrt (6 / INR (fan_in + fan_out))) ;;
      write w W
  | _ => ret tt
  end.

(** ** [models/mlp.py] *)

(** The loop over [enumerate(hidden_sizes)], from index [i]. *)
Fixpoint hidden_layers (hidden_activation : Activation) (i : nat)
    (hidden_sizes : list Z) (fcs : list (string * Module)) (prev_size : Z)
  : M (list (string * Module) * Z) :=
  match hidden_sizes with
  | [] => ret (fcs, prev_size)
  | next_size :: rest =>
      l <- Linear_init prev_size next_size ;;
      let fcs := add_module fcs ("hidden_fc" +:+ pretty i) l in
      let fcs := add_module fcs ("hidden_fc_act" +:+ pretty i)
                            (Act hidden_activation) in
      hidden_layers hidden_activation (S i) rest fcs next_size
  end.

(** [MLP.__init__] up to, and without, the final [self.apply]. *)
Definition MLP_build (input_size : Z) (hidden_sizes : list Z) (output_size : Z)
    (output_activation hidden_activation : Activation) : M Module :=
  self <- fresh ;;
  fcs_oid <- fresh ;;
  hl <- hidden_layers hidden_activation 0 hidden_sizes [] input_size ;;
  fcs <- (if output_size =? 0 then ret (fst hl)
          else
            l <- Linear_init (snd hl) output_size ;;
            ret (add_module (add_module (fst hl) "output" l)
                            "output_act" (Act output_activation))) ;;
  ret (Container MLP self [("fcs", Container Sequential fcs_oid fcs)]).

(** [MLP.__init__] *)
Definition MLP_init (input_size : Z) (hidden_sizes : list Z) (output_size : Z)
    (output_activation hidden_activation : Activation) : M Module :=
  self <- MLP_build input_size hidden_sizes output_size
                    output_activation hidden_activation ;;
  apply init_linear_weights_xavier self ;;;
  ret self.

(** The default arguments are evaluated once, when the class is defined:
    each default is one object shared by all calls that omit the argument.
    Their identities are the first ten. *)
Module Defaults.
Definition MLP_output_activation := mkAct 0 Identity.
Definition MLP_hidden_activation := mkAct 1 ReLU.
Definition Normal_mu_activation := mkAct 2 Identity.
Definition Normal_sigma_activation := mkAct 3 Identity.
Definition Normal_hidden_activation := mkAct 4 ReLU.
Definition Gaussian_mu_activation := mkAct 5 Identity.
Definition Gaussian_sigma_activation := mkAct 6 Tanh.
Definition Gaussian_hidden_activation := mkAct 7 ReLU.
Definition Categorical_output_activation := mkAct 8 Softmax.
Definition Categorical_hidden_activation := mkAct 9 ReLU.
Definition first_free_oid : nat := 10.
Definition log_std_min : R := (-20)%R.
Definition log_std_max : R := 2%R.
End Defaults.

(** [nn.Sequential(a, b)]: the arguments are registered under ["0"], ["1"]. *)
Definition Sequential_init2 (a b : Module) : M Module :=
  self <- fresh ;;
  ret (Container Sequential self
         (add_module (add_module [] (pretty 0%nat) a) (pretty 1%nat) b)).

(** The three construction paths shared by the two Gaussian heads:
    one trunk with two projections, or two separate networks. *)
Definition shared_branches (input_size : Z) (hidden_sizes : list Z)
    (output_size : Z) (mu_activation sigma_activation hidden_activation : Activation)
  : M (list (string * Module)) :=
  hidden_layer <- MLP_init input_size hidden_sizes 0
                    Defaults.MLP_output_activation hidden_activation ;;
  let prev_layer := default input_size (last hidden_sizes) in
  l <- Linear_init prev_layer output_size ;;
  mu <- Sequential_init2 l (Act mu_activation) ;;
  l <- Linear_init prev_layer output_size ;;
  sigma <- Sequential_init2 l (Act sigma_activation) ;;
  ret (add_module (add_module (add_module [] "hidden_layer" hidden_layer)
                              "mu" mu) "sigma" sigma).

Definition separate_branches (input_size : Z) (hidden_sizes : list Z)
    (output_size : Z) (mu_activation sigma_activation hidden_activation : Activation)
  : M (list (string * Module)) :=
  mu <- MLP_init input_size hidden_sizes output_size
          mu_activation hidden_activation ;;
  sigma <- MLP_init input_size hidden_sizes output_size
             sigma_activation hidden_activation ;;
  ret (add_module (add_module [] "mu" mu) "sigma" sigma).

(** [NormalDistMLP.__init__] *)
Definition NormalDistMLP_init (input_size : Z) (hidden_sizes : list Z)
    (output_size : Z) (mu_activation sigma_activation hidden_activation : Activation)
    (share_net std_ones : bool) : M Module :=
  self <- fresh ;;
  mods <- (if std_ones then
             mu <- MLP_init input_size hidden_sizes output_size
                     mu_activation hidden_activation ;;
             ret (add_module [] "mu" mu)
           else if share_net then
             shared_branches input_size hidden_sizes output_size
               mu_activation sigma_activation hidden_activation
           else
             separate_branches input_size hidden_sizes output_size
               mu_activation sigma_activation hidden_activation) ;;
  let self := Container (NormalDistMLP share_net std_ones) self mods in
  apply init_linear_weights_xavier self ;;;
  ret self.

(** [torch.distributions.Normal(loc, scale)]: the constructor validates its
    arguments, and refuses a scale with an entry that is not positive
    ([ValueError]).  It also refuses a location that is not a number,
    which no tensor of this embedding is. *)
Record Normal := mkNormal { loc : Tensor; scale : Tensor }.

Definition Normal_init (loc scale : Tensor) : result Normal :=
  if bool_decide (entries (fun v => (0 < v)%R) scale)
  then Ok (mkNormal loc scale)
  else Err ValueError.

(** [self.name(x)] *)
Definition call (mods : list (string * Module)) (name : string) (x : Tensor)
  : M Tensor :=
  match getattr mods name with
  | Some m => forward m x
  | None => throw AttributeError
  end.

(** [NormalDistMLP.forward] *)
Definition NormalDistMLP_forward (self : Module) (x : Tensor) : M Normal :=
  match self with
  | Container (NormalDistMLP share_net std_ones) _ mods =>
      if std_ones then
        mu <- call mods "mu" x ;;
        let sigma := ones_like mu in
        lift (Normal_init mu sigma)
      else if share_net then
        hidden_layer <- call mods "hidden_layer" x ;;
        mu <- call mods "mu" hidden_layer ;;
        sigma <- call mods "sigma" hidden_layer ;;
        lift (Normal_init mu sigma)
      else
        mu <- call mods "mu" x ;;
        sigma <- call mods "sigma" x ;;
        lift (Normal_init mu sigma)
  | _ => throw TypeError
  end.

(** [GaussianDistMLP.__init__] *)
Definition GaussianDistMLP_init (input_size : Z) (hidden_sizes : list Z)
    (output_size : Z) (mu_activation sigma_activation hidden_activation : Activation)
    (share_net : bool) (log_std_min log_std_max : R) : M Module :=
  self <- fresh ;;
  mods <- (if share_net then
             shared_branches input_size hidden_sizes output_size
               mu_activation sigma_activation hidden_activation
           else
             separate_branches input_size hidden_sizes output_size
               mu_activation sigma_activation hidden_activation) ;;
  let self :=
    Container (GaussianDistMLP share_net log_std_min log_std_max) self mods in
  apply init_linear_weights_xavier self ;;;
  ret self.

(** The scale computed from one raw value of the sigma branch, with the
    operations of the source in their order. *)
Definition get_std (log_std_min log_std_max sigma : R) : R :=
  let log_std :=
    (log_std_min + 0.5 * (log_std_max - log_std_min) * (sigma + 1))%R in
  exp log_std.

(** [GaussianDistMLP.forward] *)
Definition GaussianDistMLP_forward (self : Module) (x : Tensor) : M Normal :=
  match self with
  | Container (GaussianDistMLP share_net log_std_min log_std_max) _ mods =>
      ms <- (if share_net then
               hidden_layer <- call mods "hidden_layer" x ;;
               mu <- call mods "mu" hidden_layer ;;
               sigma <- call mods "sigma" hidden_layer ;;
               ret (mu, sigma)
             else
               mu <- call mods "mu" x ;;
               sigma <- call mods "sigma" x ;;
               ret (mu, sigma)) ;;
      let std := map_tensor (get_std log_std_min log_std_max) (snd ms) in
      lift (Normal_init (fst ms) std)
  | _ => throw TypeError
  end.

(** [CategoricalMLP.__init__] *)
Definition CategoricalMLP_init (input_size output_size : Z)
    (hidden_sizes : list Z) (output_activation hidden_activation : Activation)
  : M Module :=
  self <- fresh ;;
  fc <- MLP_init input_size hidden_sizes output_size
          output_activation hidden_activation ;;
  let self := Container CategoricalMLP self (add_module [] "fc" fc) in
  apply init_linear_weights_xavier self ;;;
  ret self.

(** [torch.distributions.Categorical(probs)]: the rows are divided by their
    sum, and the constructor then validates the result: a row with a
    negative entry, or whose sum is not one within [1e-6], is refused
    ([ValueError]). *)
Record Categorical := mkCategorical { probs : Tensor }.

Definition sum_row (r : list R) : R := fold_right Rplus 0%R r.

Definition simplex_row (r : list R) : Prop :=
  Forall (fun v => (0 <= v)%R) r /\ (Rabs (sum_row r - 1) < 1 / 1000000)%R.

Definition Categorical_init (p : Tensor) : result Categorical :=
  let normalised :=
    {| ncols := ncols p;
       rows := map (fun r => map (fun v => (v / sum_row r)%R) r) (rows p) |} in
  if bool_decide (Forall simplex_row (rows normalised))
  then Ok (mkCategorical normalised)
  else Err ValueError.

(** [CategoricalMLP.forward] *)
Definition CategoricalMLP_forward (self : Module) (x : Tensor) : M Categorical :=
  match self with
  | Container CategoricalMLP _ mods =>
      output <- call mods "fc" x ;;
      lift (Categorical_init output)
  | _ => throw TypeError
  end.

(** [net(x)] for a network of any of the four classes: a tensor for an
    [MLP] (and for the modules it is made of), a distribution for a head. *)
Inductive Output :=
| OTensor (t : Tensor)
| ONormal (d : Normal)
| OCategorical (d : Categorical).

Definition module_call (net : Module) (x : Tensor) : M Output :=
  match net with
  | Container (NormalDistMLP _ _) _ _ =>
      d <- NormalDistMLP_forward net x ;; ret (ONormal d)
  | Container (GaussianDistMLP _ _ _) _ _ =>
      d <- GaussianDistMLP_forward net x ;; ret (ONormal d)
  | Container CategoricalMLP _ _ =>
      d <- CategoricalMLP_forward net x ;; ret (OCategorical d)
  | _ => y <- forward net x ;; ret (OTensor y)
  end.

(** ** [projects/policy_based/TD3_BipedalWalker-v2.py] *)

Record Hyperparams := mkHyperparams {
  gamma : R;
  tau : R;
  min_sigma : R;
  max_sigma : R;
  noise_decay_period : Z;
  noise_std : R;
  noise_clip : R;
  policy_update_period : Z;
  batch_size : Z;
  memory_size : Z;
  max_episode_steps : Z;
  actor_lr : R;
  critic_lr : R;
  actor_hidden_sizes : list Z;
  critic_hidden_sizes : list Z;
}.

(** [Project.init_hyperparams] *)
Definition init_hyperparams : Hyperparams :=
  {| gamma := 0.99; tau := 0.995; min_sigma := 0.1; max_sigma := 0.1;
     noise_decay_period := 0; noise_std := 0.2; noise_clip := 0.5;
     policy_update_period := 2; batch_size := 100; memory_size := 1000000;
     max_episode_steps := 2000; actor_lr := 0.001; critic_lr := 0.001;
     actor_hidden_sizes := [400; 300]; critic_hidden_sizes := [400; 300] |}.

(** What the assembly reads of the environment wrapper. *)
Record Env := mkEnv { state_size : Z; action_size : Z }.

(** [optim.Adam(params, lr)]: the optimizer keeps the parameter tensors it
    was given; an empty parameter list is refused. *)
Record Optimizer := mkOptimizer { param_group : list nat; lr : R }.

Definition Adam (params : list nat) (lr : R) : M Optimizer :=
  match params with
  | [] => throw ValueError
  | _ => ret {| param_group := params; lr := lr |}
  end.

(** [nn.Tanh()] *)
Definition Tanh_init : M Activation := o <- fresh ;; ret (mkAct o Tanh).

(** [module.to(device)] moves the parameters in place and returns the module. *)
Definition to_device (m : Module) : M Module := ret m.

(** Modelled from the spec: [algorithms.utils.update.hard_update] is not
    among the sources.  It is the full overwrite of the target network's
    parameters from its live counterpart: every parameter tensor of
    [target] receives a copy of the data of the corresponding parameter
    tensor of [network]. *)
Fixpoint copy_params (pairs : list (nat * nat)) : M unit :=
  match pairs with
  | [] => ret tt
  | (target_param, param) :: tl =>
      data <- read param ;; write target_param data ;;; copy_params tl
  end.

Definition hard_update (network target : Module) : M unit :=
  copy_params (zip (parameters target) (parameters network)).

Record Models := mkModels {
  actor : Module;
  critic1 : Module;
  critic2 : Module;
  target_actor : Module;
  target_critic1 : Module;
  target_critic2 : Module;
  actor_optim : Optimizer;
  critic_optim1 : Optimizer;
  critic_optim2 : Optimizer;
}.

(** [Project.init_model] *)
Definition init_model (env : Env) (hyperparams : Hyperparams) : M Models :=
  act <- Tanh_init ;;
  actor <- MLP_init (state_size env) (actor_hidden_sizes hyperparams)
             (action_size env) act Defaults.MLP_hidden_activation ;;
  actor <- to_device actor ;;
  act <- Tanh_init ;;
  target_actor <- MLP_init (state_size env) (actor_hidden_sizes hyperparams)
                    (action_size env) act Defaults.MLP_hidden_activation ;;
  target_actor <- to_device target_actor ;;
  critic1 <- MLP_init (state_size env + action_size env)
               (critic_hidden_sizes hyperparams) 1
               Defaults.MLP_output_activation Defaults.MLP_hidden_activation ;;
  critic1 <- to_device critic1 ;;
  critic2 <- MLP_init (state_size env + action_size env)
               (critic_hidden_sizes hyperparams) 1
               Defaults.MLP_output_activation Defaults.MLP_hidden_activation ;;
  critic2 <- to_device critic2 ;;
  target_critic1 <- MLP_init (state_size env + action_size env)
                      (critic_hidden_sizes hyperparams) 1
                      Defaults.MLP_output_activation
                      Defaults.MLP_hidden_activation ;;
  target_critic1 <- to_device target_critic1 ;;
  target_critic2 <- MLP_init (state_size env + action_size env)
                      (critic_hidden_sizes hyperparams) 1
                      Defaults.MLP_output_activation
                      Defaults.MLP_hidden_activation ;;
  target_critic2 <- to_device target_critic2 ;;
  actor_optim <- Adam (parameters actor) (actor_lr hyperparams) ;;
  critic_optim1 <- Adam (parameters critic1) (critic_lr hyperparams) ;;
  critic_optim2 <- Adam (parameters critic2) (critic_lr hyperparams) ;;
  hard_update actor target_actor ;;;
  hard_update critic1 target_critic1 ;;;
  hard_update critic2 target_critic2 ;;;
  ret {| actor := actor; critic1 := critic1; critic2 := critic2;
         target_actor := target_actor; target_critic1 := target_critic1;
         target_critic2 := target_critic2; actor_optim := actor_optim;
         critic_optim1 := critic_optim1; critic_optim2 := critic_optim2 |}.

(** * Auxiliary definitions *)

(** ** The loops of [forward] and [apply], by name *)

Fixpoint chain (l : list (string * Module)) (x : Tensor) : M Tensor :=
  match l with
  | [] => ret x
  | (_, c) :: tl => y <- forward c x ;; chain tl y
  end.

Fixpoint apply_children (fn : Module -> M unit) (memo : list nat)
    (l : list (string * Module)) : M unit :=
  match l with
  | [] => ret tt
  | (_, c) :: tl =>
      if bool_decide (oid_of c ∈ memo) then apply_children fn memo tl
      else apply fn c ;;; apply_children fn (oid_of c :: memo) tl
  end.

(** The modules [apply] calls its function on, in call order. *)
Fixpoint visit_order (m : Module) : list Module :=
  match m with
  | Container _ _ mods =>
      (fix children (memo : list nat) (l : list (string * Module)) : list Module :=
         match l with
         | [] => []
         | (_, c) :: tl =>
             if bool_decide (oid_of c ∈ memo) then children memo tl
             else visit_order c ++ children (oid_of c :: memo) tl
         end) [] mods ++ [m]
  | _ => [m]
  end.

Fixpoint visit_children (memo : list nat) (l : list (string * Module))
  : list Module :=
  match l with
  | [] => []
  | (_, c) :: tl =>
      if bool_decide (oid_of c ∈ memo) then visit_children memo tl
      else visit_order c ++ visit_children (oid_of c :: memo) tl
  end.


(** ** The primitive operations *)

Ltac munfold :=
  unfold bind, ret, throw, lift, new_param, fresh, write, read, uniform,
    log_visit; simpl.

(** A state reached by construction steps: identities only grow, the
    generator is the same stream, and no tensor older than the step is
    touched. *)
Definition grows (st st' : State) : Prop :=
  (next_oid st <= next_oid st')%nat /\
  gen st' = gen st /\
  forall p, (p < next_oid st)%nat -> store st' !! p = store st !! p.

(** The parameters of an affine layer are in the store, with the sizes the
    layer was declared with. *)
Definition linear_ok (st : State) (l : Module) : Prop :=
  match l with
  | Linear _ i o w b =>
      exists W B, store st !! w = Some W /\ store st !! b = Some B /\
        ncols W = Z.to_nat i /\ nrows W = Z.to_nat o /\
        ncols B = Z.to_nat o /\ length (hd [] (rows B)) = Z.to_nat o
  | _ => True
  end.

Definition params_ok (st : State) (m : Module) : Prop :=
  Forall (linear_ok st) (linears m).


(** The keys of the hidden layers. *)
Definition hidden_fc (i : nat) : string := "hidden_fc" +:+ pretty i.
Definition hidden_fc_act (i : nat) : string := "hidden_fc_act" +:+ pretty i.

(** The keys a [Sequential] holds once the layers below index [i] are in. *)
Definition keys_below (i : nat) (fcs : list (string * Module)) : Prop :=
  forall k, k ∈ map fst fcs ->
    exists j, (j < i)%nat /\ (k = hidden_fc j \/ k = hidden_fc_act j).

(** ** What the constructors build *)

(** The entries the hidden-layer loop adds when it starts at index [i] with
    [n] the next fresh identity. *)
Fixpoint hidden_layout (ha : Activation) (i n : nat) (prev : Z) (sizes : list Z)
  : list (string * Module) :=
  match sizes with
  | [] => []
  | s :: rest =>
      (hidden_fc i, Linear n prev s (S n) (S (S n)))
        :: (hidden_fc_act i, Act ha)
        :: hidden_layout ha (S i) (3 + n) s rest
  end.

(** The parameter tensors of [k] consecutive affine layers, the first of
    which has identity [n]. *)
Fixpoint param_ids (n k : nat) : list nat :=
  match k with
  | O => []
  | S k' => S n :: S (S n) :: param_ids (3 + n) k'
  end.

(** The identities of these [k] affine layers. *)
Fixpoint linear_oids (n k : nat) : list nat :=
  match k with
  | O => []
  | S k' => n :: linear_oids (3 + n) k'
  end.

Definition output_layout (oa : Activation) (n : nat) (prev out : Z)
  : list (string * Module) :=
  if out =? 0 then []
  else [("output", Linear n prev out (S n) (S (S n))); ("output_act", Act oa)].

Definition fcs_layout (n : nat) (input : Z) (hidden : list Z) (out : Z)
    (oa ha : Activation) : list (string * Module) :=
  hidden_layout ha 0 n input hidden
    ++ output_layout oa (3 * length hidden + n)%nat (default input (last hidden)) out.

(** The network [MLP(input, hidden, out, oa, ha)] built when [n] is the next
    fresh identity, and the next fresh identity afterwards. *)
Definition MLP_layout (n : nat) (input : Z) (hidden : list Z) (out : Z)
    (oa ha : Activation) : Module :=
  Container MLP n
    [("fcs", Container Sequential (S n) (fcs_layout (2 + n) input hidden out oa ha))].

Definition MLP_end (n : nat) (hidden : list Z) (out : Z) : nat :=
  ((if (out =? 0)%Z then 0 else 3) + (3 * length hidden + (2 + n)))%nat.

(** The sizes [nn.Linear] accepts for every layer of an [MLP]. *)
Definition sizes_ok (input : Z) (hidden : list Z) (out : Z) : Prop :=
  0 <= input /\ Forall (fun s => 0 <= s) hidden /\ 0 <= out.

(** The sizes of a valid topology: positive widths, and an output size
    that is positive or zero (no output layer). *)
Definition valid_sizes (input : Z) (hidden : list Z) (out : Z) : Prop :=
  0 < input /\ Forall (fun s => 0 < s) hidden /\ 0 <= out.

(** ** The effect of the initializer *)

(** From [st] to [st'] nothing happened but that weights of layers among
    [ls] were overwritten by tensors of the layer's sizes. *)
Definition reinit (ls : list Module) (st st' : State) : Prop :=
  next_oid st' = next_oid st /\ gen st' = gen st /\
  forall p, store st' !! p = store st !! p \/
    exists o i out b W, Linear o i out p b ∈ ls /\
      store st' !! p = Some W /\
      ncols W = Z.to_nat i /\ nrows W = Z.to_nat out.

(** The module itself when it is an affine layer. *)
Definition self_linear (m : Module) : list Module :=
  match m with
  | Linear _ _ _ _ _ => [m]
  | _ => []
  end.

(** ** Example data *)

(** A state in which only the default activation objects exist, a constant
    generator, and a batch of three rows of width four. *)
Definition st0 : State :=
  {| next_oid := Defaults.first_free_oid; store := ∅; gen := fun _ => 0%R;
     gen_pos := 0; visits := [] |}.

Definition batch34 : Tensor :=
  {| ncols := 4;
     rows := [[1; 2; 3; 4]; [0; 0; 0; 0]; [-1; 1; -1; 1]]%R |}.

(** ** What the head constructors build *)

(** One trunk and two projections, built from the fresh identity [n] on. *)
Definition shared_layout (n : nat) (input : Z) (hidden : list Z) (out : Z)
    (mu_act sigma_act ha : Activation) : list (string * Module) :=
  let n1 := MLP_end n hidden 0 in
  let prev := default input (last hidden) in
  [("hidden_layer", MLP_layout n input hidden 0 Defaults.MLP_output_activation ha);
   ("mu", Container Sequential (3 + n1)
            [("0", Linear n1 prev out (S n1) (S (S n1))); ("1", Act mu_act)]);
   ("sigma", Container Sequential (7 + n1)
               [("0", Linear (4 + n1) prev out (5 + n1) (6 + n1));
                ("1", Act sigma_act)])].

(** Two separate networks. *)
Definition separate_layout (n : nat) (input : Z) (hidden : list Z) (out : Z)
    (mu_act sigma_act ha : Activation) : list (string * Module) :=
  [("mu", MLP_layout n input hidden out mu_act ha);
   ("sigma", MLP_layout (MLP_end n hidden out) input hidden out sigma_act ha)].

(** The children of a [NormalDistMLP] whose own identity is [n]. *)
Definition NormalDistMLP_layout (n : nat) (input : Z) (hidden : list Z) (out : Z)
    (mu_act sigma_act ha : Activation) (share_net std_ones : bool)
  : list (string * Module) :=
  if std_ones then [("mu", MLP_layout (S n) input hidden out mu_act ha)]
  else if share_net then shared_layout (S n) input hidden out mu_act sigma_act ha
  else separate_layout (S n) input hidden out mu_act sigma_act ha.

(** The children of a [GaussianDistMLP] whose own identity is [n]. *)
Definition GaussianDistMLP_layout (n : nat) (input : Z) (hidden : list Z)
    (out : Z) (mu_act sigma_act ha : Activation) (share_net : bool)
  : list (string * Module) :=
  if share_net then shared_layout (S n) input hidden out mu_act sigma_act ha
  else separate_layout (S n) input hidden out mu_act sigma_act ha.

(** ** Well-formed module trees *)

(** Affine layers and containers occur once in the tree, and no activation
    object has the identity of one of them. *)
Definition wf_tree (m : Module) : Prop :=
  NoDup (owned m) /\ forall a, a ∈ act_oids m -> a ∉ owned m.

(** How often the initializer was called on the module of identity [o]. *)
Definition calls_on (o : nat) (trace : list nat) : nat :=
  count_occ Nat.eq_dec trace o.

(** The affine layers of the [MLP] sub-networks among the children. *)
Definition nested_linears (m : Module) : list Module :=
  flat_map (fun nm => match snd nm with
                      | Container MLP _ _ => linears (snd nm)
                      | _ => []
                      end) (modules_of m).

(** The calls the constructors of the [MLP] children made on their own. *)
Definition nested_visits (mods : list (string * Module)) : list nat :=
  flat_map (fun nm => match snd nm with
                      | Container MLP _ _ => map oid_of (visit_order (snd nm))
                      | _ => []
                      end) mods.

(** The outcome of a constructor [c] run in [st]: it returns a module [m];
    its last step was the traversal of [m], which called the initializer
    once on each affine layer of [m]; before that, the constructors of the
    [MLP] children had called it once on each of their own affine layers,
    and nothing had called it on the other affine layers of [m]. *)
Definition traversed_once (c : M Module) (st : State) : Prop :=
  exists m st' before,
    c st = (Ok m, st') /\
    visits st' = visits st ++ before ++ map oid_of (visit_order m) /\
    (forall l, l ∈ linears m ->
               calls_on (oid_of l) (map oid_of (visit_order m)) = 1%nat) /\
    (forall l, l ∈ nested_linears m -> calls_on (oid_of l) before = 1%nat) /\
    (forall l, l ∈ linears m -> l ∉ nested_linears m ->
               calls_on (oid_of l) before = 0%nat).

(** ** What the experiment assembly builds *)

(** The bundle returned by [init_model] when [n] is the next fresh
    identity: the two [nn.Tanh()] objects and the six networks are built in
    program order. *)
Definition init_model_layout (n : nat) (env : Env) (hp : Hyperparams) : Models :=
  let relu := Defaults.MLP_hidden_activation in
  let ident := Defaults.MLP_output_activation in
  let s := state_size env in
  let a := action_size env in
  let n1 := MLP_end (1 + n) (actor_hidden_sizes hp) a in
  let n2 := MLP_end (1 + n1) (actor_hidden_sizes hp) a in
  let n3 := MLP_end n2 (critic_hidden_sizes hp) 1 in
  let n4 := MLP_end n3 (critic_hidden_sizes hp) 1 in
  let n5 := MLP_end n4 (critic_hidden_sizes hp) 1 in
  let actor := MLP_layout (1 + n) s (actor_hidden_sizes hp) a (mkAct n Tanh) relu in
  let target_actor :=
    MLP_layout (1 + n1) s (actor_hidden_sizes hp) a (mkAct n1 Tanh) relu in
  let critic1 := MLP_layout n2 (s + a) (critic_hidden_sizes hp) 1 ident relu in
  let critic2 := MLP_layout n3 (s + a) (critic_hidden_sizes hp) 1 ident relu in
  let target_critic1 := MLP_layout n4 (s + a) (critic_hidden_sizes hp) 1 ident relu in
  let target_critic2 := MLP_layout n5 (s + a) (critic_hidden_sizes hp) 1 ident relu in
  {| actor := actor; critic1 := critic1; critic2 := critic2;
     target_actor := target_actor; target_critic1 := target_critic1;
     target_critic2 := target_critic2;
     actor_optim := {| param_group := parameters actor; lr := actor_lr hp |};
     critic_optim1 := {| param_group := parameters critic1; lr := critic_lr hp |};
     critic_optim2 := {| param_group := parameters critic2; lr := critic_lr hp |} |}.

(** The hyperparameters [init_model] can work with. *)
Definition hyperparams_ok (hp : Hyperparams) : Prop :=
  Forall (fun s => 0 < s) (actor_hidden_sizes hp) /\
  Forall (fun s => 0 < s) (critic_hidden_sizes hp).

(** In [st] the parameter tensors of [target] hold the same data as the
    corresponding ones of [live], and they are other tensors: writing to
    one of the two leaves the other as it is. *)
Definition synced (st : State) (live target : Module) : Prop :=
  length (parameters target) = length (parameters live) /\
  forall tp p, (tp, p) ∈ zip (parameters target) (parameters live) ->
    (exists data, store st !! tp = Some data /\ store st !! p = Some data) /\
    tp <> p /\
    (forall t, store (snd (write p t st)) !! tp = store st !! tp) /\
    (forall t, store (snd (write tp t st)) !! p = store st !! p).

(** The structure of a module: what is left when the identities of the
    objects and tensors are forgotten. *)
#[local] Unset Elimination Schemes.
Inductive Skeleton :=
| SLinear (in_features out_features : Z)
| SAct (k : ActKind)
| SContainer (cls : Class) (mods : list (string * Skeleton)).
#[local] Set Elimination Schemes.

Fixpoint skeleton (m : Module) : Skeleton :=
  match m with
  | Linear _ i o _ _ => SLinear i o
  | Act a => SAct (act_kind a)
  | Container cls _ mods =>
      SContainer cls (map (fun nm => (fst nm, skeleton (snd nm))) mods)
  end.

(** [MLP(input, [400, 300], output)] with the given output activation. *)
Definition MLP_400_300 (input output : Z) (k : ActKind) : Skeleton :=
  SContainer MLP
    [("fcs", SContainer Sequential
       [("hidden_fc0", SLinear input 400); ("hidden_fc_act0", SAct ReLU);
        ("hidden_fc1", SLinear 400 300); ("hidden_fc_act1", SAct ReLU);
        ("output", SLinear 300 output); ("output_act", SAct k)])].

(** The environment of the project: [BipedalWalker-v2] has 24 observations
    and 4 actions. *)
Definition BipedalWalker : Env := {| state_size := 24; action_size := 4 |}.

(** ** Further notions used by the properties of the code *)

(** The sizes for which [MLP.__init__] asks [nn.Linear] for a tensor of
    negative size: a negative hidden size, a negative output size, or a
    negative input size when some affine layer reads it. *)
Definition refused_sizes (input : Z) (hidden : list Z) (out : Z) : Prop :=
  Exists (fun s => s < 0) hidden \/ out < 0 \/
  (input < 0 /\ (hidden <> [] \/ out <> 0)).

(** The keys the hidden-layer loop registers for [k] layers, from index [i]. *)
Fixpoint hidden_keys (i k : nat) : list string :=
  match k with
  | O => []
  | S k' => hidden_fc i :: hidden_fc_act i :: hidden_keys (S i) k'
  end.

(** The number of affine layers of [MLP(input, hidden, out)]. *)
Definition n_layers (hidden : list Z) (out : Z) : nat :=
  (length hidden + (if (out =? 0)%Z then 0 else 1))%nat.

(** The width of what [MLP(input, hidden, out)] returns. *)
Definition MLP_width (input : Z) (hidden : list Z) (out : Z) : Z :=
  if out =? 0 then default input (last hidden) else out.

(** A batch of two rows of width three. *)
Definition batch23 : Tensor :=
  {| ncols := 3; rows := [[1; 2; 3]; [0; -1; 0]]%R |}.

(** A well-formed tensor of [n] rows and width [w]. *)
Definition has_shape (t : Tensor) (n w : nat) : Prop :=
  nrows t = n /\ ncols t = w /\ wf_tensor t.

(** The width of the location and scale a Gaussian head returns: the
    projections of a shared trunk are always built, a separate network is
    an [MLP]; with [std_ones] only the [MLP] of the mean exists. *)
Definition head_width (share_net std_ones : bool) (input : Z) (hidden : list Z)
    (out : Z) : Z :=
  if std_ones then MLP_width input hidden out
  else if share_net then out else MLP_width input hidden out.

(** The number of parameter tensors of a Gaussian head. *)
Definition head_parameter_count (share_net std_ones : bool) (hidden : list Z)
    (out : Z) : nat :=
  if std_ones then (2 * n_layers hidden out)%nat
  else if share_net then (2 * length hidden + 4)%nat
  else (4 * n_layers hidden out)%nat.

(** A size that fits a 64-bit integer; beyond that range the library fails
    on the conversion of the size, before any layer is looked at. *)
Definition int64 (s : Z) : Prop := - 2 ^ 63 <= s < 2 ^ 63.

(** The sizes a Gaussian head refuses.  A shared trunk is followed by two
    projections that are always built, so that a negative input size is
    refused even without any hidden layer; the other paths build [MLP]s
    only. *)
Definition head_refused_sizes (share_net std_ones : bool) (input : Z)
    (hidden : list Z) (out : Z) : Prop :=
  if std_ones then refused_sizes input hidden out
  else if share_net then Exists (fun s => s < 0) hidden \/ out < 0 \/ input < 0
  else refused_sizes input hidden out.

(** Hyperparameters that give the actor no hidden layer, and an environment
    without actions. *)
Definition hyperparams_without_actor_layers : Hyperparams :=
  {| gamma := gamma init_hyperparams; tau := tau init_hyperparams;
     min_sigma := min_sigma init_hyperparams;
     max_sigma := max_sigma init_hyperparams;
     noise_decay_period := noise_decay_period init_hyperparams;
     noise_std := noise_std init_hyperparams;
     noise_clip := noise_clip init_hyperparams;
     policy_update_period := policy_update_period init_hyperparams;
     batch_size := batch_size init_hyperparams;
     memory_size := memory_size init_hyperparams;
     max_episode_steps := max_episode_steps init_hyperparams;
     actor_lr := actor_lr init_hyperparams;
     critic_lr := critic_lr init_hyperparams;
     actor_hidden_sizes := [];
     critic_hidden_sizes := critic_hidden_sizes init_hyperparams |}.

Definition env_without_actions : Env := {| state_size := 24; action_size := 0 |}.

(** Parameter values: a weight of [r] rows and [c] columns that is zero
    everywhere, and a bias of [c] entries that all equal [v]. *)
Definition zero_weight (r c : nat) : Tensor :=
  {| ncols := c; rows := repeat (repeat 0%R c) r |}.

Definition constant_bias (v : R) (c : nat) : Tensor :=
  {| ncols := c; rows := [repeat v c] |}.

(** The state in which the tensors [w] and [b] hold a zero weight of the
    sizes [out] by [prev] and a bias constantly [v]. *)
Definition with_constant_layer (w b : nat) (prev out : Z) (v : R) (st : State)
  : State :=
  snd (write b (constant_bias v (Z.to_nat out))
         (snd (write w (zero_weight (Z.to_nat out) (Z.to_nat prev)) st))).

(** * Properties *)

Lemma forward_Sequential o mods x :
  forward (Container Sequential o mods) x = chain mods x.
Proof. reflexivity. Qed.

Lemma forward_MLP o mods x :
  forward (Container MLP o mods) x = call mods "fcs" x.
Proof.
  unfold call. simpl. induction mods as [|[n c] tl IH]; [reflexivity|].
  simpl. destruct (String.eqb n "fcs"); [reflexivity|apply IH].
Qed.

Lemma apply_Container fn cls o mods :
  apply fn (Container cls o mods)
  = (apply_children fn [] mods ;;; fn (Container cls o mods)).
Proof.
  simpl. f_equal. generalize (@nil nat) as memo.
  induction mods as [|[n c] tl IH]; intros memo; [reflexivity|].
  simpl. rewrite !IH. reflexivity.
Qed.

Lemma visit_order_Container cls o mods :
  visit_order (Container cls o mods)
  = visit_children [] mods ++ [Container cls o mods].
Proof. reflexivity. Qed.

(** Induction on modules, with the hypothesis for every child. *)
Lemma Module_ind (P : Module -> Prop) :
  (forall o i out w b, P (Linear o i out w b)) ->
  (forall a, P (Act a)) ->
  (forall cls o mods, Forall (fun nm => P (snd nm)) mods ->
                      P (Container cls o mods)) ->
  forall m, P m.
Proof.
  intros HL HA HC. fix IH 1. intros [o i out w b|a|cls o mods].
  - apply HL.
  - apply HA.
  - apply HC. induction mods as [|[n c] tl IHl]; constructor.
    + simpl. apply IH.
    + apply IHl.
Qed.
Lemma grows_refl st : grows st st.
Proof. repeat split; auto. Qed.

Lemma grows_trans st1 st2 st3 : grows st1 st2 -> grows st2 st3 -> grows st1 st3.
Proof.
  intros (H1 & H2 & H3) (H4 & H5 & H6). repeat split.
  - lia.
  - congruence.
  - intros p Hp. rewrite H6 by lia. apply H3, Hp.
Qed.

Lemma linear_ok_grows st st' l :
  grows st st' -> Forall (fun p => (p < next_oid st)%nat) (own_parameters l) ->
  linear_ok st l -> linear_ok st' l.
Proof.
  intros (_ & _ & Hs) Hp. destruct l as [o i out w b| |]; simpl; auto.
  simpl in Hp. apply Forall_cons in Hp as [Hw Hb].
  apply Forall_cons in Hb as [Hb _].
  intros (W & B & HW & HB & ?). exists W, B.
  rewrite !Hs by assumption. auto.
Qed.

Lemma Linear_init_ok i o st :
  0 <= i -> 0 <= o ->
  let n := next_oid st in
  let l := Linear n i o (S n) (S (S n)) in
  exists st', Linear_init i o st = (Ok l, st') /\
    next_oid st' = (3 + n)%nat /\ visits st' = visits st /\
    grows st st' /\ linear_ok st' l.
Proof.
  intros Hi Ho n l. unfold Linear_init. munfold.
  replace ((i <? 0) || (o <? 0)) with false by lia. munfold.
  eexists. split; [reflexivity|]. simpl. repeat split; simpl; auto; try lia.
  - intros p Hp. rewrite !lookup_insert_ne by (fold n; lia). reflexivity.
  - eexists _, _. rewrite lookup_insert_ne by lia.
    rewrite !lookup_insert_eq. repeat split; simpl.
    + unfold nrows. simpl. now rewrite length_map, length_seq.
    + now rewrite length_map, length_seq.
Qed.

Lemma Linear_init_err i o st :
  i < 0 \/ o < 0 -> fst (Linear_init i o st) = Err RuntimeError.
Proof.
  intros H. unfold Linear_init. munfold.
  replace ((i <? 0) || (o <? 0)) with true by lia. reflexivity.
Qed.

(** ** Names of the layers *)

Lemma add_module_fresh mods name m :
  name ∉ map fst mods -> add_module mods name m = mods ++ [(name, m)].
Proof.
  induction mods as [|[n c] tl IH]; simpl; intros Hn; [reflexivity|].
  apply not_elem_of_cons in Hn as [Hne Hn].
  destruct (String.eqb_spec n name) as [->|_]; [congruence|].
  now rewrite IH.
Qed.

Lemma getattr_here name c tl : getattr ((name, c) :: tl) name = Some c.
Proof. simpl. now rewrite String.eqb_refl. Qed.

Lemma getattr_next n c tl name :
  n <> name -> getattr ((n, c) :: tl) name = getattr tl name.
Proof. intros H. simpl. apply String.eqb_neq in H. now rewrite H. Qed.

(** A decimal numeral does not begin with an underscore. *)
Lemma pretty_N_go_not_underscore x s s' :
  s ≠ "_" +:+ s' -> pretty_N_go x s ≠ "_" +:+ s'.
Proof.
  revert s. induction (N.lt_wf_0 x) as [x _ IH]; intros s Hs.
  destruct (decide (x = 0)%N) as [->|Hx].
  - now rewrite pretty_N_go_0.
  - rewrite pretty_N_go_step by lia. apply IH.
    + apply N.div_lt; lia.
    + unfold pretty_N_char. repeat case_match; discriminate.
Qed.

Lemma pretty_nat_not_underscore (i : nat) s : pretty i ≠ "_" +:+ s.
Proof.
  unfold pretty, pretty_nat, pretty, pretty_N. case_decide; [discriminate|].
  apply pretty_N_go_not_underscore. discriminate.
Qed.

Lemma hidden_fc_inj i j : hidden_fc i = hidden_fc j -> i = j.
Proof.
  intros H. cbv [hidden_fc String.append] in H. injection H as H.
  now apply (inj pretty) in H.
Qed.

Lemma hidden_fc_act_inj i j : hidden_fc_act i = hidden_fc_act j -> i = j.
Proof.
  intros H. cbv [hidden_fc_act String.append] in H. injection H as H.
  now apply (inj pretty) in H.
Qed.

Lemma hidden_fc_not_act i j : hidden_fc i ≠ hidden_fc_act j.
Proof.
  intros H. cbv [hidden_fc hidden_fc_act String.append] in H.
  injection H as H. exact (pretty_nat_not_underscore i _ H).
Qed.

Lemma keys_below_nil i : keys_below i [].
Proof. intros k Hk. simpl in Hk. now apply elem_of_nil in Hk. Qed.

Lemma keys_below_fresh i fcs :
  keys_below i fcs ->
  (hidden_fc i ∉ map fst fcs) /\ (hidden_fc_act i ∉ map fst fcs).
Proof.
  intros Hk. split; intros Hin; apply Hk in Hin as (j & Hj & [H|H]).
  - apply hidden_fc_inj in H. lia.
  - now apply hidden_fc_not_act in H.
  - symmetry in H. now apply hidden_fc_not_act in H.
  - apply hidden_fc_act_inj in H. lia.
Qed.

Lemma keys_below_step i fcs l a :
  keys_below i fcs ->
  keys_below (S i) ((fcs ++ [(hidden_fc i, l)]) ++ [(hidden_fc_act i, a)]).
Proof.
  intros Hk k. rewrite !map_app. simpl. rewrite !elem_of_app, !list_elem_of_singleton.
  intros [[Hin| ->]| ->].
  - apply Hk in Hin as (j & Hj & H). exists j. split; [lia|exact H].
  - exists i. split; [lia|now left].
  - exists i. split; [lia|now right].
Qed.

Lemma keys_below_output i fcs :
  keys_below i fcs -> ("output" ∉ map fst fcs) /\ ("output_act" ∉ map fst fcs).
Proof.
  intros Hk. split; intros Hin; apply Hk in Hin as (j & _ & [H|H]);
    cbv [hidden_fc hidden_fc_act String.append] in H; discriminate.
Qed.

(** ** The monad *)

Lemma bind_ok {A B} (c : M A) (k : A -> M B) st a st' :
  c st = (Ok a, st') -> bind c k st = k a st'.
Proof. intros H. unfold bind. now rewrite H. Qed.

Lemma bind_fst_err {A B} (c : M A) (k : A -> M B) st e :
  fst (c st) = Err e -> fst (bind c k st) = Err e.
Proof. unfold bind. destruct (c st) as [[a|e'] st']; simpl; congruence. Qed.

(** ** The hidden-layer loop *)

Lemma default_last_cons (d s : Z) (rest : list Z) :
  default d (last (s :: rest)) = default s (last rest).
Proof.
  revert d s. induction rest as [|z rest IH]; intros d s; [reflexivity|].
  change (last (s :: z :: rest)) with (last (z :: rest)).
  now rewrite (IH d z), (IH s z).
Qed.

Lemma hidden_layers_ok ha sizes : forall i fcs prev st,
  0 <= prev -> Forall (fun s => 0 <= s) sizes -> keys_below i fcs ->
  exists st',
    hidden_layers ha i sizes fcs prev st
    = (Ok (fcs ++ hidden_layout ha i (next_oid st) prev sizes,
           default prev (last sizes)), st') /\
    next_oid st' = (next_oid st + 3 * length sizes)%nat /\
    visits st' = visits st /\ grows st st' /\
    Forall (linear_ok st')
      (flat_map (fun nm => linears (snd nm))
                (hidden_layout ha i (next_oid st) prev sizes)).
Proof.
  induction sizes as [|s rest IH]; intros i fcs prev st Hprev Hsizes Hkeys.
  - exists st. simpl. rewrite app_nil_r.
    split_and!; auto using grows_refl; lia.
  - apply Forall_cons in Hsizes as [Hs Hrest].
    destruct (Linear_init_ok prev s st Hprev Hs) as (st1 & E1 & N1 & V1 & G1 & L1).
    destruct (keys_below_fresh _ _ Hkeys) as [Hf1 Hf2].
    set (l := Linear (next_oid st) prev s (S (next_oid st)) (S (S (next_oid st)))) in *.
    set (a := Act ha).
    destruct (IH (S i) ((fcs ++ [(hidden_fc i, l)]) ++ [(hidden_fc_act i, a)])
                 s st1 Hs Hrest (keys_below_step _ _ l a Hkeys))
      as (st' & E & N & V & G & L).
    exists st'. simpl hidden_layers. rewrite (bind_ok _ _ _ _ _ E1).
    fold (hidden_fc i) (hidden_fc_act i).
    rewrite (add_module_fresh fcs) by exact Hf1.
    rewrite add_module_fresh.
    2:{ rewrite map_app, elem_of_app. simpl. rewrite list_elem_of_singleton.
        intros [H|H]; [now apply Hf2|]. symmetry in H. now apply hidden_fc_not_act in H. }
    fold l a. rewrite E, N1, default_last_cons. simpl hidden_layout.
    rewrite <- !app_assoc. simpl. split_and!.
    + reflexivity.
    + rewrite N, N1. lia.
    + congruence.
    + eapply grows_trans; eassumption.
    + constructor; [|rewrite N1 in L; exact L].
      eapply linear_ok_grows; [exact G| |exact L1].
      rewrite N1. simpl. repeat constructor; lia.
Qed.

Lemma hidden_layers_err ha sizes : forall i fcs prev st,
  prev < 0 /\ sizes <> [] \/ Exists (fun s => s < 0) sizes ->
  fst (hidden_layers ha i sizes fcs prev st) = Err RuntimeError.
Proof.
  induction sizes as [|s rest IH]; intros i fcs prev st H.
  - destruct H as [[_ H]|H]; [congruence|now apply Exists_nil in H].
  - simpl hidden_layers.
    destruct (Z_lt_le_dec prev 0) as [Hp|Hp];
      [apply bind_fst_err, Linear_init_err; lia|].
    destruct (Z_lt_le_dec s 0) as [Hs|Hs];
      [apply bind_fst_err, Linear_init_err; lia|].
    destruct (Linear_init_ok prev s st Hp Hs) as (st1 & E1 & _).
    rewrite (bind_ok _ _ _ _ _ E1). apply IH. right.
    destruct H as [[H _]|H]; [lia|].
    apply Exists_cons in H as [H|H]; [lia|exact H].
Qed.

(** ** Parameters and identities of the layouts *)

Lemma flat_map_flat_map {A B C} (f : B -> list C) (g : A -> list B) l :
  flat_map f (flat_map g l) = flat_map (fun x => flat_map f (g x)) l.
Proof.
  induction l as [|x l IH]; simpl; [reflexivity|].
  now rewrite flat_map_app, IH.
Qed.

Lemma flat_map_ext_Forall {A B} (f g : A -> list B) l :
  Forall (fun x => f x = g x) l -> flat_map f l = flat_map g l.
Proof. induction 1 as [|x l Hx _ IH]; simpl; congruence. Qed.

Lemma own_parameters_linears m :
  own_parameters m = flat_map own_parameters (linears m).
Proof.
  induction m as [o i out w b|a|cls o mods IH] using Module_ind; simpl; auto.
  rewrite flat_map_flat_map. now apply flat_map_ext_Forall.
Qed.

Lemma own_parameters_of_linears (mods : list (string * Module)) :
  flat_map own_parameters (flat_map (fun nm => linears (snd nm)) mods)
  = flat_map (fun nm => own_parameters (snd nm)) mods.
Proof.
  rewrite flat_map_flat_map. apply flat_map_ext_Forall, Forall_forall.
  intros nm _. symmetry. apply own_parameters_linears.
Qed.

Lemma remove_dups_NoDup {A} `{EqDecision A} (l : list A) :
  NoDup l -> remove_dups l = l.
Proof.
  induction 1 as [|x l Hx _ IH]; simpl; [reflexivity|].
  destruct (decide_rel elem_of x l); [contradiction|]. now rewrite IH.
Qed.

Lemma param_ids_bound n k p :
  p ∈ param_ids n k -> (n < p < n + 3 * k)%nat.
Proof.
  revert n. induction k as [|k IH]; intros n; simpl.
  - intros H. now apply elem_of_nil in H.
  - rewrite !elem_of_cons. intros [->|[->|H]]; [lia|lia|].
    apply IH in H. lia.
Qed.

Lemma param_ids_NoDup n k : NoDup (param_ids n k).
Proof.
  revert n. induction k as [|k IH]; intros n; simpl; [constructor|].
  constructor; [|constructor; [|apply IH]].
  - rewrite elem_of_cons. intros [H|H]; [lia|]. apply param_ids_bound in H. lia.
  - intros H. apply param_ids_bound in H. lia.
Qed.

Lemma param_ids_app n a b :
  param_ids n (a + b) = param_ids n a ++ param_ids (n + 3 * a) b.
Proof.
  revert n. induction a as [|a IH]; intros n.
  - replace (n + 3 * 0)%nat with n by lia. reflexivity.
  - replace (n + 3 * S a)%nat with ((3 + n) + 3 * a)%nat by lia.
    change (S a + b)%nat with (S (a + b)). cbn [param_ids].
    now rewrite IH.
Qed.

Lemma hidden_layout_parameters ha sizes : forall i n prev,
  flat_map (fun nm => own_parameters (snd nm)) (hidden_layout ha i n prev sizes)
  = param_ids n (length sizes).
Proof.
  induction sizes as [|s rest IH]; intros i n prev; simpl; [reflexivity|].
  now rewrite IH.
Qed.

Lemma MLP_layout_parameters n input hidden out oa ha :
  own_parameters (MLP_layout n input hidden out oa ha)
  = param_ids (2 + n) (length hidden + (if out =? 0 then 0 else 1)).
Proof.
  unfold MLP_layout, fcs_layout, output_layout.
  cbn [own_parameters flat_map snd].
  rewrite app_nil_r, flat_map_app, hidden_layout_parameters, param_ids_app.
  f_equal. replace (2 + n + 3 * length hidden)%nat
    with (3 * length hidden + (2 + n))%nat by lia.
  destruct (out =? 0); reflexivity.
Qed.

Lemma MLP_layout_parameters_NoDup n input hidden out oa ha :
  parameters (MLP_layout n input hidden out oa ha)
  = own_parameters (MLP_layout n input hidden out oa ha).
Proof.
  apply remove_dups_NoDup. rewrite MLP_layout_parameters. apply param_ids_NoDup.
Qed.

Lemma MLP_layout_parameters_bound n input hidden out oa ha p :
  p ∈ own_parameters (MLP_layout n input hidden out oa ha) ->
  (n < p < MLP_end n hidden out)%nat.
Proof.
  rewrite MLP_layout_parameters. intros H. apply param_ids_bound in H.
  unfold MLP_end. destruct (out =? 0); lia.
Qed.

Lemma linears_ok_grows st st' ls :
  grows st st' ->
  Forall (fun p => (p < next_oid st)%nat) (flat_map own_parameters ls) ->
  Forall (linear_ok st) ls -> Forall (linear_ok st') ls.
Proof.
  intros G. induction ls as [|l ls IH]; simpl; intros Hp Hl; [constructor|].
  apply Forall_app in Hp as [Hp1 Hp2]. apply Forall_cons in Hl as [Hl1 Hl2].
  constructor; [eapply linear_ok_grows; eassumption|auto].
Qed.

(** ** [MLP.__init__] before the traversal *)

Lemma fresh_ok st :
  exists st', fresh st = (Ok (next_oid st), st') /\
    next_oid st' = S (next_oid st) /\ visits st' = visits st /\ grows st st'.
Proof.
  eexists. split; [reflexivity|]. simpl. split_and!; auto.
  split_and!; simpl; auto.
Qed.

Lemma MLP_build_ok input hidden out oa ha st :
  sizes_ok input hidden out ->
  let net := MLP_layout (next_oid st) input hidden out oa ha in
  exists st',
    MLP_build input hidden out oa ha st = (Ok net, st') /\
    next_oid st' = MLP_end (next_oid st) hidden out /\
    visits st' = visits st /\ grows st st' /\ params_ok st' net.
Proof.
  intros (Hi & Hh & Ho) net. unfold MLP_build.
  destruct (fresh_ok st) as (sa & Ea & Na & Va & Ga).
  destruct (fresh_ok sa) as (sb & Eb & Nb & Vb & Gb).
  destruct (hidden_layers_ok ha hidden 0 [] input sb Hi Hh (keys_below_nil 0))
    as (sc & Ec & Nc & Vc & Gc & Lc).
  rewrite Na in Eb, Nb. rewrite Nb in Ec, Nc, Lc. simpl app in Ec.
  rewrite (bind_ok _ _ _ _ _ Ea), (bind_ok _ _ _ _ _ Eb), (bind_ok _ _ _ _ _ Ec).
  simpl fst. simpl snd.
  unfold net, MLP_layout, MLP_end, params_ok, fcs_layout, output_layout.
  simpl linears. rewrite app_nil_r, flat_map_app.
  destruct (Z.eqb_spec out 0) as [->|Hne].
  - exists sc. unfold bind, ret. simpl flat_map. rewrite !app_nil_r. split_and!.
    + reflexivity.
    + rewrite Nc. lia.
    + congruence.
    + eauto using grows_trans.
    + exact Lc.
  - assert (Hp : 0 <= default input (last hidden)).
    { clear -Hi Hh. revert input Hi.
      induction Hh as [|s rest Hs _ IH]; intros input Hi; [exact Hi|].
      rewrite default_last_cons. now apply IH. }
    destruct (Linear_init_ok _ out sc Hp Ho) as (sd & Ed & Nd & Vd & Gd & Ld).
    rewrite Nc in Ed, Nd, Ld.
    replace (S (S (next_oid st)) + 3 * length hidden)%nat
      with (3 * length hidden + (2 + next_oid st))%nat in Ed, Nd, Ld by lia.
    unfold bind at 1. rewrite (bind_ok _ _ _ _ _ Ed).
    assert (Hk : keys_below (0 + length hidden) (hidden_layout ha 0 (S (S (next_oid st))) input hidden)).
    { clear. generalize 0%nat as i, (S (S (next_oid st))) as n, input as prev.
      induction hidden as [|s rest IH]; intros i n prev; [apply keys_below_nil|].
      intros k. simpl. rewrite !elem_of_cons. intros [->|[->|Hk]].
      - exists i. split; [lia|now left].
      - exists i. split; [lia|now right].
      - apply IH in Hk as (j & Hj & Hk). exists j. split; [lia|exact Hk]. }
    destruct (keys_below_output _ _ Hk) as [Hk1 Hk2].
    rewrite (add_module_fresh _ "output") by exact Hk1.
    rewrite add_module_fresh.
    2:{ rewrite map_app, elem_of_app. simpl. rewrite list_elem_of_singleton.
        intros [H|H]; [now apply Hk2|discriminate]. }
    exists sd. unfold bind, ret. rewrite <- app_assoc. simpl. split_and!.
    + reflexivity.
    + rewrite Nd. lia.
    + congruence.
    + eauto using grows_trans.
    + apply Forall_app. split.
      * eapply linears_ok_grows; [exact Gd| |exact Lc].
        rewrite own_parameters_of_linears, hidden_layout_parameters.
        apply Forall_forall. intros p Hp'. apply param_ids_bound in Hp'. lia.
      * repeat constructor. exact Ld.
Qed.

(** ** The traversal [apply init_linear_weights_xavier] *)

Lemma elem_of_flat_map {A B} (f : A -> list B) l y :
  y ∈ flat_map f l <-> exists x, x ∈ l /\ y ∈ f x.
Proof.
  rewrite list_elem_of_In, in_flat_map. split; intros (x & H1 & H2); exists x.
  - now rewrite !list_elem_of_In.
  - now rewrite <- !list_elem_of_In.
Qed.

Lemma NoDup_flat_map_inj {A B} (f : A -> list B) l x x' y :
  NoDup (flat_map f l) -> x ∈ l -> x' ∈ l -> y ∈ f x -> y ∈ f x' -> x = x'.
Proof.
  induction l as [|z l IH]; simpl; intros Hnd Hx Hx' Hy Hy'.
  - now apply elem_of_nil in Hx.
  - apply NoDup_app in Hnd as (_ & Hdisj & Hnd).
    apply elem_of_cons in Hx as [->|Hx]; apply elem_of_cons in Hx' as [->|Hx'].
    + reflexivity.
    + exfalso. apply (Hdisj y Hy). apply elem_of_flat_map. eauto.
    + exfalso. apply (Hdisj y Hy'). apply elem_of_flat_map. eauto.
    + now apply IH.
Qed.

Lemma reinit_refl ls st : reinit ls st st.
Proof. split_and!; auto. Qed.

Lemma reinit_mono ls ls' st st' :
  (forall l, l ∈ ls -> l ∈ ls') -> reinit ls st st' -> reinit ls' st st'.
Proof.
  intros Hsub (N & G & S). split_and!; auto.
  intros p. destruct (S p) as [H|(o & i & out & b & W & Hin & H)]; [now left|].
  right. exists o, i, out, b, W. split; [now apply Hsub|exact H].
Qed.

Lemma reinit_trans ls1 ls2 st1 st2 st3 :
  reinit ls1 st1 st2 -> reinit ls2 st2 st3 -> reinit (ls1 ++ ls2) st1 st3.
Proof.
  intros (N1 & G1 & S1) (N2 & G2 & S2). split_and!; [congruence..|].
  intros p. destruct (S2 p) as [H2|(o & i & out & b & W & Hin & H)].
  - rewrite H2. destruct (S1 p) as [H1|(o & i & out & b & W & Hin & H)];
      [now left|].
    right. exists o, i, out, b, W. split; [|exact H].
    apply elem_of_app. now left.
  - right. exists o, i, out, b, W. split; [|exact H].
    apply elem_of_app. now right.
Qed.

Lemma init_linear_weights_xavier_ok m st :
  exists st', init_linear_weights_xavier m st = (Ok tt, st') /\
    visits st' = visits st ++ [oid_of m] /\ reinit (self_linear m) st st'.
Proof.
  destruct m as [o i out w b|a|cls o mods]; unfold init_linear_weights_xavier;
    munfold; eexists; (split; [reflexivity|]); simpl; (split; [reflexivity|]).
  - split_and!; simpl; auto. intros p.
    destruct (decide (p = w)) as [->|Hne].
    + right. eexists o, i, out, b, _. rewrite lookup_insert_eq.
      split_and!; [apply list_elem_of_singleton; reflexivity|reflexivity|reflexivity|].
      unfold nrows. simpl. now rewrite length_map, length_seq.
    + left. now rewrite lookup_insert_ne.
  - split_and!; simpl; auto.
  - split_and!; simpl; auto.
Qed.

Lemma apply_init_ok m : forall st,
  exists st', apply init_linear_weights_xavier m st = (Ok tt, st') /\
    visits st' = visits st ++ map oid_of (visit_order m) /\
    reinit (linears m) st st'.
Proof.
  induction m as [o i out w b|a|cls o mods IH] using Module_ind; intros st.
  - apply (init_linear_weights_xavier_ok (Linear o i out w b)).
  - destruct (init_linear_weights_xavier_ok (Act a) st) as (st' & E & V & R).
    exists st'. auto.
  - assert (Hc : forall memo st, exists st',
      apply_children init_linear_weights_xavier memo mods st = (Ok tt, st') /\
      visits st' = visits st ++ map oid_of (visit_children memo mods) /\
      reinit (flat_map (fun nm => linears (snd nm)) mods) st st').
    { clear st. induction IH as [|[n c] tl Hc _ IHtl]; intros memo st.
      - exists st. simpl. rewrite app_nil_r. auto using reinit_refl.
      - simpl. destruct (bool_decide (oid_of c ∈ memo)).
        + destruct (IHtl memo st) as (st' & E & V & R). exists st'.
          split_and!; auto. eapply reinit_mono; [|exact R].
          intros l Hl. apply elem_of_app. now right.
        + destruct (Hc st) as (st1 & E1 & V1 & R1).
          destruct (IHtl (oid_of c :: memo) st1) as (st' & E & V & R).
          exists st'. rewrite (bind_ok _ _ _ _ _ E1). split_and!; auto.
          * rewrite V, V1, map_app, app_assoc. reflexivity.
          * eapply reinit_trans; eassumption. }
    destruct (Hc [] st) as (st1 & E1 & V1 & R1).
    destruct (init_linear_weights_xavier_ok (Container cls o mods) st1)
      as (st' & E & V & R).
    exists st'. rewrite apply_Container, (bind_ok _ _ _ _ _ E1).
    split_and!; auto.
    + rewrite V, V1, visit_order_Container, map_app, app_assoc. reflexivity.
    + simpl linears. rewrite <- (app_nil_r (flat_map _ _)).
      eapply reinit_trans; eassumption.
Qed.

Lemma reinit_params_ok ls st st' m :
  reinit ls st st' -> (forall l, l ∈ ls -> l ∈ linears m) ->
  NoDup (own_parameters m) -> params_ok st m -> params_ok st' m.
Proof.
  intros (_ & _ & S) Hsub Hnd Hok. rewrite own_parameters_linears in Hnd.
  unfold params_ok in *. rewrite Forall_forall in *. intros l Hl.
  specialize (Hok l Hl). destruct l as [o i out w b|a|cls o mods]; simpl; auto.
  destruct Hok as (W & B & HW & HB & H1 & H2 & H3 & H4).
  assert (Hb : store st' !! b = Some B).
  { destruct (S b) as [->|(o' & i' & out' & b' & W' & Hin & _)]; [exact HB|].
    exfalso. apply Hsub in Hin.
    assert (E : Linear o i out w b = Linear o' i' out' b b').
    { eapply (NoDup_flat_map_inj own_parameters _ _ _ b Hnd Hl Hin);
        simpl; rewrite !elem_of_cons; auto. }
    injection E as -> -> -> -> ->.
    assert (Hnd' : NoDup (own_parameters (Linear o' i' out' b' b'))).
    { clear -Hnd Hl. induction (linears m) as [|z l IH]; simpl in *.
      - now apply elem_of_nil in Hl.
      - apply NoDup_app in Hnd as (Hz & _ & Hnd).
        apply elem_of_cons in Hl as [<-|Hl]; auto. }
    simpl in Hnd'. apply NoDup_cons in Hnd' as [Hnd' _].
    apply Hnd'. apply list_elem_of_singleton. reflexivity. }
  destruct (S w) as [Hw|(o' & i' & out' & b' & W' & Hin & HW' & Hc & Hr)].
  - exists W, B. rewrite Hw. auto 10.
  - apply Hsub in Hin.
    assert (E : Linear o i out w b = Linear o' i' out' w b').
    { eapply (NoDup_flat_map_inj own_parameters _ _ _ w Hnd Hl Hin);
        simpl; rewrite !elem_of_cons; auto. }
    injection E as -> -> -> ->.
    exists W', B. auto 10.
Qed.

Lemma reinit_grows ls st st1 st' :
  grows st st1 -> reinit ls st1 st' ->
  Forall (fun p => (next_oid st <= p)%nat) (flat_map own_parameters ls) ->
  grows st st'.
Proof.
  intros (N & G & S) (N' & G' & S') Hp. split_and!; [lia|congruence|].
  intros p Hlt. rewrite <- S by exact Hlt.
  destruct (S' p) as [H|(o & i & out & b & W & Hin & _)]; [exact H|].
  exfalso. rewrite Forall_forall in Hp.
  assert (next_oid st <= p)%nat; [|lia].
  apply Hp, elem_of_flat_map. eexists. split; [exact Hin|].
  simpl. apply elem_of_cons. now left.
Qed.

(** ** [MLP.__init__] *)

Lemma Forall_pos_nonneg (l : list Z) :
  Forall (fun s => 0 < s) l -> Forall (fun s => 0 <= s) l.
Proof. intros H. eapply Forall_impl; [exact H|]. intros s Hs. simpl in *. lia. Qed.

Lemma valid_sizes_ok input hidden out :
  valid_sizes input hidden out -> sizes_ok input hidden out.
Proof.
  intros (Hi & Hh & Ho). split_and!; [lia|now apply Forall_pos_nonneg|exact Ho].
Qed.

Lemma MLP_init_ok input hidden out oa ha st :
  sizes_ok input hidden out ->
  let net := MLP_layout (next_oid st) input hidden out oa ha in
  exists st',
    MLP_init input hidden out oa ha st = (Ok net, st') /\
    next_oid st' = MLP_end (next_oid st) hidden out /\
    visits st' = visits st ++ map oid_of (visit_order net) /\
    grows st st' /\ params_ok st' net.
Proof.
  intros Hs net.
  destruct (MLP_build_ok input hidden out oa ha st Hs)
    as (st1 & E1 & N1 & V1 & G1 & P1). fold net in E1, P1.
  destruct (apply_init_ok net st1) as (st' & E & V & R).
  exists st'. unfold MLP_init.
  rewrite (bind_ok _ _ _ _ _ E1), (bind_ok _ _ _ _ _ E). split_and!.
  - reflexivity.
  - destruct R as (N & _). congruence.
  - congruence.
  - eapply reinit_grows; [exact G1|exact R|].
    rewrite <- own_parameters_linears. apply Forall_forall. intros p Hp.
    apply MLP_layout_parameters_bound in Hp. lia.
  - eapply reinit_params_ok; [exact R|auto| |exact P1].
    unfold net. rewrite MLP_layout_parameters. apply param_ids_NoDup.
Qed.

Lemma MLP_build_err input hidden out oa ha st :
  Exists (fun s => s < 0) hidden \/ out < 0 \/
  (input < 0 /\ (hidden <> [] \/ out <> 0)) ->
  fst (MLP_build input hidden out oa ha st) = Err RuntimeError.
Proof.
  intros H. unfold MLP_build.
  destruct (fresh_ok st) as (sa & Ea & _).
  destruct (fresh_ok sa) as (sb & Eb & _).
  rewrite (bind_ok _ _ _ _ _ Ea), (bind_ok _ _ _ _ _ Eb).
  destruct (decide (Exists (fun s => s < 0) hidden))
    as [Hneg|Hpos]; [apply bind_fst_err, hidden_layers_err; auto|].
  destruct (decide (input < 0 /\ hidden <> [])) as [Hin|Hin];
    [apply bind_fst_err, hidden_layers_err; auto|].
  assert (Hh : Forall (fun s => 0 <= s) hidden).
  { apply Forall_forall. intros s Hs. destruct (Z_lt_le_dec s 0); [|assumption].
    exfalso. apply Hpos, Exists_exists. eauto. }
  assert (Hout : out <> 0).
  { destruct H as [H|[H|[Hi [H|H]]]].
    - contradiction.
    - lia.
    - exfalso. apply Hin. auto.
    - exact H. }
  assert (Hloop : exists sc prev,
    hidden_layers ha 0 hidden [] input sb
    = (Ok (hidden_layout ha 0 (next_oid sb) input hidden, prev), sc) /\
    (prev < 0 \/ out < 0)).
  { destruct hidden as [|s rest].
    - exists sb, input. split; [reflexivity|].
      destruct H as [H|[H|[H _]]]; [now apply Exists_nil in H|auto..].
    - assert (Hi : 0 <= input) by (destruct (Z_lt_le_dec input 0); [|assumption];
        exfalso; apply Hin; split; [assumption|discriminate]).
      destruct (hidden_layers_ok ha (s :: rest) 0 [] input sb Hi Hh
                  (keys_below_nil 0)) as (sc & Ec & _).
      exists sc, (default input (last (s :: rest))). split; [exact Ec|].
      destruct H as [H|[H|[H _]]]; [contradiction|auto|lia]. }
  destruct Hloop as (sc & prev & Ec & Hbad).
  rewrite (bind_ok _ _ _ _ _ Ec). simpl fst. simpl snd.
  apply bind_fst_err. destruct (Z.eqb_spec out 0) as [|_]; [contradiction|].
  apply bind_fst_err, Linear_init_err. exact Hbad.
Qed.

(** ** The forward pass *)

Lemma forward_Linear_ok o i out w b x st :
  linear_ok st (Linear o i out w b) -> ncols x = Z.to_nat i ->
  exists y, forward (Linear o i out w b) x st = (Ok y, st) /\
    ncols y = Z.to_nat out /\ wf_tensor y /\ nrows y = nrows x.
Proof.
  intros (W & B & HW & HB & H1 & H2 & H3 & H4) Hx. simpl. munfold.
  rewrite HW, HB. unfold F_linear.
  rewrite bool_decide_eq_true_2 by (split; congruence).
  eexists. split; [reflexivity|]. unfold wf_tensor, nrows. simpl.
  split_and!.
  - exact H2.
  - apply Forall_forall. intros r Hr. apply list_elem_of_In, in_map_iff in Hr.
    destruct Hr as (r' & <- & _).
    rewrite length_zip_with, length_map, H4. unfold nrows in H2. lia.
  - apply length_map.
Qed.

Lemma act_row_length k r : length (act_row k r) = length r.
Proof.
  destruct k; simpl; unfold softmax_row; rewrite ?length_map; reflexivity.
Qed.

Lemma act_forward_wf k x : wf_tensor x -> wf_tensor (act_forward k x).
Proof.
  unfold wf_tensor, act_forward. simpl. intros H. apply Forall_forall.
  intros r Hr. apply list_elem_of_In, in_map_iff in Hr.
  destruct Hr as (r' & <- & Hr'). rewrite act_row_length.
  rewrite Forall_forall in H. apply H, list_elem_of_In, Hr'.
Qed.

(** A forward pass leaves the state as it found it. *)
Lemma forward_state m : forall x st, snd (forward m x st) = st.
Proof.
  induction m as [o i out w b|a|cls o mods IH] using Module_ind; intros x st.
  - simpl. munfold. destruct (store st !! w); [|reflexivity].
    destruct (store st !! b); reflexivity.
  - reflexivity.
  - destruct cls; try reflexivity.
    + rewrite forward_Sequential. revert x.
      induction IH as [|[n c] tl Hc _ IHtl]; intros x; [reflexivity|].
      simpl. unfold bind. specialize (Hc x st). simpl in Hc.
      destruct (forward c x st) as [[y|e] st1]; simpl in Hc; subst st1;
        [apply IHtl|reflexivity].
    + rewrite forward_MLP. unfold call.
      induction IH as [|[n c] tl Hc _ IHtl]; [reflexivity|].
      simpl. destruct (String.eqb n "fcs"); [apply Hc|apply IHtl].
Qed.


Lemma chain_hidden_layout ha sizes : forall i n prev rest x st,
  Forall (linear_ok st)
    (flat_map (fun nm => linears (snd nm)) (hidden_layout ha i n prev sizes)) ->
  ncols x = Z.to_nat prev -> wf_tensor x ->
  exists y, chain (hidden_layout ha i n prev sizes ++ rest) x st = chain rest y st /\
    ncols y = Z.to_nat (default prev (last sizes)) /\ wf_tensor y /\
    nrows y = nrows x.
Proof.
  induction sizes as [|s more IH]; intros i n prev rest x st Hok Hx Hwf.
  - exists x. auto.
  - simpl in Hok. apply Forall_cons in Hok as [Hl Hok].
    destruct (forward_Linear_ok _ _ _ _ _ x st Hl Hx) as (y1 & E1 & C1 & W1 & R1).
    destruct (IH (S i) (3 + n)%nat s rest (act_forward (act_kind ha) y1) st Hok C1
                 (act_forward_wf _ _ W1)) as (y & E & C & W & R).
    exists y. rewrite default_last_cons. split_and!; auto.
    + cbn [hidden_layout app chain]. rewrite (bind_ok _ _ _ _ _ E1).
      cbn [forward]. unfold bind at 1, ret at 1. exact E.
    + rewrite R, <- R1. unfold nrows, act_forward. simpl. apply length_map.
Qed.

Lemma default_last_nonneg input hidden :
  0 <= input -> Forall (fun s => 0 <= s) hidden ->
  0 <= default input (last hidden).
Proof.
  intros Hi Hh. revert input Hi.
  induction Hh as [|s rest Hs _ IH]; intros input Hi; [exact Hi|].
  rewrite default_last_cons. now apply IH.
Qed.

(** The forward pass of a built network succeeds on every input of the
    declared width, and gives the width of the last layer. *)
Lemma MLP_forward_ok n input hidden out oa ha x st :
  params_ok st (MLP_layout n input hidden out oa ha) ->
  ncols x = Z.to_nat input -> wf_tensor x ->
  exists y, forward (MLP_layout n input hidden out oa ha) x st = (Ok y, st) /\
    ncols y = Z.to_nat (if out =? 0 then default input (last hidden) else out) /\
    wf_tensor y /\ nrows y = nrows x.
Proof.
  unfold params_ok, MLP_layout. simpl linears. rewrite app_nil_r.
  unfold fcs_layout. rewrite flat_map_app. intros Hok Hx Hwf.
  apply Forall_app in Hok as [Hh Ho].
  rewrite forward_MLP. unfold call. rewrite getattr_here, forward_Sequential.
  destruct (chain_hidden_layout ha hidden 0 (2 + n)
              input (output_layout oa (3 * length hidden + (2 + n))
                       (default input (last hidden)) out) x st Hh Hx Hwf)
    as (y1 & E1 & C1 & W1 & R1).
  rewrite E1. unfold output_layout in *. destruct (out =? 0).
  - exists y1. auto.
  - simpl in Ho. apply Forall_cons in Ho as [Ho _].
    destruct (forward_Linear_ok _ _ _ _ _ y1 st Ho C1) as (y2 & E2 & C2 & W2 & R2).
    exists (act_forward (act_kind oa) y2). cbn [chain].
    rewrite (bind_ok _ _ _ _ _ E2). split_and!.
    + reflexivity.
    + exact C2.
    + now apply act_forward_wf.
    + rewrite <- R1, <- R2. unfold nrows, act_forward. simpl. apply length_map.
Qed.

(** ** The constructors of the heads *)

Lemma NoDup_app_bounds (l1 l2 : list nat) k :
  NoDup l1 -> NoDup l2 ->
  (forall p, p ∈ l1 -> (p < k)%nat) -> (forall p, p ∈ l2 -> (k <= p)%nat) ->
  NoDup (l1 ++ l2).
Proof.
  intros H1 H2 B1 B2. apply NoDup_app. split_and!; auto.
  intros p Hp1 Hp2. apply B1 in Hp1. apply B2 in Hp2. lia.
Qed.

Lemma apply_init_keeps m st :
  NoDup (own_parameters m) -> params_ok st m ->
  exists st', apply init_linear_weights_xavier m st = (Ok tt, st') /\
    next_oid st' = next_oid st /\
    visits st' = visits st ++ map oid_of (visit_order m) /\
    reinit (linears m) st st' /\ params_ok st' m.
Proof.
  intros Hnd Hok. destruct (apply_init_ok m st) as (st' & E & V & R).
  exists st'. split_and!; auto.
  - now destruct R.
  - eapply reinit_params_ok; eauto.
Qed.

Lemma params_ok_grows st st' m :
  grows st st' ->
  (forall p, p ∈ own_parameters m -> (p < next_oid st)%nat) ->
  params_ok st m -> params_ok st' m.
Proof.
  intros G Hb Hok. eapply linears_ok_grows; [exact G| |exact Hok].
  rewrite <- own_parameters_linears. apply Forall_forall. exact Hb.
Qed.

Lemma Sequential_init2_ok a b st :
  exists st',
    Sequential_init2 a b st
    = (Ok (Container Sequential (next_oid st) [("0", a); ("1", b)]), st') /\
    next_oid st' = S (next_oid st) /\ visits st' = visits st /\ grows st st'.
Proof.
  destruct (fresh_ok st) as (st' & E & N & V & G). exists st'.
  unfold Sequential_init2. rewrite (bind_ok _ _ _ _ _ E). auto.
Qed.

Lemma MLP_end_le n hidden out : (2 + n <= MLP_end n hidden out)%nat.
Proof. unfold MLP_end. lia. Qed.

Lemma shared_branches_ok input hidden out mu_act sigma_act ha st :
  sizes_ok input hidden out ->
  let mods := shared_layout (next_oid st) input hidden out mu_act sigma_act ha in
  exists st',
    shared_branches input hidden out mu_act sigma_act ha st = (Ok mods, st') /\
    next_oid st' = (8 + MLP_end (next_oid st) hidden 0)%nat /\
    grows st st' /\
    Forall (linear_ok st') (flat_map (fun nm => linears (snd nm)) mods) /\
    visits st' = visits st ++ nested_visits mods.
Proof.
  intros (Hi & Hh & Ho) mods.
  assert (Hs0 : sizes_ok input hidden 0) by (split_and!; [auto|auto|lia]).
  pose proof (default_last_nonneg input hidden Hi Hh) as Hp.
  destruct (MLP_init_ok input hidden 0 Defaults.MLP_output_activation ha st Hs0)
    as (s1 & E1 & N1 & V1 & G1 & P1).
  destruct (Linear_init_ok _ out s1 Hp Ho) as (s2 & E2 & N2 & V2 & G2 & L2).
  destruct (Sequential_init2_ok
              (Linear (next_oid s1) (default input (last hidden)) out
                      (S (next_oid s1)) (S (S (next_oid s1))))
              (Act mu_act) s2) as (s3 & E3 & N3 & V3 & G3).
  destruct (Linear_init_ok _ out s3 Hp Ho) as (s4 & E4 & N4 & V4 & G4 & L4).
  destruct (Sequential_init2_ok
              (Linear (next_oid s3) (default input (last hidden)) out
                      (S (next_oid s3)) (S (S (next_oid s3))))
              (Act sigma_act) s4) as (s5 & E5 & N5 & V5 & G5).
  exists s5. unfold shared_branches.
  rewrite (bind_ok _ _ _ _ _ E1), (bind_ok _ _ _ _ _ E2),
    (bind_ok _ _ _ _ _ E3), (bind_ok _ _ _ _ _ E4), (bind_ok _ _ _ _ _ E5).
  rewrite N2 in N3. rewrite N3 in N4 |- *. rewrite N4 in N5 |- *.
  rewrite N2, N1. unfold ret, mods, shared_layout. split_and!.
  - reflexivity.
  - rewrite N5. lia.
  - eauto using grows_trans.
  - cbn [flat_map snd]. rewrite app_nil_r. apply Forall_app. split.
    + assert (G15 : grows s1 s5) by eauto using grows_trans.
      eapply params_ok_grows; [exact G15| |exact P1].
      intros p Hp'. apply MLP_layout_parameters_bound in Hp'. lia.
    + simpl. constructor; [|constructor; [|constructor]].
      * assert (G25 : grows s2 s5) by eauto using grows_trans.
        rewrite N1 in L2.
        eapply linear_ok_grows; [exact G25| |exact L2].
        rewrite N2, N1. simpl.
        repeat (apply Forall_cons; split; [lia|]). constructor.
      * rewrite N3, N1 in L4.
        eapply linear_ok_grows; [exact G5| |exact L4].
        rewrite N4, N1. simpl.
        repeat (apply Forall_cons; split; [lia|]). constructor.
  - unfold nested_visits. cbn [flat_map snd MLP_layout].
    rewrite !app_nil_r. congruence.
Qed.

Lemma separate_branches_ok input hidden out mu_act sigma_act ha st :
  sizes_ok input hidden out ->
  let mods := separate_layout (next_oid st) input hidden out mu_act sigma_act ha in
  exists st',
    separate_branches input hidden out mu_act sigma_act ha st = (Ok mods, st') /\
    next_oid st' = MLP_end (MLP_end (next_oid st) hidden out) hidden out /\
    grows st st' /\
    Forall (linear_ok st') (flat_map (fun nm => linears (snd nm)) mods) /\
    visits st' = visits st ++ nested_visits mods.
Proof.
  intros Hs mods.
  destruct (MLP_init_ok input hidden out mu_act ha st Hs)
    as (s1 & E1 & N1 & V1 & G1 & P1).
  destruct (MLP_init_ok input hidden out sigma_act ha s1 Hs)
    as (s2 & E2 & N2 & V2 & G2 & P2).
  exists s2. unfold separate_branches.
  rewrite (bind_ok _ _ _ _ _ E1), (bind_ok _ _ _ _ _ E2).
  rewrite N1 in N2 |- *. unfold ret, mods, separate_layout. split_and!.
  - reflexivity.
  - exact N2.
  - eauto using grows_trans.
  - cbn [flat_map snd]. rewrite app_nil_r. apply Forall_app. split.
    + eapply params_ok_grows; [exact G2| |exact P1].
      intros p Hp. apply MLP_layout_parameters_bound in Hp. lia.
    + rewrite N1 in P2. exact P2.
  - unfold nested_visits. cbn [flat_map snd MLP_layout].
    rewrite app_nil_r, V2, V1, N1, app_assoc. reflexivity.
Qed.

Lemma shared_layout_NoDup n input hidden out mu_act sigma_act ha :
  NoDup (flat_map (fun nm => own_parameters (snd nm))
           (shared_layout n input hidden out mu_act sigma_act ha)).
Proof.
  unfold shared_layout. cbn [flat_map snd]. rewrite app_nil_r.
  apply (NoDup_app_bounds _ _ (MLP_end n hidden 0)).
  - rewrite MLP_layout_parameters. apply param_ids_NoDup.
  - simpl. repeat (apply NoDup_cons; split;
      [rewrite ?elem_of_cons, elem_of_nil; lia|]). constructor.
  - intros p Hp. apply MLP_layout_parameters_bound in Hp. lia.
  - simpl. intros p. rewrite !elem_of_cons, elem_of_nil. lia.
Qed.

Lemma separate_layout_NoDup n input hidden out mu_act sigma_act ha :
  NoDup (flat_map (fun nm => own_parameters (snd nm))
           (separate_layout n input hidden out mu_act sigma_act ha)).
Proof.
  unfold separate_layout. cbn [flat_map snd]. rewrite app_nil_r.
  apply (NoDup_app_bounds _ _ (MLP_end n hidden out)).
  - rewrite MLP_layout_parameters. apply param_ids_NoDup.
  - rewrite MLP_layout_parameters. apply param_ids_NoDup.
  - intros p Hp. apply MLP_layout_parameters_bound in Hp. lia.
  - intros p Hp. apply MLP_layout_parameters_bound in Hp. lia.
Qed.

Lemma std_ones_layout_NoDup n input hidden out mu_act ha :
  NoDup (flat_map (fun nm => own_parameters (snd nm))
           [("mu", MLP_layout n input hidden out mu_act ha)]).
Proof.
  cbn [flat_map snd]. rewrite app_nil_r, MLP_layout_parameters.
  apply param_ids_NoDup.
Qed.

Lemma shared_layout_bound n input hidden out mu_act sigma_act ha p :
  p ∈ flat_map (fun nm => own_parameters (snd nm))
        (shared_layout n input hidden out mu_act sigma_act ha) ->
  (n < p < 8 + MLP_end n hidden 0)%nat.
Proof.
  unfold shared_layout. cbn [flat_map snd]. rewrite app_nil_r, elem_of_app.
  pose proof (MLP_end_le n hidden 0). intros [Hp|Hp].
  - apply MLP_layout_parameters_bound in Hp. lia.
  - simpl in Hp. rewrite !elem_of_cons, elem_of_nil in Hp. lia.
Qed.

Lemma separate_layout_bound n input hidden out mu_act sigma_act ha p :
  p ∈ flat_map (fun nm => own_parameters (snd nm))
        (separate_layout n input hidden out mu_act sigma_act ha) ->
  (n < p < MLP_end (MLP_end n hidden out) hidden out)%nat.
Proof.
  unfold separate_layout. cbn [flat_map snd]. rewrite app_nil_r, elem_of_app.
  pose proof (MLP_end_le n hidden out).
  pose proof (MLP_end_le (MLP_end n hidden out) hidden out).
  intros [Hp|Hp]; apply MLP_layout_parameters_bound in Hp; lia.
Qed.

(** The last step of every head constructor: the traversal of the head. *)
Lemma head_apply_ok cls o mods st :
  NoDup (flat_map (fun nm => own_parameters (snd nm)) mods) ->
  Forall (linear_ok st) (flat_map (fun nm => linears (snd nm)) mods) ->
  let head := Container cls o mods in
  exists st',
    (apply init_linear_weights_xavier head ;;; ret head) st = (Ok head, st') /\
    next_oid st' = next_oid st /\
    visits st' = visits st ++ map oid_of (visit_order head) /\
    reinit (linears head) st st' /\ params_ok st' head.
Proof.
  intros Hnd Hok head.
  destruct (apply_init_keeps head st Hnd Hok) as (st' & E & N & V & R & P).
  exists st'. rewrite (bind_ok _ _ _ _ _ E). auto.
Qed.

Lemma NormalDistMLP_init_ok input hidden out mu_act sigma_act ha
    share_net std_ones st :
  sizes_ok input hidden out ->
  let head :=
    Container (NormalDistMLP share_net std_ones) (next_oid st)
      (NormalDistMLP_layout (next_oid st) input hidden out
                            mu_act sigma_act ha share_net std_ones) in
  exists st',
    NormalDistMLP_init input hidden out mu_act sigma_act ha share_net std_ones st
    = (Ok head, st') /\
    grows st st' /\ params_ok st' head /\
    visits st' = visits st ++ nested_visits (modules_of head)
                   ++ map oid_of (visit_order head).
Proof.
  intros Hs head. unfold NormalDistMLP_init.
  destruct (fresh_ok st) as (sa & Ea & Na & Va & Ga).
  rewrite (bind_ok _ _ _ _ _ Ea). unfold head, NormalDistMLP_layout.
  destruct std_ones; [|destruct share_net].
  - destruct (MLP_init_ok input hidden out mu_act ha sa Hs)
      as (s1 & E1 & N1 & V1 & G1 & P1). rewrite Na in E1, P1, V1.
    unfold bind at 1. rewrite (bind_ok _ _ _ _ _ E1). unfold ret at 1.
    cbn [add_module].
    destruct (head_apply_ok (NormalDistMLP share_net true) (next_oid st) _ s1
                (std_ones_layout_NoDup (S (next_oid st)) input hidden out mu_act ha)) as (st' & E & N & V & R & P).
    { cbn [flat_map snd]. rewrite app_nil_r. exact P1. }
    exists st'. split_and!; [exact E| |exact P|].
    2:{ rewrite V, V1, Va. cbn [modules_of]. unfold nested_visits.
        cbn [flat_map snd MLP_layout]. rewrite ?app_nil_r, app_assoc.
        reflexivity. }
    eapply reinit_grows; [|exact R|]; [eauto using grows_trans|].
    rewrite <- own_parameters_linears. cbn [own_parameters flat_map snd].
    rewrite app_nil_r. apply Forall_forall. intros p Hp.
    apply MLP_layout_parameters_bound in Hp. lia.
  - destruct (shared_branches_ok input hidden out mu_act sigma_act ha sa Hs)
      as (s1 & E1 & N1 & G1 & P1 & V1). rewrite Na in E1, P1, V1.
    rewrite (bind_ok _ _ _ _ _ E1).
    destruct (head_apply_ok (NormalDistMLP true false) (next_oid st) _ s1
                (shared_layout_NoDup (S (next_oid st)) input hidden out mu_act sigma_act ha) P1) as (st' & E & N & V & R & P).
    exists st'. split_and!; [exact E| |exact P|].
    2:{ rewrite V, V1, Va. cbn [modules_of]. unfold nested_visits.
        cbn [flat_map snd MLP_layout]. rewrite ?app_nil_r, app_assoc.
        reflexivity. }
    eapply reinit_grows; [|exact R|]; [eauto using grows_trans|].
    rewrite <- own_parameters_linears. cbn [own_parameters].
    apply Forall_forall. intros p Hp. apply shared_layout_bound in Hp. lia.
  - destruct (separate_branches_ok input hidden out mu_act sigma_act ha sa Hs)
      as (s1 & E1 & N1 & G1 & P1 & V1). rewrite Na in E1, P1, V1.
    rewrite (bind_ok _ _ _ _ _ E1).
    destruct (head_apply_ok (NormalDistMLP false false) (next_oid st) _ s1
                (separate_layout_NoDup (S (next_oid st)) input hidden out mu_act sigma_act ha) P1) as (st' & E & N & V & R & P).
    exists st'. split_and!; [exact E| |exact P|].
    2:{ rewrite V, V1, Va. cbn [modules_of]. unfold nested_visits.
        cbn [flat_map snd MLP_layout]. rewrite ?app_nil_r, app_assoc.
        reflexivity. }
    eapply reinit_grows; [|exact R|]; [eauto using grows_trans|].
    rewrite <- own_parameters_linears. cbn [own_parameters].
    apply Forall_forall. intros p Hp. apply separate_layout_bound in Hp. lia.
Qed.

Lemma GaussianDistMLP_init_ok input hidden out mu_act sigma_act ha
    share_net lmin lmax st :
  sizes_ok input hidden out ->
  let head :=
    Container (GaussianDistMLP share_net lmin lmax) (next_oid st)
      (GaussianDistMLP_layout (next_oid st) input hidden out
                              mu_act sigma_act ha share_net) in
  exists st',
    GaussianDistMLP_init input hidden out mu_act sigma_act ha share_net
                         lmin lmax st
    = (Ok head, st') /\
    grows st st' /\ params_ok st' head /\
    visits st' = visits st ++ nested_visits (modules_of head)
                   ++ map oid_of (visit_order head).
Proof.
  intros Hs head. unfold GaussianDistMLP_init.
  destruct (fresh_ok st) as (sa & Ea & Na & Va & Ga).
  rewrite (bind_ok _ _ _ _ _ Ea). unfold head, GaussianDistMLP_layout.
  destruct share_net.
  - destruct (shared_branches_ok input hidden out mu_act sigma_act ha sa Hs)
      as (s1 & E1 & N1 & G1 & P1 & V1). rewrite Na in E1, P1, V1.
    rewrite (bind_ok _ _ _ _ _ E1).
    destruct (head_apply_ok (GaussianDistMLP true lmin lmax) (next_oid st) _ s1
                (shared_layout_NoDup (S (next_oid st)) input hidden out mu_act sigma_act ha) P1) as (st' & E & N & V & R & P).
    exists st'. split_and!; [exact E| |exact P|].
    2:{ rewrite V, V1, Va. cbn [modules_of]. unfold nested_visits.
        cbn [flat_map snd MLP_layout]. rewrite ?app_nil_r, app_assoc.
        reflexivity. }
    eapply reinit_grows; [|exact R|]; [eauto using grows_trans|].
    rewrite <- own_parameters_linears. cbn [own_parameters].
    apply Forall_forall. intros p Hp. apply shared_layout_bound in Hp. lia.
  - destruct (separate_branches_ok input hidden out mu_act sigma_act ha sa Hs)
      as (s1 & E1 & N1 & G1 & P1 & V1). rewrite Na in E1, P1, V1.
    rewrite (bind_ok _ _ _ _ _ E1).
    destruct (head_apply_ok (GaussianDistMLP false lmin lmax) (next_oid st) _ s1
                (separate_layout_NoDup (S (next_oid st)) input hidden out mu_act sigma_act ha) P1) as (st' & E & N & V & R & P).
    exists st'. split_and!; [exact E| |exact P|].
    2:{ rewrite V, V1, Va. cbn [modules_of]. unfold nested_visits.
        cbn [flat_map snd MLP_layout]. rewrite ?app_nil_r, app_assoc.
        reflexivity. }
    eapply reinit_grows; [|exact R|]; [eauto using grows_trans|].
    rewrite <- own_parameters_linears. cbn [own_parameters].
    apply Forall_forall. intros p Hp. apply separate_layout_bound in Hp. lia.
Qed.

(** ** The forward passes of the heads *)

Lemma projection_forward_ok o' o i out w b a x st :
  linear_ok st (Linear o i out w b) -> ncols x = Z.to_nat i ->
  exists z,
    forward (Linear o i out w b) x st = (Ok z, st) /\
    forward (Container Sequential o' [("0", Linear o i out w b); ("1", Act a)]) x st
    = (Ok (act_forward (act_kind a) z), st) /\
    ncols z = Z.to_nat out /\ wf_tensor z /\ nrows z = nrows x.
Proof.
  intros Hl Hx.
  destruct (forward_Linear_ok _ _ _ _ _ x st Hl Hx) as (z & E & C & W & R).
  exists z. split_and!; auto.
  rewrite forward_Sequential. cbn [chain]. rewrite (bind_ok _ _ _ _ _ E).
  reflexivity.
Qed.

Lemma ones_like_shape t :
  ncols (ones_like t) = ncols t /\
  Forall2 (fun r1 r => length r1 = length r /\ Forall (fun v => v = 1%R) r1)
          (rows (ones_like t)) (rows t).
Proof.
  split; [reflexivity|]. unfold ones_like, map_tensor. simpl.
  induction (rows t) as [|r rs IH]; simpl; constructor; [|exact IH].
  split; [apply length_map|].
  induction r as [|v r IHr]; simpl; constructor; auto.
Qed.

Lemma params_ok_child st cls o mods name c :
  params_ok st (Container cls o mods) -> (name, c) ∈ mods -> params_ok st c.
Proof.
  unfold params_ok. simpl. rewrite !Forall_forall. intros H Hin l Hl.
  apply H, elem_of_flat_map. exists (name, c). auto.
Qed.

Lemma shared_forward_ok n input hidden out mu_act sigma_act ha st x :
  let mods := shared_layout n input hidden out mu_act sigma_act ha in
  let n1 := MLP_end n hidden 0 in
  let prev := default input (last hidden) in
  Forall (linear_ok st) (flat_map (fun nm => linears (snd nm)) mods) ->
  ncols x = Z.to_nat input -> wf_tensor x ->
  exists h zmu zsig,
    call mods "hidden_layer" x st = (Ok h, st) /\
    forward (Linear n1 prev out (S n1) (S (S n1))) h st = (Ok zmu, st) /\
    forward (Linear (4 + n1) prev out (5 + n1) (6 + n1)) h st = (Ok zsig, st) /\
    call mods "mu" h st = (Ok (act_forward (act_kind mu_act) zmu), st) /\
    call mods "sigma" h st = (Ok (act_forward (act_kind sigma_act) zsig), st) /\
    (hidden = [] -> h = x).
Proof.
  intros mods n1 prev Hok Hx Hwf. unfold mods, shared_layout in Hok.
  cbn [flat_map snd] in Hok. apply Forall_app in Hok as [Pt Hok].
  simpl in Hok. apply Forall_cons in Hok as [Lmu Hok].
  apply Forall_cons in Hok as [Lsig _].
  destruct (MLP_forward_ok _ _ _ _ _ _ x st Pt Hx Hwf) as (h & Fh & Ch & Wh & Rh).
  simpl in Ch.
  destruct (projection_forward_ok (3 + n1) _ _ _ _ _ mu_act h st Lmu Ch)
    as (zmu & Fmu & Smu & _).
  destruct (projection_forward_ok (7 + n1) _ _ _ _ _ sigma_act h st Lsig Ch)
    as (zsig & Fsig & Ssig & _).
  exists h, zmu, zsig. split_and!.
  - exact Fh.
  - exact Fmu.
  - exact Fsig.
  - exact Smu.
  - exact Ssig.
  - intros ->. cbv in Fh. congruence.
Qed.

Lemma separate_forward_ok n input hidden out mu_act sigma_act ha st x :
  let mods := separate_layout n input hidden out mu_act sigma_act ha in
  Forall (linear_ok st) (flat_map (fun nm => linears (snd nm)) mods) ->
  ncols x = Z.to_nat input -> wf_tensor x ->
  exists mu sigma,
    call mods "mu" x st = (Ok mu, st) /\
    call mods "sigma" x st = (Ok sigma, st) /\
    forward (MLP_layout (MLP_end n hidden out) input hidden out sigma_act ha) x st
    = (Ok sigma, st).
Proof.
  intros mods Hok Hx Hwf. unfold mods, separate_layout in Hok.
  cbn [flat_map snd] in Hok. rewrite app_nil_r in Hok.
  apply Forall_app in Hok as [Pmu Psig].
  destruct (MLP_forward_ok _ _ _ _ _ _ x st Pmu Hx Hwf) as (mu & Fmu & _).
  destruct (MLP_forward_ok _ _ _ _ _ _ x st Psig Hx Hwf) as (sigma & Fsig & _).
  exists mu, sigma. split_and!; [exact Fmu|exact Fsig|exact Fsig].
Qed.

(** ** How often the traversal visits a module *)

Lemma oid_in_owned m :
  match m with Act _ => True | _ => oid_of m ∈ owned m end.
Proof.
  destruct m as [o i out w b|a|cls o mods]; simpl; auto.
  - apply elem_of_cons. now left.
  - apply elem_of_app. right. apply elem_of_cons. now left.
Qed.

Lemma linears_owned m : forall l, l ∈ linears m -> oid_of l ∈ owned m.
Proof.
  induction m as [o i out w b|a|cls o mods IH] using Module_ind; intros l; simpl.
  - rewrite list_elem_of_singleton. intros ->. simpl.
    apply elem_of_cons. now left.
  - intros H. now apply elem_of_nil in H.
  - rewrite elem_of_flat_map. intros (nm & Hnm & Hl).
    apply elem_of_app. left. apply elem_of_flat_map. exists nm.
    split; [exact Hnm|]. rewrite Forall_forall in IH. now apply (IH nm Hnm).
Qed.

Lemma calls_on_app o t1 t2 :
  calls_on o (t1 ++ t2) = (calls_on o t1 + calls_on o t2)%nat.
Proof. apply count_occ_app. Qed.

Lemma calls_on_absent o t : o ∉ t -> calls_on o t = 0%nat.
Proof. rewrite list_elem_of_In. apply count_occ_not_In. Qed.

Lemma calls_on_NoDup o t : NoDup t -> o ∈ t -> calls_on o t = 1%nat.
Proof.
  intros Hnd Hin. unfold calls_on.
  apply NoDup_ListNoDup in Hnd.
  pose proof (proj1 (NoDup_count_occ Nat.eq_dec t) Hnd o) as Hle.
  apply list_elem_of_In, (count_occ_In Nat.eq_dec) in Hin. lia.
Qed.

(** Away from the activation objects, the traversal calls the initializer
    on exactly the affine layers and containers of a well-formed tree. *)
Lemma visit_count m : forall o,
  wf_tree m -> o ∉ act_oids m ->
  calls_on o (map oid_of (visit_order m)) = calls_on o (owned m).
Proof.
  induction m as [o' i out w b|a|cls o' mods IH] using Module_ind;
    intros o [Hnd Hdisj] Ho.
  - reflexivity.
  - change (calls_on o [act_oid a] = calls_on o []).
    rewrite calls_on_absent by exact Ho. reflexivity.
  - rewrite visit_order_Container, map_app. simpl owned. simpl act_oids in *.
    rewrite !calls_on_app. f_equal. simpl owned in Hnd, Hdisj.
    apply NoDup_app in Hnd as (Hnd & _ & _).
    assert (Hdisj' : forall a,
      a ∈ flat_map (fun nm => act_oids (snd nm)) mods ->
      a ∉ flat_map (fun nm => owned (snd nm)) mods).
    { intros a Ha Hin. apply (Hdisj a Ha), elem_of_app. now left. }
    clear Hdisj.
    assert (Hmemo : forall x, x ∈ @nil nat ->
      x ∉ flat_map (fun nm => owned (snd nm)) mods).
    { intros x Hx. now apply elem_of_nil in Hx. }
    revert Hmemo. generalize (@nil nat) as memo.
    induction IH as [|[n c] tl Hc _ IHtl]; intros memo Hmemo; [reflexivity|].
    simpl in Hc. cbn [flat_map snd] in *. cbn [visit_children].
    apply NoDup_app in Hnd as (Hndc & Hsep & Hndtl).
    assert (Hdtl : forall a,
      a ∈ flat_map (fun nm => act_oids (snd nm)) tl ->
      a ∉ flat_map (fun nm => owned (snd nm)) tl).
    { intros a Ha Hin. apply (Hdisj' a); apply elem_of_app; now right. }
    assert (Hotl : o ∉ flat_map (fun nm => act_oids (snd nm)) tl).
    { intros Hin. apply Ho, elem_of_app. now right. }
    case_bool_decide as Hin.
    + assert (Hown : owned c = []).
      { pose proof (oid_in_owned c) as Hoc.
        destruct c as [? ? ? ? ?|a|? ? ?]; [exfalso|reflexivity|exfalso];
          apply (Hmemo _ Hin), elem_of_app; now left. }
      rewrite Hown. simpl. apply IHtl; auto.
      intros x Hx. specialize (Hmemo x Hx). rewrite Hown in Hmemo. exact Hmemo.
    + rewrite map_app, !calls_on_app. f_equal.
      * apply Hc; [split; [exact Hndc|]|].
        -- intros a Ha Hin'. apply (Hdisj' a); apply elem_of_app; now left.
        -- intros Hin'. apply Ho, elem_of_app. now left.
      * apply IHtl; auto. intros x Hx.
        apply elem_of_cons in Hx as [->|Hx].
        -- pose proof (oid_in_owned c) as Hoc.
           destruct c as [? ? ? ? ?|a|? ? ?].
           ++ now apply Hsep.
           ++ intros Hin'. apply (Hdisj' (act_oid a)).
              ** apply elem_of_app. left. simpl. apply elem_of_cons. now left.
              ** apply elem_of_app. now right.
           ++ now apply Hsep.
        -- intros Hin'. apply (Hmemo x Hx), elem_of_app. now right.
Qed.

(** The traversal of a well-formed tree calls the initializer exactly once
    on each of its affine layers. *)
Lemma visit_once m l :
  wf_tree m -> l ∈ linears m ->
  calls_on (oid_of l) (map oid_of (visit_order m)) = 1%nat.
Proof.
  intros Hwf Hl. pose proof (linears_owned m l Hl) as Hown.
  rewrite visit_count; [|exact Hwf|].
  - apply calls_on_NoDup; [apply Hwf|exact Hown].
  - intros Ha. now apply (proj2 Hwf _ Ha).
Qed.

(** It does not call it on an object that is not in the tree. *)
Lemma visit_never m o :
  wf_tree m -> o ∉ owned m -> o ∉ act_oids m ->
  calls_on o (map oid_of (visit_order m)) = 0%nat.
Proof.
  intros Hwf Hown Hact. rewrite visit_count by assumption.
  now apply calls_on_absent.
Qed.

(** ** The built networks are well-formed trees *)

Lemma linear_oids_bound n k o :
  o ∈ linear_oids n k -> (n <= o < n + 3 * k)%nat.
Proof.
  revert n. induction k as [|k IH]; intros n; simpl.
  - intros H. now apply elem_of_nil in H.
  - rewrite elem_of_cons. intros [->|H]; [lia|]. apply IH in H. lia.
Qed.

Lemma linear_oids_NoDup n k : NoDup (linear_oids n k).
Proof.
  revert n. induction k as [|k IH]; intros n; simpl; constructor; [|apply IH].
  intros H. apply linear_oids_bound in H. lia.
Qed.

Lemma hidden_layout_owned ha sizes : forall i n prev,
  flat_map (fun nm => owned (snd nm)) (hidden_layout ha i n prev sizes)
  = linear_oids n (length sizes).
Proof.
  induction sizes as [|s rest IH]; intros i n prev; simpl; [reflexivity|].
  now rewrite IH.
Qed.

Lemma hidden_layout_act_oids ha sizes : forall i n prev a,
  a ∈ flat_map (fun nm => act_oids (snd nm)) (hidden_layout ha i n prev sizes) ->
  a = act_oid ha.
Proof.
  induction sizes as [|s rest IH]; intros i n prev a; simpl.
  - intros H. now apply elem_of_nil in H.
  - rewrite elem_of_cons. intros [->|H]; [reflexivity|]. now apply IH in H.
Qed.

Lemma MLP_layout_owned_bound n input hidden out oa ha o :
  o ∈ owned (MLP_layout n input hidden out oa ha) ->
  (n <= o < MLP_end n hidden out)%nat.
Proof.
  unfold MLP_layout, fcs_layout, output_layout, MLP_end.
  cbn [owned flat_map snd]. rewrite app_nil_r, flat_map_app, hidden_layout_owned.
  rewrite !elem_of_app, !list_elem_of_singleton.
  intros [[[H|H]|H]|H].
  - apply linear_oids_bound in H. destruct (out =? 0); lia.
  - destruct (out =? 0); simpl in H.
    + now apply elem_of_nil in H.
    + rewrite !elem_of_cons, elem_of_nil in H. lia.
  - destruct (out =? 0); lia.
  - destruct (out =? 0); lia.
Qed.

Lemma NoDup_app_bounds_rev (l1 l2 : list nat) k :
  NoDup l1 -> NoDup l2 ->
  (forall p, p ∈ l1 -> (k <= p)%nat) -> (forall p, p ∈ l2 -> (p < k)%nat) ->
  NoDup (l1 ++ l2).
Proof.
  intros H1 H2 B1 B2. apply NoDup_app. split_and!; auto.
  intros p Hp1 Hp2. apply B1 in Hp1. apply B2 in Hp2. lia.
Qed.

Lemma NoDup_one (x : nat) : NoDup [x].
Proof. repeat constructor. intros H. now apply elem_of_nil in H. Qed.

Lemma output_layout_owned oa n prev out o :
  o ∈ flat_map (fun nm => owned (snd nm)) (output_layout oa n prev out) ->
  o = n /\ out <> 0.
Proof.
  unfold output_layout. destruct (Z.eqb_spec out 0); simpl.
  - intros H. now apply elem_of_nil in H.
  - rewrite list_elem_of_singleton. auto.
Qed.

Lemma MLP_layout_owned_NoDup n input hidden out oa ha :
  NoDup (owned (MLP_layout n input hidden out oa ha)).
Proof.
  unfold MLP_layout, fcs_layout.
  cbn [owned flat_map snd]. rewrite app_nil_r, flat_map_app, hidden_layout_owned.
  apply (NoDup_app_bounds_rev _ _ (S n)); [|apply NoDup_one| |].
  - apply (NoDup_app_bounds_rev _ _ (2 + n)); [|apply NoDup_one| |].
    + apply (NoDup_app_bounds _ _ (3 * length hidden + (2 + n))).
      * apply linear_oids_NoDup.
      * unfold output_layout. destruct (out =? 0); simpl; [constructor|].
        apply NoDup_one.
      * intros o H. apply linear_oids_bound in H. lia.
      * intros o H. apply output_layout_owned in H. lia.
    + intros o. rewrite elem_of_app. intros [H|H].
      * apply linear_oids_bound in H. lia.
      * apply output_layout_owned in H. lia.
    + intros o. rewrite list_elem_of_singleton. lia.
  - intros o. rewrite !elem_of_app, list_elem_of_singleton. intros [[H|H]|H].
    + apply linear_oids_bound in H. lia.
    + apply output_layout_owned in H. lia.
    + lia.
  - intros o. rewrite list_elem_of_singleton. lia.
Qed.

Lemma MLP_layout_act_oids n input hidden out oa ha a :
  a ∈ act_oids (MLP_layout n input hidden out oa ha) ->
  a = act_oid oa \/ a = act_oid ha.
Proof.
  unfold MLP_layout, fcs_layout, output_layout.
  cbn [act_oids flat_map snd]. rewrite app_nil_r, flat_map_app, elem_of_app.
  intros [H|H].
  - right. now apply hidden_layout_act_oids in H.
  - left. destruct (out =? 0); simpl in H.
    + now apply elem_of_nil in H.
    + rewrite !elem_of_cons, elem_of_nil in H. tauto.
Qed.

Lemma MLP_layout_wf n input hidden out oa ha :
  (act_oid oa < n)%nat -> (act_oid ha < n)%nat ->
  wf_tree (MLP_layout n input hidden out oa ha).
Proof.
  intros Hoa Hha. split; [apply MLP_layout_owned_NoDup|].
  intros a Ha Hown. apply MLP_layout_act_oids in Ha.
  apply MLP_layout_owned_bound in Hown. lia.
Qed.

Lemma wf_tree_bounds m lo :
  NoDup (owned m) -> (forall o, o ∈ owned m -> (lo <= o)%nat) ->
  (forall a, a ∈ act_oids m -> (a < lo)%nat) -> wf_tree m.
Proof.
  intros Hnd Hown Hact. split; [exact Hnd|].
  intros a Ha Hin. apply Hact in Ha. apply Hown in Hin. lia.
Qed.

Lemma shared_layout_owned_bound n input hidden out mu_act sigma_act ha o :
  o ∈ flat_map (fun nm => owned (snd nm))
        (shared_layout n input hidden out mu_act sigma_act ha) ->
  (n <= o < 8 + MLP_end n hidden 0)%nat.
Proof.
  unfold shared_layout. cbn [flat_map snd]. rewrite elem_of_app.
  pose proof (MLP_end_le n hidden 0). intros [H'|H'].
  - apply MLP_layout_owned_bound in H'. lia.
  - simpl in H'. rewrite !elem_of_cons, elem_of_nil in H'. lia.
Qed.

Lemma shared_layout_owned_NoDup n input hidden out mu_act sigma_act ha :
  NoDup (flat_map (fun nm => owned (snd nm))
           (shared_layout n input hidden out mu_act sigma_act ha)).
Proof.
  unfold shared_layout. cbn [flat_map snd].
  apply (NoDup_app_bounds _ _ (MLP_end n hidden 0)).
  - apply MLP_layout_owned_NoDup.
  - simpl. repeat (apply NoDup_cons; split;
      [rewrite ?elem_of_cons, elem_of_nil; lia|]). constructor.
  - intros o H. apply MLP_layout_owned_bound in H. lia.
  - simpl. intros o. rewrite !elem_of_cons, elem_of_nil. lia.
Qed.

Lemma shared_layout_act_oids n input hidden out mu_act sigma_act ha a :
  a ∈ flat_map (fun nm => act_oids (snd nm))
        (shared_layout n input hidden out mu_act sigma_act ha) ->
  a = act_oid Defaults.MLP_output_activation \/ a = act_oid ha \/
  a = act_oid mu_act \/ a = act_oid sigma_act.
Proof.
  unfold shared_layout. cbn [flat_map snd]. rewrite elem_of_app. intros [H|H].
  - apply MLP_layout_act_oids in H. tauto.
  - simpl in H. rewrite !elem_of_cons, elem_of_nil in H. tauto.
Qed.

Lemma separate_layout_owned_bound n input hidden out mu_act sigma_act ha o :
  o ∈ flat_map (fun nm => owned (snd nm))
        (separate_layout n input hidden out mu_act sigma_act ha) ->
  (n <= o < MLP_end (MLP_end n hidden out) hidden out)%nat.
Proof.
  unfold separate_layout. cbn [flat_map snd]. rewrite app_nil_r, elem_of_app.
  pose proof (MLP_end_le n hidden out).
  pose proof (MLP_end_le (MLP_end n hidden out) hidden out).
  intros [H'|H']; apply MLP_layout_owned_bound in H'; lia.
Qed.

Lemma separate_layout_owned_NoDup n input hidden out mu_act sigma_act ha :
  NoDup (flat_map (fun nm => owned (snd nm))
           (separate_layout n input hidden out mu_act sigma_act ha)).
Proof.
  unfold separate_layout. cbn [flat_map snd]. rewrite app_nil_r.
  apply (NoDup_app_bounds _ _ (MLP_end n hidden out)).
  - apply MLP_layout_owned_NoDup.
  - apply MLP_layout_owned_NoDup.
  - intros o H. apply MLP_layout_owned_bound in H. lia.
  - intros o H. apply MLP_layout_owned_bound in H. lia.
Qed.

Lemma separate_layout_act_oids n input hidden out mu_act sigma_act ha a :
  a ∈ flat_map (fun nm => act_oids (snd nm))
        (separate_layout n input hidden out mu_act sigma_act ha) ->
  a = act_oid ha \/ a = act_oid mu_act \/ a = act_oid sigma_act.
Proof.
  unfold separate_layout. cbn [flat_map snd]. rewrite app_nil_r, elem_of_app.
  intros [H|H]; apply MLP_layout_act_oids in H; tauto.
Qed.

(** A container over children built from [S n] on is well-formed. *)
Lemma wf_tree_head cls n mods hi :
  NoDup (flat_map (fun nm => owned (snd nm)) mods) ->
  (forall o, o ∈ flat_map (fun nm => owned (snd nm)) mods -> (S n <= o < hi)%nat) ->
  (forall a, a ∈ flat_map (fun nm => act_oids (snd nm)) mods -> (a < n)%nat) ->
  wf_tree (Container cls n mods).
Proof.
  intros Hnd Hown Hact. apply (wf_tree_bounds _ n).
  - simpl. apply (NoDup_app_bounds_rev _ _ (S n)); [exact Hnd|apply NoDup_one| |].
    + intros o Ho. apply Hown in Ho. lia.
    + intros o. rewrite list_elem_of_singleton. lia.
  - simpl. intros o. rewrite elem_of_app, list_elem_of_singleton.
    intros [Ho| ->]; [apply Hown in Ho|]; lia.
  - exact Hact.
Qed.

(** The calls made on the affine layers of a head whose children are laid
    out as those of a [NormalDistMLP]: one by the head's traversal, and one
    before by the constructor of the [MLP] sub-network the layer belongs to,
    if any. *)
Lemma NormalDistMLP_layout_calls cls n input hidden out mu_act sigma_act ha
    share_net std_ones :
  (act_oid mu_act < n)%nat -> (act_oid sigma_act < n)%nat ->
  (act_oid ha < n)%nat ->
  let mods := NormalDistMLP_layout n input hidden out mu_act sigma_act ha
                share_net std_ones in
  let head := Container cls n mods in
  wf_tree head /\
  (forall l, l ∈ nested_linears head ->
             calls_on (oid_of l) (nested_visits mods) = 1%nat) /\
  (forall l, l ∈ linears head -> l ∉ nested_linears head ->
             calls_on (oid_of l) (nested_visits mods) = 0%nat).
Proof.
  intros Hmu Hsig Hha mods head. unfold head, mods, NormalDistMLP_layout.
  assert (H0 : (act_oid Defaults.MLP_output_activation < n)%nat) by (simpl; lia).
  destruct std_ones; [|destruct share_net].
  - assert (Hwf : wf_tree (MLP_layout (S n) input hidden out mu_act ha))
      by (apply MLP_layout_wf; lia).
    split_and!.
    + apply (wf_tree_head _ _ _ (MLP_end (S n) hidden out));
        cbn [flat_map snd]; rewrite app_nil_r.
      * apply MLP_layout_owned_NoDup.
      * apply MLP_layout_owned_bound.
      * intros a Ha. apply MLP_layout_act_oids in Ha. lia.
    + unfold nested_linears, nested_visits.
      cbn [modules_of flat_map snd MLP_layout]. rewrite !app_nil_r.
      intros l Hl. now apply visit_once.
    + unfold nested_linears.
      cbn [linears modules_of flat_map snd MLP_layout]. rewrite !app_nil_r.
      intros l Hl Hnl. contradiction.
  - assert (Hwf : wf_tree (MLP_layout (S n) input hidden 0
                             Defaults.MLP_output_activation ha))
      by (apply MLP_layout_wf; lia).
    split_and!.
    + apply (wf_tree_head _ _ _ (8 + MLP_end (S n) hidden 0)).
      * apply shared_layout_owned_NoDup.
      * apply shared_layout_owned_bound.
      * intros a Ha. apply shared_layout_act_oids in Ha. lia.
    + unfold nested_linears, nested_visits, shared_layout.
      cbn [modules_of flat_map snd MLP_layout]. rewrite !app_nil_r.
      intros l Hl. now apply visit_once.
    + unfold nested_linears, nested_visits, shared_layout.
      cbn [linears modules_of flat_map snd MLP_layout]. rewrite !app_nil_r.
      intros l Hl Hnl. apply elem_of_app in Hl as [Hl|Hl]; [contradiction|].
      pose proof (MLP_end_le (S n) hidden 0).
      apply visit_never; [exact Hwf| |].
      * intros Hown. apply MLP_layout_owned_bound in Hown.
        simpl in Hl. rewrite !elem_of_cons, elem_of_nil in Hl.
        destruct Hl as [->|[->|[]]]; simpl in Hown; lia.
      * intros Hact. apply MLP_layout_act_oids in Hact.
        simpl in Hl. rewrite !elem_of_cons, elem_of_nil in Hl.
        destruct Hl as [->|[->|[]]]; simpl in Hact; lia.
  - assert (Hwf1 : wf_tree (MLP_layout (S n) input hidden out mu_act ha))
      by (apply MLP_layout_wf; lia).
    pose proof (MLP_end_le (S n) hidden out).
    assert (Hwf2 : wf_tree (MLP_layout (MLP_end (S n) hidden out) input hidden
                              out sigma_act ha))
      by (apply MLP_layout_wf; lia).
    split_and!.
    + apply (wf_tree_head _ _ _ (MLP_end (MLP_end (S n) hidden out) hidden out)).
      * apply separate_layout_owned_NoDup.
      * apply separate_layout_owned_bound.
      * intros a Ha. apply separate_layout_act_oids in Ha. lia.
    + unfold nested_linears, nested_visits, separate_layout.
      cbn [modules_of flat_map snd MLP_layout]. rewrite !app_nil_r.
      intros l Hl. rewrite calls_on_app.
      apply elem_of_app in Hl as [Hl|Hl].
      * rewrite (visit_once _ _ Hwf1 Hl), visit_never; [reflexivity|exact Hwf2| |].
        -- apply linears_owned, MLP_layout_owned_bound in Hl.
           intros Hown. apply MLP_layout_owned_bound in Hown. lia.
        -- apply linears_owned, MLP_layout_owned_bound in Hl.
           intros Hact. apply MLP_layout_act_oids in Hact. lia.
      * rewrite (visit_once _ _ Hwf2 Hl), visit_never; [reflexivity|exact Hwf1| |].
        -- apply linears_owned, MLP_layout_owned_bound in Hl.
           intros Hown. apply MLP_layout_owned_bound in Hown. lia.
        -- apply linears_owned, MLP_layout_owned_bound in Hl.
           intros Hact. apply MLP_layout_act_oids in Hact. lia.
    + unfold nested_linears, separate_layout.
      cbn [linears modules_of flat_map snd MLP_layout]. rewrite !app_nil_r.
      intros l Hl Hnl. contradiction.
Qed.

(** The same for a head with a single [MLP] child. *)
Lemma single_child_calls cls n name input hidden out oa ha :
  (act_oid oa < n)%nat -> (act_oid ha < n)%nat ->
  let mods := [(name, MLP_layout (S n) input hidden out oa ha)] in
  let head := Container cls n mods in
  wf_tree head /\
  (forall l, l ∈ nested_linears head ->
             calls_on (oid_of l) (nested_visits mods) = 1%nat) /\
  (forall l, l ∈ linears head -> l ∉ nested_linears head ->
             calls_on (oid_of l) (nested_visits mods) = 0%nat).
Proof.
  intros Hoa Hha mods head. unfold head, mods.
  assert (Hwf : wf_tree (MLP_layout (S n) input hidden out oa ha))
    by (apply MLP_layout_wf; lia).
  split_and!.
  - apply (wf_tree_head _ _ _ (MLP_end (S n) hidden out));
      cbn [flat_map snd]; rewrite app_nil_r.
    + apply MLP_layout_owned_NoDup.
    + apply MLP_layout_owned_bound.
    + intros a Ha. apply MLP_layout_act_oids in Ha. lia.
  - unfold nested_linears, nested_visits.
    cbn [modules_of flat_map snd MLP_layout]. rewrite !app_nil_r.
    intros l Hl. now apply visit_once.
  - unfold nested_linears.
    cbn [linears modules_of flat_map snd MLP_layout]. rewrite !app_nil_r.
    intros l Hl Hnl. contradiction.
Qed.

Lemma single_layout_NoDup (name : string) n input hidden out oa ha :
  NoDup (flat_map (fun nm : string * Module => own_parameters (snd nm))
           [(name, MLP_layout n input hidden out oa ha)]).
Proof. exact (std_ones_layout_NoDup n input hidden out oa ha). Qed.

Lemma CategoricalMLP_init_ok input out hidden oa ha st :
  sizes_ok input hidden out ->
  let head :=
    Container CategoricalMLP (next_oid st)
      [("fc", MLP_layout (S (next_oid st)) input hidden out oa ha)] in
  exists st',
    CategoricalMLP_init input out hidden oa ha st = (Ok head, st') /\
    grows st st' /\ params_ok st' head /\
    visits st' = visits st ++ nested_visits (modules_of head)
                   ++ map oid_of (visit_order head).
Proof.
  intros Hs head. unfold CategoricalMLP_init.
  destruct (fresh_ok st) as (sa & Ea & Na & Va & Ga).
  rewrite (bind_ok _ _ _ _ _ Ea).
  destruct (MLP_init_ok input hidden out oa ha sa Hs)
    as (s1 & E1 & N1 & V1 & G1 & P1). rewrite Na in E1, P1, V1.
  rewrite (bind_ok _ _ _ _ _ E1). cbn [add_module].
  destruct (head_apply_ok CategoricalMLP (next_oid st) _ s1
              (single_layout_NoDup "fc" (S (next_oid st)) input hidden out oa ha))
    as (st' & E & N & V & R & P).
  { cbn [flat_map snd]. rewrite app_nil_r. exact P1. }
  exists st'. split_and!.
  - exact E.
  - eapply reinit_grows; [|exact R|]; [eauto using grows_trans|].
    rewrite <- own_parameters_linears. cbn [own_parameters flat_map snd].
    rewrite app_nil_r. apply Forall_forall. intros p Hp.
    apply MLP_layout_parameters_bound in Hp. lia.
  - exact P.
  - rewrite V, V1, Va. unfold head. cbn [modules_of]. unfold nested_visits.
    cbn [flat_map snd MLP_layout]. rewrite ?app_nil_r, app_assoc.
    reflexivity.
Qed.

(** ** The hard update *)

Lemma copy_params_zip l1 : forall l2 st,
  NoDup l1 ->
  (forall p, p ∈ l2 -> is_Some (store st !! p)) ->
  (forall tp p, tp ∈ l1 -> p ∈ l2 -> tp <> p) ->
  exists st',
    copy_params (zip l1 l2) st = (Ok tt, st') /\
    next_oid st' = next_oid st /\ visits st' = visits st /\ gen st' = gen st /\
    (forall q, q ∉ l1 -> store st' !! q = store st !! q) /\
    (forall tp p, (tp, p) ∈ zip l1 l2 -> store st' !! tp = store st !! p).
Proof.
  induction l1 as [|tp l1 IH]; intros l2 st Hnd Hpres Hdisj.
  - exists st. simpl. split_and!; auto. intros tp p H. now apply elem_of_nil in H.
  - destruct l2 as [|p l2].
    + exists st. simpl. split_and!; auto.
      intros tp' p' H. now apply elem_of_nil in H.
    + apply NoDup_cons in Hnd as [Hnotin Hnd].
      destruct (Hpres p) as [data Hdata]; [apply elem_of_cons; now left|].
      set (st1 := snd (write tp data st)).
      destruct (IH l2 st1 Hnd) as (st' & E & N & V & G & Hother & Hcopy).
      { intros p' Hp'. unfold st1. simpl.
        rewrite lookup_insert_ne.
        - apply Hpres, elem_of_cons. now right.
        - apply Hdisj; [apply elem_of_cons; now left|apply elem_of_cons; now right]. }
      { intros tp' p' Htp' Hp'. apply Hdisj; apply elem_of_cons; now right. }
      exists st'. simpl. unfold bind, read, write. rewrite Hdata.
      fold (write tp data st). split_and!; auto.
      * intros q Hq. apply not_elem_of_cons in Hq as [Hne Hq].
        rewrite (Hother q Hq). unfold st1. simpl. now rewrite lookup_insert_ne.
      * intros tp' p' Hin. apply elem_of_cons in Hin as [[= -> ->]|Hin].
        -- rewrite (Hother tp Hnotin). unfold st1. simpl.
           now rewrite lookup_insert_eq.
        -- rewrite (Hcopy tp' p' Hin). unfold st1. simpl.
           rewrite lookup_insert_ne; [reflexivity|].
           apply Hdisj; [apply elem_of_cons; now left|].
           apply elem_of_cons. right. eapply elem_of_zip_r. exact Hin.
Qed.

Lemma params_ok_present st m p :
  params_ok st m -> p ∈ own_parameters m -> is_Some (store st !! p).
Proof.
  unfold params_ok. rewrite own_parameters_linears, elem_of_flat_map, Forall_forall.
  intros Hok (l & Hl & Hp). specialize (Hok l Hl).
  destruct l as [o i out w b| |]; simpl in Hp.
  - destruct Hok as (W & B & HW & HB & _).
    rewrite !elem_of_cons, elem_of_nil in Hp.
    destruct Hp as [->|[->|[]]]; eauto.
  - now apply elem_of_nil in Hp.
  - exfalso. clear -Hl. revert Hl.
    induction m as [? ? ? ? ?|?|? ? mods' IH] using Module_ind; simpl.
    + rewrite list_elem_of_singleton. discriminate.
    + intros H. now apply elem_of_nil in H.
    + rewrite elem_of_flat_map. intros (nm & Hnm & Hl).
      rewrite Forall_forall in IH. exact (IH nm Hnm Hl).
Qed.

(** [hard_update] between two built networks of the same sizes. *)
Lemma hard_update_ok n t input hidden out oa oa' ha ha' st :
  let network := MLP_layout n input hidden out oa ha in
  let target := MLP_layout t input hidden out oa' ha' in
  (MLP_end n hidden out <= t)%nat ->
  params_ok st network ->
  exists st',
    hard_update network target st = (Ok tt, st') /\
    next_oid st' = next_oid st /\ visits st' = visits st /\
    (forall q, q ∉ parameters target -> store st' !! q = store st !! q) /\
    (forall tp p, (tp, p) ∈ zip (parameters target) (parameters network) ->
                  store st' !! tp = store st !! p).
Proof.
  intros network target Hle Hok. unfold hard_update.
  destruct (copy_params_zip (parameters target) (parameters network) st)
    as (st' & E & N & V & _ & Hother & Hcopy).
  - unfold target. rewrite MLP_layout_parameters_NoDup, MLP_layout_parameters.
    apply param_ids_NoDup.
  - intros p Hp. apply (params_ok_present st network); [exact Hok|].
    unfold network in *. now rewrite MLP_layout_parameters_NoDup in Hp.
  - intros tp p Htp Hp. unfold network, target in *.
    rewrite MLP_layout_parameters_NoDup in Htp, Hp.
    apply MLP_layout_parameters_bound in Htp, Hp. lia.
  - exists st'. auto.
Qed.

Lemma MLP_layout_parameters_length n input hidden out oa ha :
  length (parameters (MLP_layout n input hidden out oa ha))
  = (2 * (length hidden + (if (out =? 0)%Z then 0 else 1)))%nat.
Proof.
  rewrite MLP_layout_parameters_NoDup, MLP_layout_parameters.
  generalize (length hidden + (if (out =? 0)%Z then 0 else 1))%nat as k.
  generalize (2 + n)%nat as m. intros m k. revert m.
  induction k as [|k IH]; intros m; simpl; [reflexivity|]. rewrite IH. lia.
Qed.

Lemma MLP_parameters_bound n input hidden out oa ha p :
  p ∈ parameters (MLP_layout n input hidden out oa ha) ->
  (n < p < MLP_end n hidden out)%nat.
Proof.
  rewrite MLP_layout_parameters_NoDup. apply MLP_layout_parameters_bound.
Qed.

Lemma params_ok_agree st st' m :
  (forall p, p ∈ own_parameters m -> store st' !! p = store st !! p) ->
  params_ok st m -> params_ok st' m.
Proof.
  unfold params_ok. rewrite own_parameters_linears, !Forall_forall.
  intros Hagree Hok l Hl. specialize (Hok l Hl).
  destruct l as [o i out w b| |]; simpl; auto.
  destruct Hok as (W & B & HW & HB & H). exists W, B.
  rewrite !Hagree; [auto| |]; apply elem_of_flat_map; eexists;
    (split; [exact Hl|]); simpl; rewrite !elem_of_cons; auto.
Qed.

Lemma synced_intro st live target :
  length (parameters target) = length (parameters live) ->
  (forall tp p, (tp, p) ∈ zip (parameters target) (parameters live) ->
     tp <> p /\
     exists data, store st !! tp = Some data /\ store st !! p = Some data) ->
  synced st live target.
Proof.
  intros Hlen H. split; [exact Hlen|]. intros tp p Hin.
  destruct (H tp p Hin) as (Hne & Hdata). split_and!; [exact Hdata|exact Hne|..].
  - intros t. simpl. now rewrite lookup_insert_ne.
  - intros t. simpl. now rewrite lookup_insert_ne.
Qed.

Lemma Tanh_init_ok st :
  exists st', Tanh_init st = (Ok (mkAct (next_oid st) Tanh), st') /\
    next_oid st' = S (next_oid st) /\ grows st st'.
Proof.
  destruct (fresh_ok st) as (st' & E & N & _ & G). exists st'.
  unfold Tanh_init. rewrite (bind_ok _ _ _ _ _ E). auto.
Qed.

Lemma Adam_ok params lr st :
  params <> [] ->
  Adam params lr st = (Ok {| param_group := params; lr := lr |}, st).
Proof. destruct params; [congruence|reflexivity]. Qed.

Lemma MLP_parameters_nonempty n input hidden out oa ha :
  out <> 0 -> parameters (MLP_layout n input hidden out oa ha) <> [].
Proof.
  intros Hout Hnil.
  pose proof (MLP_layout_parameters_length n input hidden out oa ha) as Hlen.
  rewrite Hnil in Hlen. destruct (Z.eqb_spec out 0); [contradiction|].
  simpl in Hlen. lia.
Qed.

(** [init_model] succeeds, returns the expected bundle, and leaves every
    target network synchronised with its live network. *)
Lemma init_model_ok env hp st :
  0 < state_size env -> 0 < action_size env -> hyperparams_ok hp ->
  let models := init_model_layout (next_oid st) env hp in
  exists st',
    init_model env hp st = (Ok models, st') /\
    synced st' (actor models) (target_actor models) /\
    synced st' (critic1 models) (target_critic1 models) /\
    synced st' (critic2 models) (target_critic2 models).
Proof.
  intros Hstate Haction [HhA HhC] models.
  apply Forall_pos_nonneg in HhA, HhC.
  assert (HsA : sizes_ok (state_size env) (actor_hidden_sizes hp) (action_size env))
    by (split_and!; [lia|exact HhA|lia]).
  assert (HsC : sizes_ok (state_size env + action_size env)
                  (critic_hidden_sizes hp) 1)
    by (split_and!; [lia|exact HhC|lia]).
  set (relu := Defaults.MLP_hidden_activation).
  set (ident := Defaults.MLP_output_activation).
  destruct (Tanh_init_ok st) as (sA & EA & NA & GA).
  destruct (MLP_init_ok _ _ _ (mkAct (next_oid st) Tanh) relu sA HsA)
    as (s1 & E1 & N1 & _ & G1 & P1). rewrite NA in E1, N1, P1.
  destruct (Tanh_init_ok s1) as (sB & EB & NB & GB). rewrite N1 in EB, NB.
  destruct (MLP_init_ok _ _ _
              (mkAct (MLP_end (S (next_oid st)) (actor_hidden_sizes hp)
                              (action_size env)) Tanh) relu sB HsA)
    as (s2 & E2 & N2 & _ & G2 & P2). rewrite NB in E2, N2, P2.
  destruct (MLP_init_ok _ _ _ ident relu s2 HsC) as (s3 & E3 & N3 & _ & G3 & P3).
  rewrite N2 in E3, N3, P3.
  destruct (MLP_init_ok _ _ _ ident relu s3 HsC) as (s4 & E4 & N4 & _ & G4 & P4).
  rewrite N3 in E4, N4, P4.
  destruct (MLP_init_ok _ _ _ ident relu s4 HsC) as (s5 & E5 & N5 & _ & G5 & P5).
  rewrite N4 in E5, N5, P5.
  destruct (MLP_init_ok _ _ _ ident relu s5 HsC) as (s6 & E6 & N6 & _ & G6 & P6).
  rewrite N5 in E6, N6, P6.
  unfold models, init_model_layout. clear models. fold relu ident.
  set (n := next_oid st) in *.
  change (1 + n)%nat with (S n).
  set (n1 := MLP_end (S n) (actor_hidden_sizes hp) (action_size env)) in *.
  change (1 + n1)%nat with (S n1).
  set (n2 := MLP_end (S n1) (actor_hidden_sizes hp) (action_size env)) in *.
  set (n3 := MLP_end n2 (critic_hidden_sizes hp) 1) in *.
  set (n4 := MLP_end n3 (critic_hidden_sizes hp) 1) in *.
  set (n5 := MLP_end n4 (critic_hidden_sizes hp) 1) in *.
  set (n6 := MLP_end n5 (critic_hidden_sizes hp) 1) in *.
  set (a := MLP_layout (S n) (state_size env) (actor_hidden_sizes hp)
              (action_size env) (mkAct n Tanh) relu) in *.
  set (ta := MLP_layout (S n1) (state_size env) (actor_hidden_sizes hp)
               (action_size env) (mkAct n1 Tanh) relu) in *.
  set (c1 := MLP_layout n2 (state_size env + action_size env)
               (critic_hidden_sizes hp) 1 ident relu) in *.
  set (c2 := MLP_layout n3 (state_size env + action_size env)
               (critic_hidden_sizes hp) 1 ident relu) in *.
  set (tc1 := MLP_layout n4 (state_size env + action_size env)
                (critic_hidden_sizes hp) 1 ident relu) in *.
  set (tc2 := MLP_layout n5 (state_size env + action_size env)
                (critic_hidden_sizes hp) 1 ident relu) in *.
  pose proof (MLP_end_le (S n) (actor_hidden_sizes hp) (action_size env)) as L1.
  pose proof (MLP_end_le (S n1) (actor_hidden_sizes hp) (action_size env)) as L2.
  pose proof (MLP_end_le n2 (critic_hidden_sizes hp) 1) as L3.
  pose proof (MLP_end_le n3 (critic_hidden_sizes hp) 1) as L4.
  pose proof (MLP_end_le n4 (critic_hidden_sizes hp) 1) as L5.
  pose proof (MLP_end_le n5 (critic_hidden_sizes hp) 1) as L6.
  fold n1 in L1. fold n2 in L2. fold n3 in L3. fold n4 in L4. fold n5 in L5.
  fold n6 in L6.
  (* the parameters of the live networks are still there after the six
     constructions *)
  assert (Pa : params_ok s6 a).
  { apply (params_ok_grows s1); [eauto 8 using grows_trans| |exact P1].
    intros p Hp. apply MLP_layout_parameters_bound in Hp. fold n1 in Hp. lia. }
  assert (Pc1 : params_ok s6 c1).
  { apply (params_ok_grows s3); [eauto 8 using grows_trans| |exact P3].
    intros p Hp. apply MLP_layout_parameters_bound in Hp. fold n3 in Hp. lia. }
  assert (Pc2 : params_ok s6 c2).
  { apply (params_ok_grows s4); [eauto 8 using grows_trans| |exact P4].
    intros p Hp. apply MLP_layout_parameters_bound in Hp. fold n4 in Hp. lia. }
  (* the three hard updates *)
  destruct (hard_update_ok (S n) (S n1) (state_size env) (actor_hidden_sizes hp)
              (action_size env) (mkAct n Tanh) (mkAct n1 Tanh)
              relu relu s6 (Nat.le_succ_diag_r n1) Pa)
    as (h1 & U1 & _ & _ & O1 & C1). fold a ta in U1, O1, C1.
  assert (Pc1' : params_ok h1 c1).
  { apply (params_ok_agree s6); [|exact Pc1]. intros p Hp. apply O1.
    intros Hq. apply MLP_parameters_bound in Hq.
    apply MLP_layout_parameters_bound in Hp. fold n2 in Hq. fold n3 in Hp. lia. }
  destruct (hard_update_ok n2 n4 (state_size env + action_size env)
              (critic_hidden_sizes hp) 1 ident ident relu relu h1
              (Nat.le_trans _ _ _ (Nat.le_add_l n3 2) L4) Pc1')
    as (h2 & U2 & _ & _ & O2 & C2). fold c1 tc1 in U2, O2, C2.
  assert (Pc2' : params_ok h2 c2).
  { apply (params_ok_agree s6); [|exact Pc2]. intros p Hp.
    apply MLP_layout_parameters_bound in Hp. fold n4 in Hp.
    rewrite O2, O1; [reflexivity| |]; intros Hq;
      apply MLP_parameters_bound in Hq; fold n2 n5 in Hq; lia. }
  destruct (hard_update_ok n3 n5 (state_size env + action_size env)
              (critic_hidden_sizes hp) 1 ident ident relu relu h2
              (Nat.le_trans _ _ _ (Nat.le_add_l n4 2) L5) Pc2')
    as (h3 & U3 & _ & _ & O3 & C3). fold c2 tc2 in U3, O3, C3.
  exists h3.
  cbn [actor target_actor critic1 critic2 target_critic1 target_critic2].
  split_and!.
  - unfold init_model, to_device.
    rewrite (bind_ok _ _ _ _ _ EA), (bind_ok _ _ _ _ _ E1).
    unfold bind at 1, ret at 1.
    rewrite (bind_ok _ _ _ _ _ EB), (bind_ok _ _ _ _ _ E2).
    unfold bind at 1, ret at 1. rewrite (bind_ok _ _ _ _ _ E3).
    unfold bind at 1, ret at 1. rewrite (bind_ok _ _ _ _ _ E4).
    unfold bind at 1, ret at 1. rewrite (bind_ok _ _ _ _ _ E5).
    unfold bind at 1, ret at 1. rewrite (bind_ok _ _ _ _ _ E6).
    unfold bind at 1, ret at 1.
    assert (Ha0 : action_size env <> 0) by lia.
    assert (H10 : 1 <> 0) by lia.
    rewrite (bind_ok _ _ _ _ _ (Adam_ok (parameters a) _ s6
               (MLP_parameters_nonempty _ _ _ _ _ _ Ha0))).
    rewrite (bind_ok _ _ _ _ _ (Adam_ok (parameters c1) _ s6
               (MLP_parameters_nonempty _ _ _ _ _ _ H10))).
    rewrite (bind_ok _ _ _ _ _ (Adam_ok (parameters c2) _ s6
               (MLP_parameters_nonempty _ _ _ _ _ _ H10))).
    rewrite (bind_ok _ _ _ _ _ U1), (bind_ok _ _ _ _ _ U2), (bind_ok _ _ _ _ _ U3).
    reflexivity.
  - apply synced_intro;
      [unfold a, ta, c1, c2, tc1, tc2;
       now rewrite !MLP_layout_parameters_length|].
    intros tp p Hin. apply C1 in Hin as Hcopy.
    apply elem_of_zip_l in Hin as Htp. apply elem_of_zip_r in Hin as Hp.
    destruct (params_ok_present s6 a p Pa) as [data Hdata].
    { unfold a in *. now rewrite MLP_layout_parameters_NoDup in Hp. }
    apply MLP_parameters_bound in Htp, Hp. fold n1 in Hp. fold n2 in Htp.
    split; [lia|]. exists data. split.
    + rewrite O3, O2, Hcopy; [exact Hdata| |]; intros Hq;
        apply MLP_parameters_bound in Hq; fold n5 n6 in Hq; lia.
    + rewrite O3, O2, O1; [exact Hdata| | |]; intros Hq;
        apply MLP_parameters_bound in Hq; fold n2 n5 n6 in Hq; lia.
  - apply synced_intro;
      [unfold a, ta, c1, c2, tc1, tc2;
       now rewrite !MLP_layout_parameters_length|].
    intros tp p Hin. apply C2 in Hin as Hcopy.
    apply elem_of_zip_l in Hin as Htp. apply elem_of_zip_r in Hin as Hp.
    destruct (params_ok_present s6 c1 p Pc1) as [data Hdata].
    { unfold c1 in *. now rewrite MLP_layout_parameters_NoDup in Hp. }
    apply MLP_parameters_bound in Htp, Hp. fold n3 in Hp. fold n5 in Htp.
    split; [lia|]. exists data. split.
    + rewrite O3, Hcopy, O1; [exact Hdata| |]; intros Hq;
        apply MLP_parameters_bound in Hq; fold n2 n6 in Hq; lia.
    + rewrite O3, O2, O1; [exact Hdata| | |]; intros Hq;
        apply MLP_parameters_bound in Hq; fold n2 n5 n6 in Hq; lia.
  - apply synced_intro;
      [unfold a, ta, c1, c2, tc1, tc2;
       now rewrite !MLP_layout_parameters_length|].
    intros tp p Hin. apply C3 in Hin as Hcopy.
    apply elem_of_zip_l in Hin as Htp. apply elem_of_zip_r in Hin as Hp.
    destruct (params_ok_present s6 c2 p Pc2) as [data Hdata].
    { unfold c2 in *. now rewrite MLP_layout_parameters_NoDup in Hp. }
    apply MLP_parameters_bound in Htp, Hp. fold n4 in Hp. fold n6 in Htp.
    split; [lia|]. exists data. split.
    + rewrite Hcopy, O2, O1; [exact Hdata| |]; intros Hq;
        apply MLP_parameters_bound in Hq; fold n2 n5 in Hq; lia.
    + rewrite O3, O2, O1; [exact Hdata| | |]; intros Hq;
        apply MLP_parameters_bound in Hq; fold n2 n5 n6 in Hq; lia.
Qed.

(** No parameter tensor belongs to two of the six networks. *)
Lemma init_model_layout_NoDup n env hp :
  let m := init_model_layout n env hp in
  NoDup (parameters (actor m) ++ parameters (target_actor m) ++
         parameters (critic1 m) ++ parameters (critic2 m) ++
         parameters (target_critic1 m) ++ parameters (target_critic2 m)).
Proof.
  unfold init_model_layout.
  cbn [actor target_actor critic1 critic2 target_critic1 target_critic2].
  change (1 + n)%nat with (S n).
  set (n1 := MLP_end (S n) (actor_hidden_sizes hp) (action_size env)).
  change (1 + n1)%nat with (S n1).
  set (n2 := MLP_end (S n1) (actor_hidden_sizes hp) (action_size env)).
  set (n3 := MLP_end n2 (critic_hidden_sizes hp) 1).
  set (n4 := MLP_end n3 (critic_hidden_sizes hp) 1).
  set (n5 := MLP_end n4 (critic_hidden_sizes hp) 1).
  pose proof (MLP_end_le (S n) (actor_hidden_sizes hp) (action_size env)) as L1.
  pose proof (MLP_end_le (S n1) (actor_hidden_sizes hp) (action_size env)) as L2.
  pose proof (MLP_end_le n2 (critic_hidden_sizes hp) 1) as L3.
  pose proof (MLP_end_le n3 (critic_hidden_sizes hp) 1) as L4.
  pose proof (MLP_end_le n4 (critic_hidden_sizes hp) 1) as L5.
  fold n1 in L1. fold n2 in L2. fold n3 in L3. fold n4 in L4. fold n5 in L5.
  assert (Hnd : forall k i h o oa ha, NoDup (parameters (MLP_layout k i h o oa ha))).
  { intros. apply NoDup_remove_dups. }
  apply (NoDup_app_bounds _ _ n1); [apply Hnd| | |].
  2:{ intros p Hp. apply MLP_parameters_bound in Hp. fold n1 in Hp. lia. }
  2:{ intros p. rewrite !elem_of_app.
      intros [Hp|[Hp|[Hp|[Hp|Hp]]]]; apply MLP_parameters_bound in Hp;
        fold n2 n3 n4 n5 in Hp; lia. }
  apply (NoDup_app_bounds _ _ n2); [apply Hnd| | |].
  2:{ intros p Hp. apply MLP_parameters_bound in Hp. fold n2 in Hp. lia. }
  2:{ intros p. rewrite !elem_of_app.
      intros [Hp|[Hp|[Hp|Hp]]]; apply MLP_parameters_bound in Hp;
        fold n3 n4 n5 in Hp; lia. }
  apply (NoDup_app_bounds _ _ n3); [apply Hnd| | |].
  2:{ intros p Hp. apply MLP_parameters_bound in Hp. fold n3 in Hp. lia. }
  2:{ intros p. rewrite !elem_of_app.
      intros [Hp|[Hp|Hp]]; apply MLP_parameters_bound in Hp;
        fold n4 n5 in Hp; lia. }
  apply (NoDup_app_bounds _ _ n4); [apply Hnd| | |].
  2:{ intros p Hp. apply MLP_parameters_bound in Hp. fold n4 in Hp. lia. }
  2:{ intros p. rewrite !elem_of_app.
      intros [Hp|Hp]; apply MLP_parameters_bound in Hp; fold n5 in Hp; lia. }
  apply (NoDup_app_bounds _ _ n5); [apply Hnd|apply Hnd| |].
  - intros p Hp. apply MLP_parameters_bound in Hp. fold n5 in Hp. lia.
  - intros p Hp. apply MLP_parameters_bound in Hp. lia.
Qed.

Lemma skeleton_MLP_400_300 n input out oa ha :
  out <> 0 -> act_kind ha = ReLU ->
  skeleton (MLP_layout n input [400; 300] out oa ha)
  = MLP_400_300 input out (act_kind oa).
Proof.
  intros Hout Hha. unfold MLP_layout, fcs_layout, output_layout.
  apply Z.eqb_neq in Hout. rewrite Hout. simpl. rewrite Hha. reflexivity.
Qed.

(** ** Forward passes and the state *)

Lemma forward_eta m x st : forward m x st = (fst (forward m x st), st).
Proof.
  rewrite <- (forward_state m x st) at 3. now destruct (forward m x st).
Qed.

Lemma forward_agree m : forall x st st2,
  (forall p, p ∈ own_parameters m -> store st2 !! p = store st !! p) ->
  fst (forward m x st2) = fst (forward m x st).
Proof.
  induction m as [o i out w b|a|cls o mods IH] using Module_ind;
    intros x st st2 Hagree.
  - assert (Hw : store st2 !! w = store st !! w)
      by (apply Hagree; simpl; rewrite !elem_of_cons; auto).
    assert (Hb : store st2 !! b = store st !! b)
      by (apply Hagree; simpl; rewrite !elem_of_cons; auto).
    simpl. munfold. rewrite Hw.
    destruct (store st !! w); [|reflexivity]. rewrite Hb.
    destruct (store st !! b); reflexivity.
  - reflexivity.
  - simpl own_parameters in Hagree. destruct cls; try reflexivity.
    + rewrite !forward_Sequential. revert x.
      induction IH as [|[n c] tl Hc _ IHtl]; intros x; [reflexivity|].
      simpl chain. simpl in Hc. unfold bind.
      rewrite (forward_eta c x st), (forward_eta c x st2).
      rewrite (Hc x st st2).
      2:{ intros p Hp. apply Hagree. simpl. apply elem_of_app. now left. }
      destruct (fst (forward c x st)) as [y|e]; [|reflexivity].
      apply IHtl. intros p Hp. apply Hagree. simpl. apply elem_of_app. now right.
    + rewrite !forward_MLP. unfold call.
      induction IH as [|[n c] tl Hc _ IHtl]; [reflexivity|].
      simpl in Hc. destruct (String.eqb_spec n "fcs") as [->|Hne];
        [rewrite getattr_here|rewrite getattr_next by exact Hne].
      * apply Hc. intros p Hp. apply Hagree. simpl. apply elem_of_app. now left.
      * apply IHtl. intros p Hp. apply Hagree. simpl. apply elem_of_app. now right.
Qed.

Lemma call_state mods name x st : snd (call mods name x st) = st.
Proof.
  unfold call. destruct (getattr mods name); [apply forward_state|reflexivity].
Qed.

Lemma call_inv mods name x st r s :
  call mods name x st = (r, s) -> s = st.
Proof.
  intros H. pose proof (call_state mods name x st) as E. now rewrite H in E.
Qed.

Lemma call_eta mods name x st :
  call mods name x st = (fst (call mods name x st), st).
Proof.
  rewrite <- (call_state mods name x st) at 3.
  now destruct (call mods name x st).
Qed.

(** The forward passes of the heads leave the state unchanged as well. *)
Lemma NormalDistMLP_forward_state m x st :
  snd (NormalDistMLP_forward m x st) = st.
Proof.
  destruct m as [| |[| |share_net std_ones| |] o mods]; try reflexivity.
  unfold NormalDistMLP_forward, bind, ret.
  destruct std_ones; [|destruct share_net];
    repeat (match goal with
            | |- context [call ?l ?n ?y ?s] =>
                rewrite (call_eta l n y s);
                destruct (fst (call l n y s)); try reflexivity
            end).
Qed.

Lemma GaussianDistMLP_forward_state m x st :
  snd (GaussianDistMLP_forward m x st) = st.
Proof.
  destruct m as [| |[| | |share_net lmin lmax|] o mods]; try reflexivity.
  unfold GaussianDistMLP_forward, bind, ret.
  destruct share_net;
    repeat (match goal with
            | |- context [call ?l ?n ?y ?s] =>
                rewrite (call_eta l n y s);
                destruct (fst (call l n y s)); try reflexivity
            end).
Qed.
(** ** The distributions and the call of a network *)

Lemma Normal_init_inv l s d :
  Normal_init l s = Ok d ->
  d = mkNormal l s /\ entries (fun v => (0 < v)%R) s.
Proof.
  unfold Normal_init. case_bool_decide as H; [|discriminate].
  intros [= <-]. auto.
Qed.

Lemma Normal_init_positive l s :
  entries (fun v => (0 < v)%R) s -> Normal_init l s = Ok (mkNormal l s).
Proof.
  intros H. unfold Normal_init. now rewrite bool_decide_eq_true_2.
Qed.

Lemma Normal_init_refused l s :
  ~ entries (fun v => (0 < v)%R) s -> Normal_init l s = Err ValueError.
Proof.
  intros H. unfold Normal_init. now rewrite bool_decide_eq_false_2.
Qed.

Lemma entries_ones_like t : entries (fun v => (0 < v)%R) (ones_like t).
Proof.
  unfold entries, ones_like, map_tensor. cbn [rows].
  apply Forall_forall. intros r Hr.
  apply list_elem_of_In, in_map_iff in Hr as (r' & <- & _).
  apply Forall_forall. intros v Hv.
  apply list_elem_of_In, in_map_iff in Hv as (v' & <- & _). lra.
Qed.

Lemma Normal_init_ones mu :
  Normal_init mu (ones_like mu) = Ok (mkNormal mu (ones_like mu)).
Proof. apply Normal_init_positive, entries_ones_like. Qed.

Lemma Categorical_init_inv p d :
  Categorical_init p = Ok d ->
  probs d = {| ncols := ncols p;
               rows := map (fun r => map (fun v => (v / sum_row r)%R) r)
                           (rows p) |} /\
  Forall simplex_row (rows (probs d)).
Proof.
  unfold Categorical_init. cbv zeta. case_bool_decide as H; [|discriminate].
  intros [= <-]. auto.
Qed.

(** The sub-module calls read the parameters of the sub-module only. *)
Lemma getattr_parameters mods name c p :
  getattr mods name = Some c -> p ∈ own_parameters c ->
  p ∈ flat_map (fun nm => own_parameters (snd nm)) mods.
Proof.
  induction mods as [|[n c'] tl IH]; [discriminate|]. simpl.
  destruct (String.eqb n name).
  - intros [= ->] Hp. apply elem_of_app. now left.
  - intros Hg Hp. apply elem_of_app. right. now apply IH.
Qed.

Lemma call_agree mods name x st st2 :
  (forall p, p ∈ flat_map (fun nm => own_parameters (snd nm)) mods ->
             store st2 !! p = store st !! p) ->
  fst (call mods name x st2) = fst (call mods name x st).
Proof.
  intros Hagree. unfold call.
  destruct (getattr mods name) as [c|] eqn:G; [|reflexivity].
  apply forward_agree. intros p Hp. apply Hagree.
  eapply getattr_parameters; eauto.
Qed.

Lemma NormalDistMLP_forward_agree m x st st2 :
  (forall p, p ∈ own_parameters m -> store st2 !! p = store st !! p) ->
  fst (NormalDistMLP_forward m x st2) = fst (NormalDistMLP_forward m x st).
Proof.
  destruct m as [| |[| |share_net std_ones| |] o mods]; try reflexivity.
  cbn [own_parameters]. intros Hagree.
  unfold NormalDistMLP_forward, bind, ret, lift.
  destruct std_ones; [|destruct share_net];
    repeat (match goal with
            | |- context [call ?l ?n ?y st2] =>
                rewrite (call_eta l n y st2), (call_eta l n y st),
                  (call_agree l n y st st2 Hagree);
                destruct (fst (call l n y st)); try reflexivity
            end).
Qed.

Lemma GaussianDistMLP_forward_agree m x st st2 :
  (forall p, p ∈ own_parameters m -> store st2 !! p = store st !! p) ->
  fst (GaussianDistMLP_forward m x st2) = fst (GaussianDistMLP_forward m x st).
Proof.
  destruct m as [| |[| | |share_net lmin lmax|] o mods]; try reflexivity.
  cbn [own_parameters]. intros Hagree.
  unfold GaussianDistMLP_forward, bind, ret, lift.
  destruct share_net; repeat (match goal with
            | |- context [call ?l ?n ?y st2] =>
                rewrite (call_eta l n y st2), (call_eta l n y st),
                  (call_agree l n y st st2 Hagree);
                destruct (fst (call l n y st)); try reflexivity
            end).
Qed.

Lemma CategoricalMLP_forward_state m x st :
  snd (CategoricalMLP_forward m x st) = st.
Proof.
  destruct m as [| |[| | | |] o mods]; try reflexivity.
  unfold CategoricalMLP_forward, bind, lift.
  rewrite (call_eta mods "fc" x st).
  destruct (fst (call mods "fc" x st)); reflexivity.
Qed.

Lemma CategoricalMLP_forward_agree m x st st2 :
  (forall p, p ∈ own_parameters m -> store st2 !! p = store st !! p) ->
  fst (CategoricalMLP_forward m x st2) = fst (CategoricalMLP_forward m x st).
Proof.
  destruct m as [| |[| | | |] o mods]; try reflexivity.
  cbn [own_parameters]. intros Hagree.
  unfold CategoricalMLP_forward, bind, lift.
  match goal with
            | |- context [call ?l ?n ?y st2] =>
                rewrite (call_eta l n y st2), (call_eta l n y st),
                  (call_agree l n y st st2 Hagree);
                destruct (fst (call l n y st)); try reflexivity
            end.
Qed.

Lemma bind_ret_state {A B} (c : M A) (f : A -> B) st :
  snd (c st) = st -> snd ((a <- c ;; ret (f a)) st) = st.
Proof.
  unfold bind, ret. destruct (c st) as [[a|e] s]; simpl; auto.
Qed.

Lemma bind_ret_agree {A B} (c : M A) (f : A -> B) st st2 :
  snd (c st) = st -> snd (c st2) = st2 -> fst (c st2) = fst (c st) ->
  fst ((a <- c ;; ret (f a)) st2) = fst ((a <- c ;; ret (f a)) st).
Proof.
  unfold bind, ret. destruct (c st) as [[a|e] s], (c st2) as [[a2|e2] s2];
    simpl; intros _ _ E; try discriminate; congruence.
Qed.

(** The call of a network of any class leaves the state as it was, and
    reads the parameters of the network only. *)
Lemma module_call_state m x st : snd (module_call m x st) = st.
Proof.
  destruct m as [o i out w b|a|[| | | |] o mods]; unfold module_call;
    apply bind_ret_state;
    auto using forward_state, NormalDistMLP_forward_state,
      GaussianDistMLP_forward_state, CategoricalMLP_forward_state.
Qed.

Lemma module_call_agree m x st st2 :
  (forall p, p ∈ own_parameters m -> store st2 !! p = store st !! p) ->
  fst (module_call m x st2) = fst (module_call m x st).
Proof.
  intros Hagree.
  destruct m as [o i out w b|a|[| | | |] o mods]; unfold module_call;
    apply bind_ret_agree;
    auto using forward_state, NormalDistMLP_forward_state,
      GaussianDistMLP_forward_state, CategoricalMLP_forward_state,
      forward_agree, NormalDistMLP_forward_agree,
      GaussianDistMLP_forward_agree, CategoricalMLP_forward_agree.
Qed.

Lemma module_call_MLP o mods x st :
  module_call (Container MLP o mods) x st
  = (y <- forward (Container MLP o mods) x ;; ret (OTensor y)) st.
Proof. reflexivity. Qed.

(** * The claims *)

(** ** Output width of a feed-forward network *)

(** C1. For every valid construction of [MLP] (input size positive, every
    hidden size positive, output size non-negative) and every input whose
    trailing dimension is the input size, construction succeeds, the forward
    pass succeeds, and the trailing dimension of its output is the output
    size when that is positive, else the last hidden width, else (no hidden
    layer) the input size.  The batch size is kept and every row of the
    output has that width. *)
Theorem MLP_forward_width (input_size : Z) (hidden_sizes : list Z)
    (output_size : Z) (output_activation hidden_activation : Activation)
    (st : State) (x : Tensor) :
  0 < input_size -> Forall (fun s => 0 < s) hidden_sizes -> 0 <= output_size ->
  wf_tensor x -> ncols x = Z.to_nat input_size ->
  exists net st' y,
    MLP_init input_size hidden_sizes output_size
             output_activation hidden_activation st = (Ok net, st') /\
    forward net x st' = (Ok y, st') /\
    wf_tensor y /\ nrows y = nrows x /\
    Z.of_nat (ncols y)
    = (if 0 <? output_size then output_size
       else default input_size (last hidden_sizes)).
Proof.
  intros Hi Hh Ho Hwf Hx.
  assert (Hh' : Forall (fun s => 0 <= s) hidden_sizes).
  { eapply Forall_impl; [exact Hh|]. simpl. intros; lia. }
  assert (Hs : sizes_ok input_size hidden_sizes output_size).
  { split_and!; [lia|exact Hh'|exact Ho]. }
  destruct (MLP_init_ok _ _ _ output_activation hidden_activation st Hs)
    as (st' & E & _ & _ & _ & P).
  destruct (MLP_forward_ok _ _ _ _ _ _ x st' P Hx Hwf) as (y & F & C & W & R).
  eexists _, st', y. split_and!; [exact E|exact F|exact W|exact R|].
  rewrite C. pose proof (default_last_nonneg input_size hidden_sizes) as Hd.
  destruct (Z.eqb_spec output_size 0) as [->|Hne]; simpl.
  - apply Z2Nat.id, Hd; [lia|exact Hh'].
  - replace (0 <? output_size) with true by lia. lia.
Qed.

Lemma MLP_forward_width_witness :
  exists net st' y,
    MLP_init 4 [8] 2 Defaults.MLP_output_activation
             Defaults.MLP_hidden_activation st0 = (Ok net, st') /\
    forward net batch34 st' = (Ok y, st') /\
    wf_tensor y /\ nrows y = nrows batch34 /\
    Z.of_nat (ncols y) = (if 0 <? 2 then 2 else default 4 (last [8])).
Proof.
  apply (MLP_forward_width 4 [8] 2).
  - lia.
  - repeat constructor.
  - lia.
  - repeat constructor.
  - reflexivity.
Defined.

(** The end-to-end scenarios of the specification: widths 2 and 4. *)
Example MLP_forward_width_scenarios :
  (exists net st' y,
     MLP_init 4 [8] 2 Defaults.MLP_output_activation
              Defaults.MLP_hidden_activation st0 = (Ok net, st') /\
     forward net batch34 st' = (Ok y, st') /\ ncols y = 2%nat /\ nrows y = 3%nat) /\
  (exists net st' y,
     MLP_init 4 [] 0 Defaults.MLP_output_activation
              Defaults.MLP_hidden_activation st0 = (Ok net, st') /\
     forward net batch34 st' = (Ok y, st') /\ y = batch34).
Proof.
  assert (Hs1 : sizes_ok 4 [8] 2) by (split_and!; [lia|repeat constructor; lia|lia]).
  assert (Hs2 : sizes_ok 4 [] 0) by (split_and!; [lia|constructor|lia]).
  split.
  - destruct (MLP_init_ok 4 [8] 2 Defaults.MLP_output_activation
                Defaults.MLP_hidden_activation st0 Hs1) as (st' & E & _ & _ & _ & P).
    destruct (MLP_forward_ok _ _ _ _ _ _ batch34 st' P eq_refl)
      as (y & F & C & _ & R); [repeat constructor|].
    eexists _, st', y. split_and!; [exact E|exact F|exact C|exact R].
  - destruct (MLP_init_ok 4 [] 0 Defaults.MLP_output_activation
                Defaults.MLP_hidden_activation st0 Hs2) as (st' & E & _).
    eexists _, st', batch34. split_and!; [exact E|reflexivity|reflexivity].
Qed.
(** ** The scale of the bounded Gaussian head *)




(** ** Sizes the constructor refuses *)

(** C3, as the code has it.  [MLP.__init__] validates nothing itself; the
    only failure is the [RuntimeError] of [nn.Linear] asked for a tensor of
    negative size.  Constructing an [MLP] with a negative output size, with
    any negative hidden size, or with a negative input size when at least
    one affine layer is built (some hidden size, or a non-zero output size)
    fails with that error, and no network is returned. *)
Theorem MLP_init_negative_size (input_size : Z) (hidden_sizes : list Z)
    (output_size : Z) (output_activation hidden_activation : Activation)
    (st : State) :
  output_size < 0 \/ Exists (fun s => s < 0) hidden_sizes \/
  (input_size < 0 /\ (hidden_sizes <> [] \/ output_size <> 0)) ->
  fst (MLP_init input_size hidden_sizes output_size
                output_activation hidden_activation st) = Err RuntimeError.
Proof.
  intros H. unfold MLP_init. apply bind_fst_err, MLP_build_err. tauto.
Qed.

Lemma MLP_init_negative_size_witness :
  fst (MLP_init 4 [8] (-1) Defaults.MLP_output_activation
                Defaults.MLP_hidden_activation st0) = Err RuntimeError.
Proof.
  apply (MLP_init_negative_size 4 [8] (-1)). left. lia.
Defined.

(** C3 as stated fails: a negative input size is accepted when no layer is
    built, and a hidden size of zero is accepted. *)
Lemma MLP_init_accepts_negative_input :
  (-3 < 0 /\
   fst (MLP_init (-3) [] 0 Defaults.MLP_output_activation
                 Defaults.MLP_hidden_activation st0)
   = Ok (Container MLP 10 [("fcs", Container Sequential 11 [])])) /\
  (exists net,
     fst (MLP_init 4 [0] 0 Defaults.MLP_output_activation
                   Defaults.MLP_hidden_activation st0) = Ok net).
Proof.
  split.
  - split; [lia|]. vm_compute. reflexivity.
  - assert (Hs : sizes_ok 4 [0] 0) by (split_and!; [lia|repeat constructor; lia|lia]).
    destruct (MLP_init_ok 4 [0] 0 Defaults.MLP_output_activation
                Defaults.MLP_hidden_activation st0 Hs) as (st' & E & _).
    eexists. rewrite E. reflexivity.
Qed.

(** ** The weight initializer *)

Lemma apply_init_store m s :
  exists s', apply init_linear_weights_xavier m s = (Ok tt, s') /\
    visits s' = visits s ++ map oid_of (visit_order m) /\
    forall p, (forall o i out b, Linear o i out p b ∉ linears m) ->
              store s' !! p = store s !! p.
Proof.
  destruct (apply_init_ok m s) as (s' & E & V & _ & _ & S).
  exists s'. split_and!; [exact E|exact V|].
  intros p Hp. destruct (S p) as [H|(o & i & out & b & W & Hin & _)];
    [exact H|]. now apply Hp in Hin.
Qed.

Lemma bias_not_weight m o i out w b :
  NoDup (own_parameters m) -> Linear o i out w b ∈ linears m ->
  forall o' i' out' b', Linear o' i' out' b b' ∉ linears m.
Proof.
  rewrite own_parameters_linears. intros Hnd Hl o' i' out' b' Hl'.
  assert (E : Linear o i out w b = Linear o' i' out' b b').
  { eapply (NoDup_flat_map_inj own_parameters _ _ _ b Hnd Hl Hl');
      simpl; rewrite !elem_of_cons; auto. }
  injection E as -> -> -> -> ->.
  assert (Hnd' : NoDup (own_parameters (Linear o' i' out' b' b'))).
  { clear -Hnd Hl. induction (linears m) as [|z l IH]; simpl in *.
    - now apply elem_of_nil in Hl.
    - apply NoDup_app in Hnd as (Hz & _ & Hnd).
      apply elem_of_cons in Hl as [<-|Hl]; auto. }
  simpl in Hnd'. apply NoDup_cons in Hnd' as [Hnd' _].
  apply Hnd'. apply list_elem_of_singleton. reflexivity.
Qed.

(** C4, as the code has it.  Every constructor ends with one traversal of
    the module it has built, and that traversal calls the initializer
    exactly once on every affine layer of the module, whatever the nesting
    depth.  For an [MLP] this is the only call: each affine weight is
    re-initialized exactly once, and each bias still holds the tensor it had
    before the traversal.  The constructors of the heads build their
    [MLP] sub-networks with [MLP.__init__], which has run its own traversal
    already: the affine layers of these sub-networks have been initialized
    once before the traversal of the head, the projection layers of a shared
    trunk have not.  A traversal overwrites nothing but the weights of the
    affine layers of the module: biases keep their tensors, and other
    modules have no tensor. *)
Theorem initializer_traversal (input_size : Z) (hidden_sizes : list Z)
    (output_size : Z) (mu_activation sigma_activation hidden_activation : Activation)
    (share_net std_ones : bool) (log_std_min log_std_max : R) (st : State) :
  valid_sizes input_size hidden_sizes output_size ->
  (act_oid mu_activation < next_oid st)%nat ->
  (act_oid sigma_activation < next_oid st)%nat ->
  (act_oid hidden_activation < next_oid st)%nat ->
  (exists net built st' trace,
     MLP_build input_size hidden_sizes output_size mu_activation
               hidden_activation st = (Ok net, built) /\
     MLP_init input_size hidden_sizes output_size mu_activation
              hidden_activation st = (Ok net, st') /\
     visits st' = visits st ++ trace /\
     (forall l, l ∈ linears net -> calls_on (oid_of l) trace = 1%nat) /\
     (forall o i out w b, Linear o i out w b ∈ linears net ->
                          store st' !! b = store built !! b)) /\
  traversed_once
    (NormalDistMLP_init input_size hidden_sizes output_size mu_activation
       sigma_activation hidden_activation share_net std_ones) st /\
  traversed_once
    (GaussianDistMLP_init input_size hidden_sizes output_size mu_activation
       sigma_activation hidden_activation share_net log_std_min log_std_max) st /\
  traversed_once
    (CategoricalMLP_init input_size output_size hidden_sizes mu_activation
       hidden_activation) st /\
  (forall m s,
     exists s', apply init_linear_weights_xavier m s = (Ok tt, s') /\
       visits s' = visits s ++ map oid_of (visit_order m) /\
       forall p, (forall o i out b, Linear o i out p b ∉ linears m) ->
                 store s' !! p = store s !! p).
Proof.
  intros Hs Hmu Hsig Hha. apply valid_sizes_ok in Hs. split_and!.
  - destruct (MLP_build_ok _ _ _ mu_activation hidden_activation st Hs)
      as (built & E1 & _ & V1 & _).
    destruct (apply_init_store
                (MLP_layout (next_oid st) input_size hidden_sizes output_size
                            mu_activation hidden_activation) built)
      as (st' & E & V & S).
    eexists _, built, st', _. split_and!.
    + exact E1.
    + unfold MLP_init. rewrite (bind_ok _ _ _ _ _ E1), (bind_ok _ _ _ _ _ E).
      reflexivity.
    + rewrite V, V1. reflexivity.
    + intros l Hl. apply visit_once; [|exact Hl]. now apply MLP_layout_wf.
    + intros o i out w b Hl. apply S. eapply bias_not_weight; [|exact Hl].
      rewrite MLP_layout_parameters. apply param_ids_NoDup.
  - destruct (NormalDistMLP_init_ok _ _ _ mu_activation sigma_activation
                hidden_activation share_net std_ones st Hs)
      as (st' & E & _ & _ & V).
    destruct (NormalDistMLP_layout_calls (NormalDistMLP share_net std_ones)
                (next_oid st) input_size hidden_sizes output_size
                mu_activation sigma_activation hidden_activation
                share_net std_ones Hmu Hsig Hha) as (Hwf & H1 & H0).
    eexists _, st', _. split_and!; [exact E|exact V| |exact H1|exact H0].
    intros l Hl. now apply visit_once.
  - destruct (GaussianDistMLP_init_ok _ _ _ mu_activation sigma_activation
                hidden_activation share_net log_std_min log_std_max st Hs)
      as (st' & E & _ & _ & V).
    destruct (NormalDistMLP_layout_calls
                (GaussianDistMLP share_net log_std_min log_std_max)
                (next_oid st) input_size hidden_sizes output_size
                mu_activation sigma_activation hidden_activation
                share_net false Hmu Hsig Hha) as (Hwf & H1 & H0).
    eexists _, st', _. split_and!; [exact E|exact V| |exact H1|exact H0].
    intros l Hl. now apply visit_once.
  - destruct (CategoricalMLP_init_ok input_size output_size hidden_sizes
                mu_activation hidden_activation st Hs)
      as (st' & E & _ & _ & V).
    destruct (single_child_calls CategoricalMLP (next_oid st) "fc" input_size
                hidden_sizes output_size mu_activation hidden_activation
                Hmu Hha) as (Hwf & H1 & H0).
    eexists _, st', _. split_and!; [exact E|exact V| |exact H1|exact H0].
    intros l Hl. now apply visit_once.
  - apply apply_init_store.
Qed.

Lemma initializer_traversal_witness :
  exists net built st' trace,
    MLP_build 4 [8] 2 Defaults.Normal_mu_activation
              Defaults.Normal_hidden_activation st0 = (Ok net, built) /\
    MLP_init 4 [8] 2 Defaults.Normal_mu_activation
             Defaults.Normal_hidden_activation st0 = (Ok net, st') /\
    visits st' = visits st0 ++ trace /\
    (forall l, l ∈ linears net -> calls_on (oid_of l) trace = 1%nat) /\
    (forall o i out w b, Linear o i out w b ∈ linears net ->
                         store st' !! b = store built !! b).
Proof.
  destruct (initializer_traversal 4 [8] 2 Defaults.Normal_mu_activation
              Defaults.Normal_sigma_activation Defaults.Normal_hidden_activation
              true true Defaults.log_std_min Defaults.log_std_max st0)
    as (H & _).
  - split_and!; [lia|repeat constructor; lia|lia].
  - vm_compute. lia.
  - vm_compute. lia.
  - vm_compute. lia.
  - exact H.
Defined.

(** C4 as stated fails for the heads: the affine layers of the [MLP] inside
    a [NormalDistMLP] are initialized twice during the construction of the
    head, by [MLP.__init__] and by [NormalDistMLP.__init__]. *)
Lemma NormalDistMLP_initializes_twice :
  exists head st',
    NormalDistMLP_init 4 [8] 2 Defaults.Normal_mu_activation
      Defaults.Normal_sigma_activation Defaults.Normal_hidden_activation
      true true st0 = (Ok head, st') /\
    linears head = [Linear 13 4 8 14 15; Linear 16 8 2 17 18] /\
    visits st' = [13; 4; 16; 2; 12; 11; 13; 4; 16; 2; 12; 11; 10]%nat /\
    calls_on 13 (visits st') = 2%nat /\ calls_on 16 (visits st') = 2%nat.
Proof.
  assert (Hs : sizes_ok 4 [8] 2) by (split_and!; [lia|repeat constructor; lia|lia]).
  destruct (NormalDistMLP_init_ok 4 [8] 2 Defaults.Normal_mu_activation
              Defaults.Normal_sigma_activation Defaults.Normal_hidden_activation
              true true st0 Hs) as (st' & E & _ & _ & V).
  assert (V' : visits st' = [13; 4; 16; 2; 12; 11; 13; 4; 16; 2; 12; 11; 10]%nat).
  { rewrite V. vm_compute. reflexivity. }
  eexists _, st'. split_and!; [exact E|vm_compute; reflexivity|exact V'|..];
    rewrite V'; reflexivity.
Qed.

(** ** The Normal head with unit scale *)

(** C5. A [NormalDistMLP] constructed with [std_ones = True] holds a single
    sub-module, the network of the mean: no sigma branch and no trunk are
    built, so its parameters are those of the mean network.  Whenever its
    forward pass returns a distribution, the scale is [ones_like] of the
    mean: a tensor of ones of the shape of the mean.  On an input of the
    declared width the forward pass does return. *)
Theorem NormalDistMLP_std_ones (input_size : Z) (hidden_sizes : list Z)
    (output_size : Z) (mu_activation sigma_activation hidden_activation : Activation)
    (share_net : bool) (st : State) (x : Tensor) :
  valid_sizes input_size hidden_sizes output_size ->
  wf_tensor x -> ncols x = Z.to_nat input_size ->
  exists head st' mu_net mu,
    NormalDistMLP_init input_size hidden_sizes output_size mu_activation
      sigma_activation hidden_activation share_net true st = (Ok head, st') /\
    modules_of head = [("mu", mu_net)] /\
    parameters head = parameters mu_net /\
    forward mu_net x st' = (Ok mu, st') /\
    NormalDistMLP_forward head x st'
    = (Ok {| loc := mu; scale := ones_like mu |}, st') /\
    (forall x' st1 d st2,
       NormalDistMLP_forward head x' st1 = (Ok d, st2) ->
       scale d = ones_like (loc d) /\
       ncols (scale d) = ncols (loc d) /\
       Forall2 (fun r1 r => length r1 = length r /\ Forall (fun v => v = 1%R) r1)
               (rows (scale d)) (rows (loc d))).
Proof.
  intros Hs Hwf Hx. apply valid_sizes_ok in Hs.
  destruct (NormalDistMLP_init_ok _ _ _ mu_activation sigma_activation
              hidden_activation share_net true st Hs) as (st' & E & _ & P & _).
  unfold NormalDistMLP_layout in E, P.
  set (mu_net := MLP_layout (S (next_oid st)) input_size hidden_sizes
                   output_size mu_activation hidden_activation) in *.
  assert (Pmu : params_ok st' mu_net).
  { eapply (params_ok_child _ _ _ _ "mu"); [exact P|]. apply elem_of_cons. now left. }
  destruct (MLP_forward_ok _ _ _ _ _ _ x st' Pmu Hx Hwf) as (mu & F & _).
  eexists _, st', mu_net, mu. split_and!.
  - exact E.
  - reflexivity.
  - unfold parameters. cbn [own_parameters flat_map snd].
    now rewrite app_nil_r.
  - exact F.
  - unfold NormalDistMLP_forward, call. rewrite getattr_here.
    rewrite (bind_ok _ _ _ _ _ F). unfold lift.
    now rewrite Normal_init_ones.
  - intros x' st1 d st2. unfold NormalDistMLP_forward, bind.
    destruct (call _ "mu" x' st1) as [[m|e] s]; [|discriminate].
    unfold lift. intros [= Hd <-].
    apply Normal_init_inv in Hd as [-> _]. simpl.
    split; [reflexivity|apply ones_like_shape].
Qed.

Lemma NormalDistMLP_std_ones_witness :
  exists head st' mu_net mu,
    NormalDistMLP_init 4 [8] 2 Defaults.Normal_mu_activation
      Defaults.Normal_sigma_activation Defaults.Normal_hidden_activation
      true true st0 = (Ok head, st') /\
    modules_of head = [("mu", mu_net)] /\
    parameters head = parameters mu_net /\
    forward mu_net batch34 st' = (Ok mu, st') /\
    NormalDistMLP_forward head batch34 st'
    = (Ok {| loc := mu; scale := ones_like mu |}, st') /\
    (forall x' st1 d st2,
       NormalDistMLP_forward head x' st1 = (Ok d, st2) ->
       scale d = ones_like (loc d) /\
       ncols (scale d) = ncols (loc d) /\
       Forall2 (fun r1 r => length r1 = length r /\ Forall (fun v => v = 1%R) r1)
               (rows (scale d)) (rows (loc d))).
Proof.
  apply (NormalDistMLP_std_ones 4 [8] 2).
  - split_and!; [lia|repeat constructor; lia|lia].
  - repeat constructor.
  - reflexivity.
Defined.

(** ** The experiment assembly *)

(** C6.  When [init_model] returns, every parameter tensor of each target
    network holds the same data as the corresponding parameter tensor of its
    live network, and is another tensor: writing to a live parameter leaves
    the target parameter as it is, and the other way round.  For a valid
    environment and valid hidden sizes [init_model] does return. *)
Theorem target_networks_synced (env : Env) (hyperparams : Hyperparams)
    (st : State) :
  0 < state_size env -> 0 < action_size env -> hyperparams_ok hyperparams ->
  exists models st',
    init_model env hyperparams st = (Ok models, st') /\
    parameters (actor models) <> [] /\
    parameters (critic1 models) <> [] /\
    parameters (critic2 models) <> [] /\
    synced st' (actor models) (target_actor models) /\
    synced st' (critic1 models) (target_critic1 models) /\
    synced st' (critic2 models) (target_critic2 models).
Proof.
  intros Hs Ha Hhp.
  destruct (init_model_ok env hyperparams st Hs Ha Hhp) as (st' & E & S1 & S2 & S3).
  eexists _, st'. split_and!; [exact E|..|exact S1|exact S2|exact S3];
    apply MLP_parameters_nonempty; lia.
Qed.

Lemma target_networks_synced_witness :
  exists models st',
    init_model BipedalWalker init_hyperparams st0 = (Ok models, st') /\
    parameters (actor models) <> [] /\
    parameters (critic1 models) <> [] /\
    parameters (critic2 models) <> [] /\
    synced st' (actor models) (target_actor models) /\
    synced st' (critic1 models) (target_critic1 models) /\
    synced st' (critic2 models) (target_critic2 models).
Proof.
  apply (target_networks_synced BipedalWalker init_hyperparams st0).
  - simpl. lia.
  - simpl. lia.
  - split; simpl; repeat constructor; lia.
Defined.

(** C7.  For an environment with positive sizes, [init_model] called with
    the hyperparameters of the project builds: an actor, an [MLP] from the
    state size through hidden layers of 400 and 300 units to the action
    size, with [tanh] as output activation; a target actor of the same
    structure; two critics, each an [MLP] from state size plus action size
    through hidden layers of 400 and 300 units to one output, with the
    identity as output activation; two target critics of that structure;
    and three optimizers, which hold exactly the parameters of the actor, of
    the first critic and of the second critic.  No parameter tensor belongs
    to two of the six networks, so no optimizer holds a parameter of another
    network or of a target network. *)
Theorem init_model_structure (env : Env) (st : State) :
  0 < state_size env -> 0 < action_size env ->
  exists models st',
    init_model env init_hyperparams st = (Ok models, st') /\
    skeleton (actor models)
    = MLP_400_300 (state_size env) (action_size env) Tanh /\
    skeleton (target_actor models) = skeleton (actor models) /\
    skeleton (critic1 models)
    = MLP_400_300 (state_size env + action_size env) 1 Identity /\
    skeleton (critic2 models) = skeleton (critic1 models) /\
    skeleton (target_critic1 models) = skeleton (critic1 models) /\
    skeleton (target_critic2 models) = skeleton (critic2 models) /\
    param_group (actor_optim models) = parameters (actor models) /\
    param_group (critic_optim1 models) = parameters (critic1 models) /\
    param_group (critic_optim2 models) = parameters (critic2 models) /\
    lr (actor_optim models) = actor_lr init_hyperparams /\
    lr (critic_optim1 models) = critic_lr init_hyperparams /\
    lr (critic_optim2 models) = critic_lr init_hyperparams /\
    NoDup (parameters (actor models) ++ parameters (target_actor models) ++
           parameters (critic1 models) ++ parameters (critic2 models) ++
           parameters (target_critic1 models) ++
           parameters (target_critic2 models)).
Proof.
  intros Hs Ha.
  assert (Hhp : hyperparams_ok init_hyperparams).
  { split; simpl; repeat constructor; lia. }
  destruct (init_model_ok env init_hyperparams st Hs Ha Hhp)
    as (st' & E & _).
  eexists _, st'. split; [exact E|].
  assert (Ha0 : action_size env <> 0) by lia.
  assert (H10 : 1 <> 0) by lia.
  unfold init_model_layout.
  cbn [actor target_actor critic1 critic2 target_critic1 target_critic2
       actor_optim critic_optim1 critic_optim2 param_group lr
       actor_hidden_sizes critic_hidden_sizes init_hyperparams].
  rewrite !skeleton_MLP_400_300 by (assumption || reflexivity).
  split_and!; try reflexivity.
  apply (init_model_layout_NoDup (next_oid st) env init_hyperparams).
Qed.

Lemma init_model_structure_witness :
  exists models st',
    init_model BipedalWalker init_hyperparams st0 = (Ok models, st') /\
    skeleton (actor models) = MLP_400_300 24 4 Tanh /\
    skeleton (critic1 models) = MLP_400_300 28 1 Identity /\
    param_group (actor_optim models) = parameters (actor models).
Proof.
  destruct (init_model_structure BipedalWalker st0)
    as (models & st' & E & Sa & _ & Sc & _ & _ & _ & Oa & _).
  - simpl. lia.
  - simpl. lia.
  - exists models, st'. split_and!; [exact E|exact Sa|exact Sc|exact Oa].
Defined.
(** ** The Normal head with a learned scale *)

(** C8. For a [NormalDistMLP] constructed with [std_ones = False] the head
    applies nothing after the sigma branch.  Whatever the weights are, on
    an input of the declared width the forward pass hands to [Normal] the
    output of the mean branch and the output of the sigma branch on the
    input of that branch (the output of the trunk when the trunk is shared,
    the input itself otherwise), and its outcome is the outcome of that
    constructor: the distribution, or a [ValueError] when an entry of the
    scale is not positive.  Whenever the forward pass returns a
    distribution, on any input and in any state, its scale is exactly what
    the sigma branch returns, and the state is unchanged. *)
Theorem NormalDistMLP_scale_is_sigma_branch (input_size : Z)
    (hidden_sizes : list Z) (output_size : Z)
    (mu_activation sigma_activation hidden_activation : Activation)
    (share_net : bool) (st : State) :
  valid_sizes input_size hidden_sizes output_size ->
  exists head st' sigma_net,
    NormalDistMLP_init input_size hidden_sizes output_size mu_activation
      sigma_activation hidden_activation share_net false st = (Ok head, st') /\
    getattr (modules_of head) "sigma" = Some sigma_net /\
    params_ok st' head /\
    (forall st1 x,
       params_ok st1 head -> wf_tensor x -> ncols x = Z.to_nat input_size ->
       exists h mu sigma,
         (if share_net
          then call (modules_of head) "hidden_layer" x st1 = (Ok h, st1)
          else h = x) /\
         call (modules_of head) "mu" h st1 = (Ok mu, st1) /\
         forward sigma_net h st1 = (Ok sigma, st1) /\
         NormalDistMLP_forward head x st1 = (Normal_init mu sigma, st1)) /\
    (forall x st1 d st2,
       NormalDistMLP_forward head x st1 = (Ok d, st2) ->
       st2 = st1 /\
       entries (fun v => (0 < v)%R) (scale d) /\
       exists h,
         (if share_net
          then call (modules_of head) "hidden_layer" x st1 = (Ok h, st1)
          else h = x) /\
         forward sigma_net h st1 = (Ok (scale d), st1)).
Proof.
  intros Hs. apply valid_sizes_ok in Hs.
  destruct (NormalDistMLP_init_ok _ _ _ mu_activation sigma_activation
              hidden_activation share_net false st Hs) as (st' & E & _ & P & _).
  unfold NormalDistMLP_layout in E, P.
  destruct share_net.
  - eexists _, st', _. split_and!.
    + exact E.
    + reflexivity.
    + exact P.
    + intros st1 x P1 Hwf Hx.
      destruct (shared_forward_ok (S (next_oid st)) input_size hidden_sizes
                  output_size mu_activation sigma_activation hidden_activation
                  st1 x P1 Hx Hwf)
        as (h & zmu & zsig & Fh & _ & _ & Fmu & Fsig & _).
      eexists h, _, _. split_and!; [exact Fh|exact Fmu|exact Fsig|].
      unfold NormalDistMLP_forward.
      rewrite (bind_ok _ _ _ _ _ Fh), (bind_ok _ _ _ _ _ Fmu),
        (bind_ok _ _ _ _ _ Fsig). reflexivity.
    + intros x st1 d st2. unfold NormalDistMLP_forward, bind.
      destruct (call _ "hidden_layer" x st1) as [[h'|e] s0] eqn:Eh;
        [|discriminate].
      apply call_inv in Eh as Hs0. subst s0.
      rewrite (call_eta _ "mu" h' st1).
      destruct (fst (call _ "mu" h' st1)) as [mu|e]; [|discriminate].
      destruct (call _ "sigma" h' st1) as [[sigma|e] s] eqn:Esig; [|discriminate].
      apply call_inv in Esig as Hs1. subst s.
      unfold lift. intros [= Hd <-].
      apply Normal_init_inv in Hd as [-> Hpos]. cbn [scale].
      split_and!; [reflexivity|exact Hpos|].
      exists h'. split; [reflexivity|exact Esig].
  - eexists _, st', _. split_and!.
    + exact E.
    + reflexivity.
    + exact P.
    + intros st1 x P1 Hwf Hx.
      destruct (separate_forward_ok (S (next_oid st)) input_size hidden_sizes
                  output_size mu_activation sigma_activation hidden_activation
                  st1 x P1 Hx Hwf)
        as (mu & sigma & Fmu & Fsig & Fnet).
      exists x, mu, sigma. split_and!; [reflexivity|exact Fmu|exact Fnet|].
      unfold NormalDistMLP_forward.
      rewrite (bind_ok _ _ _ _ _ Fmu), (bind_ok _ _ _ _ _ Fsig). reflexivity.
    + intros x st1 d st2. unfold NormalDistMLP_forward, bind.
      rewrite (call_eta _ "mu" x st1).
      destruct (fst (call _ "mu" x st1)) as [mu'|e]; [|discriminate].
      destruct (call _ "sigma" x st1) as [[sigma'|e] s] eqn:Esig; [|discriminate].
      apply call_inv in Esig as Hs1. subst s.
      unfold lift. intros [= Hd <-].
      apply Normal_init_inv in Hd as [-> Hpos]. cbn [scale].
      split_and!; [reflexivity|exact Hpos|].
      exists x. split; [reflexivity|exact Esig].
Qed.

Lemma NormalDistMLP_scale_is_sigma_branch_witness :
  exists head st' sigma_net,
    NormalDistMLP_init 4 [8] 2 Defaults.Normal_mu_activation
      Defaults.Normal_sigma_activation Defaults.Normal_hidden_activation
      true false st0 = (Ok head, st') /\
    getattr (modules_of head) "sigma" = Some sigma_net /\
    params_ok st' head /\
    (forall st1 x,
       params_ok st1 head -> wf_tensor x -> ncols x = Z.to_nat 4 ->
       exists h mu sigma,
         (if true
          then call (modules_of head) "hidden_layer" x st1 = (Ok h, st1)
          else h = x) /\
         call (modules_of head) "mu" h st1 = (Ok mu, st1) /\
         forward sigma_net h st1 = (Ok sigma, st1) /\
         NormalDistMLP_forward head x st1 = (Normal_init mu sigma, st1)) /\
    (forall x st1 d st2,
       NormalDistMLP_forward head x st1 = (Ok d, st2) ->
       st2 = st1 /\
       entries (fun v => (0 < v)%R) (scale d) /\
       exists h,
         (if true
          then call (modules_of head) "hidden_layer" x st1 = (Ok h, st1)
          else h = x) /\
         forward sigma_net h st1 = (Ok (scale d), st1)).
Proof.
  apply (NormalDistMLP_scale_is_sigma_branch 4 [8] 2).
  split_and!; [lia|repeat constructor; lia|lia].
Defined.
(** ** Purity of the forward pass *)

(** C9. The call of a network, of any of the four classes, is a pure
    function of its weights and of the input: it returns the state it was
    given, unchanged, and in two states that hold the same tensors for the
    parameters of the network it has the same outcome on the same input
    (the same output, or the same exception). *)
Theorem forward_pure (net : Module) (x : Tensor) (st st2 : State) :
  (forall p, p ∈ parameters net -> store st2 !! p = store st !! p) ->
  snd (module_call net x st) = st /\
  snd (module_call net x st2) = st2 /\
  fst (module_call net x st2) = fst (module_call net x st).
Proof.
  intros Hagree. split_and!; [apply module_call_state..|].
  apply module_call_agree. intros p Hp. apply Hagree.
  unfold parameters. now apply elem_of_remove_dups.
Qed.

Lemma forward_pure_witness :
  exists net st' y,
    MLP_init 4 [8] 2 Defaults.MLP_output_activation
      Defaults.MLP_hidden_activation st0 = (Ok net, st') /\
    (forall p, p ∈ parameters net ->
       store (snd (write 99 batch34 st')) !! p = store st' !! p) /\
    store (snd (write 99 batch34 st')) !! 99%nat = Some batch34 /\
    module_call net batch34 st' = (Ok (OTensor y), st') /\
    module_call net batch34 (snd (write 99 batch34 st'))
    = (Ok (OTensor y), snd (write 99 batch34 st')).
Proof.
  assert (Hs : sizes_ok 4 [8] 2)
    by (split_and!; [lia|repeat constructor; lia|lia]).
  destruct (MLP_init_ok 4 [8] 2 Defaults.MLP_output_activation
              Defaults.MLP_hidden_activation st0 Hs)
    as (st' & E & N & _ & G & P).
  set (net := MLP_layout (next_oid st0) 4 [8] 2 Defaults.MLP_output_activation
                Defaults.MLP_hidden_activation) in *.
  destruct (MLP_forward_ok _ _ _ _ _ _ batch34 st' P eq_refl
              ltac:(repeat constructor)) as (y & F & _).
  assert (Hagree : forall p, p ∈ parameters net ->
            store (snd (write 99 batch34 st')) !! p = store st' !! p).
  { intros p Hp. unfold parameters in Hp. rewrite elem_of_remove_dups in Hp.
    apply MLP_layout_parameters_bound in Hp. cbv in Hp.
    cbn [write snd store]. apply lookup_insert_ne. lia. }
  assert (Hcall : module_call net batch34 st' = (Ok (OTensor y), st')).
  { unfold net, MLP_layout. rewrite module_call_MLP.
    unfold net, MLP_layout in F. now rewrite (bind_ok _ _ _ _ _ F). }
  destruct (forward_pure net batch34 st' (snd (write 99 batch34 st')) Hagree)
    as (_ & S2 & F2).
  exists net, st', y. split_and!.
  - exact E.
  - exact Hagree.
  - cbn [write snd store]. apply lookup_insert_eq.
  - exact Hcall.
  - rewrite Hcall in F2. cbn [fst] in F2.
    destruct (module_call net batch34 (snd (write 99 batch34 st')))
      as [r s]. cbn [fst snd] in F2, S2. now rewrite F2, S2.
Defined.

(** ** Shared trunk without hidden layers *)

(** C10, as the code has it.  A [GaussianDistMLP], or a [NormalDistMLP]
    with [std_ones = False], constructed with [share_net = True] and no
    hidden sizes has an empty trunk (its forward pass returns its input) and
    two branches, each an affine layer from the input size to the output
    size followed by its activation; the forward pass applies both branches
    to the raw input and hands the two results to [Normal] (the bounded
    head maps the second one through [get_std] first), whose constructor
    returns the distribution or refuses a scale that is not positive. *)
Theorem shared_head_without_hidden_layers (input_size output_size : Z)
    (mu_activation sigma_activation hidden_activation : Activation)
    (log_std_min log_std_max : R) (st : State) (x : Tensor) :
  0 < input_size -> 0 <= output_size ->
  wf_tensor x -> ncols x = Z.to_nat input_size ->
  let n := next_oid st in
  let trunk := Container MLP (1 + n) [("fcs", Container Sequential (2 + n) [])] in
  let mu_fc := Linear (3 + n) input_size output_size (4 + n) (5 + n) in
  let sigma_fc := Linear (7 + n) input_size output_size (8 + n) (9 + n) in
  let mods :=
    [("hidden_layer", trunk);
     ("mu", Container Sequential (6 + n)
              [("0", mu_fc); ("1", Act mu_activation)]);
     ("sigma", Container Sequential (10 + n)
                 [("0", sigma_fc); ("1", Act sigma_activation)])] in
  (forall y s, forward trunk y s = (Ok y, s)) /\
  (exists st' mu sigma,
     NormalDistMLP_init input_size [] output_size mu_activation
       sigma_activation hidden_activation true false st
     = (Ok (Container (NormalDistMLP true false) n mods), st') /\
     forward mu_fc x st' = (Ok mu, st') /\
     forward sigma_fc x st' = (Ok sigma, st') /\
     NormalDistMLP_forward (Container (NormalDistMLP true false) n mods) x st'
     = (Normal_init (act_forward (act_kind mu_activation) mu)
                    (act_forward (act_kind sigma_activation) sigma), st')) /\
  (exists st' mu sigma,
     GaussianDistMLP_init input_size [] output_size mu_activation
       sigma_activation hidden_activation true log_std_min log_std_max st
     = (Ok (Container (GaussianDistMLP true log_std_min log_std_max) n mods), st') /\
     forward mu_fc x st' = (Ok mu, st') /\
     forward sigma_fc x st' = (Ok sigma, st') /\
     GaussianDistMLP_forward
       (Container (GaussianDistMLP true log_std_min log_std_max) n mods) x st'
     = (Normal_init (act_forward (act_kind mu_activation) mu)
                    (map_tensor (get_std log_std_min log_std_max)
                       (act_forward (act_kind sigma_activation) sigma)), st')).
Proof.
  intros Hi Ho Hwf Hx n trunk mu_fc sigma_fc mods.
  assert (Hs : sizes_ok input_size [] output_size)
    by (split_and!; [lia|constructor|exact Ho]).
  assert (Hl : shared_layout (S n) input_size [] output_size mu_activation
                 sigma_activation hidden_activation = mods) by reflexivity.
  split_and!.
  - intros y s. reflexivity.
  - destruct (NormalDistMLP_init_ok _ _ _ mu_activation sigma_activation
                hidden_activation true false st Hs) as (st' & E & _ & P & _).
    unfold NormalDistMLP_layout in E, P. unfold params_ok in P.
    cbn [linears] in P.
    destruct (shared_forward_ok _ _ _ _ _ _ _ st' x P Hx Hwf)
      as (h & mu & sigma & Fh & Fmu & Fsig & Cmu & Csig & Hh).
    specialize (Hh eq_refl). subst h. fold n in E, Fh, Cmu, Csig.
    rewrite Hl in E, Fh, Cmu, Csig.
    exists st', mu, sigma. split_and!; [exact E|exact Fmu|exact Fsig|].
    unfold NormalDistMLP_forward.
    rewrite (bind_ok _ _ _ _ _ Fh), (bind_ok _ _ _ _ _ Cmu),
      (bind_ok _ _ _ _ _ Csig). reflexivity.
  - destruct (GaussianDistMLP_init_ok _ _ _ mu_activation sigma_activation
                hidden_activation true log_std_min log_std_max st Hs)
      as (st' & E & _ & P & _).
    unfold GaussianDistMLP_layout in E, P. unfold params_ok in P.
    cbn [linears] in P.
    destruct (shared_forward_ok _ _ _ _ _ _ _ st' x P Hx Hwf)
      as (h & mu & sigma & Fh & Fmu & Fsig & Cmu & Csig & Hh).
    specialize (Hh eq_refl). subst h. fold n in E, Fh, Cmu, Csig.
    rewrite Hl in E, Fh, Cmu, Csig.
    exists st', mu, sigma. split_and!; [exact E|exact Fmu|exact Fsig|].
    unfold GaussianDistMLP_forward. unfold bind at 1.
    rewrite (bind_ok _ _ _ _ _ Fh), (bind_ok _ _ _ _ _ Cmu),
      (bind_ok _ _ _ _ _ Csig). reflexivity.
Qed.

Lemma shared_head_without_hidden_layers_witness :
  (forall y s,
     forward (Container MLP 11 [("fcs", Container Sequential 12 [])]) y s
     = (Ok y, s)) /\
  (exists st' mu sigma,
     NormalDistMLP_init 4 [] 2 Defaults.Normal_mu_activation
       Defaults.Normal_sigma_activation Defaults.Normal_hidden_activation
       true false st0
     = (Ok (Container (NormalDistMLP true false) 10
              [("hidden_layer", Container MLP 11 [("fcs", Container Sequential 12 [])]);
               ("mu", Container Sequential 16
                        [("0", Linear 13 4 2 14 15);
                         ("1", Act Defaults.Normal_mu_activation)]);
               ("sigma", Container Sequential 20
                           [("0", Linear 17 4 2 18 19);
                            ("1", Act Defaults.Normal_sigma_activation)])]), st') /\
     forward (Linear 13 4 2 14 15) batch34 st' = (Ok mu, st') /\
     forward (Linear 17 4 2 18 19) batch34 st' = (Ok sigma, st') /\
     NormalDistMLP_forward
       (Container (NormalDistMLP true false) 10
          [("hidden_layer", Container MLP 11 [("fcs", Container Sequential 12 [])]);
           ("mu", Container Sequential 16
                    [("0", Linear 13 4 2 14 15);
                     ("1", Act Defaults.Normal_mu_activation)]);
           ("sigma", Container Sequential 20
                       [("0", Linear 17 4 2 18 19);
                        ("1", Act Defaults.Normal_sigma_activation)])])
       batch34 st'
     = (Normal_init
          (act_forward (act_kind Defaults.Normal_mu_activation) mu)
          (act_forward (act_kind Defaults.Normal_sigma_activation) sigma), st')) /\
  (exists st' mu sigma,
     GaussianDistMLP_init 4 [] 2 Defaults.Normal_mu_activation
       Defaults.Normal_sigma_activation Defaults.Normal_hidden_activation
       true Defaults.log_std_min Defaults.log_std_max st0
     = (Ok (Container
              (GaussianDistMLP true Defaults.log_std_min Defaults.log_std_max) 10
              [("hidden_layer", Container MLP 11 [("fcs", Container Sequential 12 [])]);
               ("mu", Container Sequential 16
                        [("0", Linear 13 4 2 14 15);
                         ("1", Act Defaults.Normal_mu_activation)]);
               ("sigma", Container Sequential 20
                           [("0", Linear 17 4 2 18 19);
                            ("1", Act Defaults.Normal_sigma_activation)])]), st') /\
     forward (Linear 13 4 2 14 15) batch34 st' = (Ok mu, st') /\
     forward (Linear 17 4 2 18 19) batch34 st' = (Ok sigma, st') /\
     GaussianDistMLP_forward
       (Container
          (GaussianDistMLP true Defaults.log_std_min Defaults.log_std_max) 10
          [("hidden_layer", Container MLP 11 [("fcs", Container Sequential 12 [])]);
           ("mu", Container Sequential 16
                    [("0", Linear 13 4 2 14 15);
                     ("1", Act Defaults.Normal_mu_activation)]);
           ("sigma", Container Sequential 20
                       [("0", Linear 17 4 2 18 19);
                        ("1", Act Defaults.Normal_sigma_activation)])])
       batch34 st'
     = (Normal_init
          (act_forward (act_kind Defaults.Normal_mu_activation) mu)
          (map_tensor (get_std Defaults.log_std_min Defaults.log_std_max)
             (act_forward (act_kind Defaults.Normal_sigma_activation) sigma)),
        st')).
Proof.
  apply (shared_head_without_hidden_layers 4 2 Defaults.Normal_mu_activation
           Defaults.Normal_sigma_activation Defaults.Normal_hidden_activation
           Defaults.log_std_min Defaults.log_std_max st0 batch34).
  - lia.
  - lia.
  - repeat constructor.
  - reflexivity.
Defined.

(** C10 as stated fails for a [NormalDistMLP] with [std_ones = True]: that
    flag is tested first, and neither a trunk nor a sigma branch is built
    even though [share_net = True] and there are no hidden sizes. *)
Lemma NormalDistMLP_std_ones_ignores_share_net :
  exists head st',
    NormalDistMLP_init 4 [] 2 Defaults.Normal_mu_activation
      Defaults.Normal_sigma_activation Defaults.Normal_hidden_activation
      true true st0 = (Ok head, st') /\
    map fst (modules_of head) = ["mu"] /\
    getattr (modules_of head) "hidden_layer" = None /\
    getattr (modules_of head) "sigma" = None.
Proof.
  assert (Hs : sizes_ok 4 [] 2) by (split_and!; [lia|constructor|lia]).
  destruct (NormalDistMLP_init_ok 4 [] 2 Defaults.Normal_mu_activation
              Defaults.Normal_sigma_activation Defaults.Normal_hidden_activation
              true true st0 Hs) as (st' & E & _).
  eexists _, st'. split_and!; [exact E|reflexivity..].
Qed.

(** * Further properties of the code *)

(** ** [MLP]: which sizes are accepted *)

Lemma refused_sizes_dec input hidden out :
  refused_sizes input hidden out \/ ~ refused_sizes input hidden out.
Proof.
  unfold refused_sizes.
  destruct (decide (Exists (fun s => s < 0) hidden)); [tauto|].
  destruct (Z_lt_le_dec out 0); [tauto|].
  destruct (Z_lt_le_dec input 0) as [Hi|Hi];
    [|right; intros [H|[H|[H _]]]; [contradiction|lia|lia]].
  destruct hidden as [|s rest];
    [|left; right; right; split; [lia|left; discriminate]].
  destruct (Z.eq_dec out 0); [right|left; tauto].
  intros [H|[H|[_ [H|H]]]]; [inversion H|lia|congruence|congruence].
Qed.

Lemma not_Exists_neg (l : list Z) :
  ~ Exists (fun s => s < 0) l -> Forall (fun s => 0 <= s) l.
Proof.
  intros H. apply Forall_forall. intros s Hs.
  destruct (Z_lt_le_dec s 0); [|assumption].
  exfalso. apply H, Exists_exists. eauto.
Qed.

(** With no layer to build, nothing is asked of [nn.Linear]. *)
Lemma MLP_init_no_layers input oa ha st :
  exists st',
    MLP_init input [] 0 oa ha st
    = (Ok (Container MLP (next_oid st)
             [("fcs", Container Sequential (S (next_oid st)) [])]), st') /\
    store st' = store st /\ next_oid st' = S (S (next_oid st)).
Proof. eexists. split_and!; reflexivity. Qed.

Lemma MLP_init_accepted input hidden out oa ha st :
  ~ refused_sizes input hidden out ->
  exists net st', MLP_init input hidden out oa ha st = (Ok net, st').
Proof.
  intros H. unfold refused_sizes in H.
  assert (Hh : Forall (fun s => 0 <= s) hidden) by (apply not_Exists_neg; tauto).
  assert (Ho : 0 <= out) by lia.
  destruct (Z_lt_le_dec input 0) as [Hi|Hi].
  - assert (hidden = []) as -> by (destruct hidden; [reflexivity|exfalso; apply H;
      right; right; split; [lia|left; discriminate]]).
    assert (out = 0) as -> by (destruct (Z.eq_dec out 0); [assumption|tauto]).
    destruct (MLP_init_no_layers input oa ha st) as (st' & E & _). eauto.
  - destruct (MLP_init_ok input hidden out oa ha st) as (st' & E & _);
      [split_and!; assumption|eauto].
Qed.

(** ** [MLP]: the forward pass *)

(** The first entry of the layer list of a network with at least one affine
    layer is an affine layer that reads [input] features. *)
Lemma fcs_layout_head n input hidden out oa ha :
  hidden <> [] \/ out <> 0 ->
  exists name o w b tl,
    fcs_layout n input hidden out oa ha = (name, Linear n input o w b) :: tl.
Proof.
  intros H. unfold fcs_layout. destruct hidden as [|s rest].
  - destruct H as [H|H]; [congruence|].
    unfold output_layout. apply Z.eqb_neq in H. rewrite H.
    simpl. eauto 10.
  - simpl. eauto 10.
Qed.

Lemma forward_Linear_wrong_width o i out w b x st :
  linear_ok st (Linear o i out w b) -> ncols x <> Z.to_nat i ->
  forward (Linear o i out w b) x st = (Err RuntimeError, st).
Proof.
  intros (W & B & HW & HB & H1 & _) Hx. simpl. munfold.
  rewrite HW, HB. unfold F_linear.
  rewrite bool_decide_eq_false_2; [reflexivity|].
  intros [E _]. congruence.
Qed.

Lemma MLP_layout_wrong_width n input hidden out oa ha x st :
  params_ok st (MLP_layout n input hidden out oa ha) ->
  hidden <> [] \/ out <> 0 -> ncols x <> Z.to_nat input ->
  forward (MLP_layout n input hidden out oa ha) x st = (Err RuntimeError, st).
Proof.
  intros P Hl Hx. unfold params_ok, MLP_layout in *. simpl linears in P.
  rewrite app_nil_r in P.
  rewrite forward_MLP. unfold call. rewrite getattr_here, forward_Sequential.
  change (2 + n)%nat with (S (S n)) in *.
  destruct (fcs_layout_head (S (S n)) input hidden out oa ha Hl)
    as (name & o & w & b & tl & E).
  rewrite E in *. cbn [flat_map snd linears app] in P.
  apply Forall_cons in P as [P _]. cbn [chain].
  unfold bind at 1. now rewrite (forward_Linear_wrong_width _ _ _ _ _ _ _ P Hx).
Qed.

(** X2. A network with at least one affine layer refuses an input whose
    last dimension is not [input_size]: the forward pass raises the
    [RuntimeError] of the first affine layer. *)
Theorem MLP_forward_wrong_width (input_size : Z) (hidden_sizes : list Z)
    (output_size : Z) (output_activation hidden_activation : Activation)
    (st : State) (x : Tensor) :
  valid_sizes input_size hidden_sizes output_size ->
  hidden_sizes <> [] \/ output_size <> 0 ->
  ncols x <> Z.to_nat input_size ->
  exists net st',
    MLP_init input_size hidden_sizes output_size
             output_activation hidden_activation st = (Ok net, st') /\
    forward net x st' = (Err RuntimeError, st').
Proof.
  intros Hs Hl Hx. apply valid_sizes_ok in Hs.
  destruct (MLP_init_ok _ _ _ output_activation hidden_activation st Hs)
    as (st' & E & _ & _ & _ & P).
  eexists _, st'. split; [exact E|].
  now apply MLP_layout_wrong_width.
Qed.

Lemma MLP_forward_wrong_width_witness :
  exists net st',
    MLP_init 4 [8] 2 Defaults.MLP_output_activation
             Defaults.MLP_hidden_activation st0 = (Ok net, st') /\
    forward net batch23 st' = (Err RuntimeError, st').
Proof.
  apply (MLP_forward_wrong_width 4 [8] 2).
  - split_and!; [lia|repeat constructor|lia].
  - left. discriminate.
  - simpl. lia.
Defined.

(** X3. [MLP(input_size, [])] with the default [output_size = 0] has no
    layer and no parameter: whatever [input_size] is, its forward pass
    returns any input unchanged, of any width. *)
Theorem MLP_without_layers_is_identity (input_size : Z)
    (output_activation hidden_activation : Activation) (st : State) :
  exists net st',
    MLP_init input_size [] 0 output_activation hidden_activation st
    = (Ok net, st') /\
    parameters net = [] /\ store st' = store st /\
    forall x s, forward net x s = (Ok x, s).
Proof.
  destruct (MLP_init_no_layers input_size output_activation hidden_activation st)
    as (st' & E & Hst & _).
  eexists _, st'. split_and!; [exact E|reflexivity|exact Hst|reflexivity].
Qed.


(** ** [MLP]: the registered layers *)

Lemma hidden_key_not_output j :
  hidden_fc j <> "output" /\ hidden_fc_act j <> "output" /\
  hidden_fc j <> "output_act" /\ hidden_fc_act j <> "output_act".
Proof.
  unfold hidden_fc, hidden_fc_act. cbv [String.append].
  split_and!; discriminate.
Qed.

Lemma hidden_layout_keys ha sizes : forall i n prev,
  map fst (hidden_layout ha i n prev sizes) = hidden_keys i (length sizes).
Proof.
  induction sizes as [|s rest IH]; intros i n prev; [reflexivity|].
  simpl. now rewrite IH.
Qed.

Lemma hidden_keys_from i k key :
  key ∈ hidden_keys i k ->
  exists j, (i <= j < i + k)%nat /\ (key = hidden_fc j \/ key = hidden_fc_act j).
Proof.
  revert i. induction k as [|k IH]; intros i H; [inversion H|].
  simpl in H. rewrite !elem_of_cons in H. destruct H as [->|[->|H]].
  - exists i. split; [lia|auto].
  - exists i. split; [lia|auto].
  - destruct (IH _ H) as (j & Hj & Hk). exists j. split; [lia|exact Hk].
Qed.

Lemma hidden_keys_NoDup i k : NoDup (hidden_keys i k).
Proof.
  revert i. induction k as [|k IH]; intros i; [constructor|].
  simpl. constructor; [|constructor; [|apply IH]].
  - rewrite elem_of_cons. intros [H|H].
    + now apply hidden_fc_not_act in H.
    + apply hidden_keys_from in H as (j & Hj & [H|H]).
      * apply hidden_fc_inj in H. lia.
      * now apply hidden_fc_not_act in H.
  - intros H. apply hidden_keys_from in H as (j & Hj & [H|H]).
    + symmetry in H. now apply hidden_fc_not_act in H.
    + apply hidden_fc_act_inj in H. lia.
Qed.

Lemma getattr_app_notin l1 l2 name :
  name ∉ map fst l1 -> getattr (l1 ++ l2) name = getattr l2 name.
Proof.
  induction l1 as [|[n c] tl IH]; intros H; [reflexivity|].
  simpl in H. rewrite elem_of_cons in H. simpl.
  destruct (String.eqb_spec n name) as [->|Hne]; [tauto|].
  apply IH. tauto.
Qed.

Lemma getattr_hidden_layout ha sizes rest : forall i n prev k s,
  sizes !! k = Some s ->
  (exists o w b,
     getattr (hidden_layout ha i n prev sizes ++ rest) (hidden_fc (i + k))
     = Some (Linear o (nth k (prev :: sizes) 0) s w b)) /\
  getattr (hidden_layout ha i n prev sizes ++ rest) (hidden_fc_act (i + k))
  = Some (Act ha).
Proof.
  induction sizes as [|s0 more IH]; intros i n prev k s Hk; [destruct k; discriminate|].
  destruct k as [|k].
  - simpl in Hk. injection Hk as ->. rewrite Nat.add_0_r.
    cbn [hidden_layout app]. split.
    + rewrite getattr_here. eauto.
    + rewrite getattr_next by apply hidden_fc_not_act. apply getattr_here.
  - simpl in Hk. replace (i + S k)%nat with (S i + k)%nat by lia.
    cbn [hidden_layout app].
    assert (Hne : forall j, hidden_fc i <> hidden_fc (S i + j) /\
                            hidden_fc_act i <> hidden_fc_act (S i + j)).
    { intros j. split; intros H;
        [apply hidden_fc_inj in H|apply hidden_fc_act_inj in H]; lia. }
    destruct (IH (S i) (3 + n)%nat s0 k s Hk) as ((o & w & b & G1) & G2).
    split.
    + exists o, w, b.
      rewrite getattr_next by apply Hne.
      rewrite getattr_next
        by (intros H; symmetry in H; now apply hidden_fc_not_act in H).
      exact G1.
    + rewrite getattr_next by apply hidden_fc_not_act.
      rewrite getattr_next by apply Hne. exact G2.
Qed.

Lemma hidden_keys_no_output i k :
  ("output" ∉ hidden_keys i k) /\ ("output_act" ∉ hidden_keys i k).
Proof.
  split; intros H; apply hidden_keys_from in H as (j & _ & [H|H]);
    symmetry in H; revert H; apply hidden_key_not_output.
Qed.

(** X5. The layers an [MLP] registers are found under the names the
    constructor gave them, and no [add_module] replaces an earlier entry:
    the keys of [fcs] are [hidden_fc0, hidden_fc_act0, ...] in order,
    followed by [output, output_act] when [output_size] is not zero, all
    distinct; [fcs.hidden_fc{i}] is the affine layer from the [i]-th width
    to the next one, [fcs.hidden_fc_act{i}] is the hidden activation
    object, and [fcs.output] exists exactly when [output_size] is not
    zero. *)
Theorem MLP_layers_by_name (input_size : Z) (hidden_sizes : list Z)
    (output_size : Z) (output_activation hidden_activation : Activation)
    (st : State) :
  valid_sizes input_size hidden_sizes output_size ->
  exists net fcs st',
    MLP_init input_size hidden_sizes output_size
             output_activation hidden_activation st = (Ok net, st') /\
    getattr (modules_of net) "fcs" = Some fcs /\
    map fst (modules_of fcs)
    = hidden_keys 0 (length hidden_sizes)
        ++ (if output_size =? 0 then [] else ["output"; "output_act"]) /\
    NoDup (map fst (modules_of fcs)) /\
    (forall i s, hidden_sizes !! i = Some s ->
       (exists o w b,
          getattr (modules_of fcs) (hidden_fc i)
          = Some (Linear o (nth i (input_size :: hidden_sizes) 0) s w b)) /\
       getattr (modules_of fcs) (hidden_fc_act i) = Some (Act hidden_activation)) /\
    (if output_size =? 0
     then getattr (modules_of fcs) "output" = None /\
          getattr (modules_of fcs) "output_act" = None
     else (exists o w b,
             getattr (modules_of fcs) "output"
             = Some (Linear o (default input_size (last hidden_sizes))
                            output_size w b)) /\
          getattr (modules_of fcs) "output_act" = Some (Act output_activation)).
Proof.
  intros Hs. apply valid_sizes_ok in Hs.
  destruct (MLP_init_ok _ _ _ output_activation hidden_activation st Hs)
    as (st' & E & _).
  eexists _, _, st'. split; [exact E|]. split; [reflexivity|].
  cbn [modules_of]. unfold fcs_layout.
  pose proof (hidden_keys_no_output 0 (length hidden_sizes)) as [Hno Hnoa].
  split_and!.
  - rewrite map_app, hidden_layout_keys. unfold output_layout.
    now destruct (output_size =? 0).
  - rewrite map_app, hidden_layout_keys. unfold output_layout.
    destruct (output_size =? 0); simpl.
    + rewrite app_nil_r. apply hidden_keys_NoDup.
    + apply NoDup_app. split_and!.
      * apply hidden_keys_NoDup.
      * intros k Hk. rewrite !elem_of_cons. intros [->|[->|H]];
          [tauto|tauto|inversion H].
      * repeat constructor; rewrite ?elem_of_cons; [|intros H; inversion H].
        intros [H|H]; [discriminate|inversion H].
  - intros i s Hi.
    apply (getattr_hidden_layout hidden_activation hidden_sizes _ 0 _ input_size i s Hi).
  - rewrite !getattr_app_notin by (now rewrite hidden_layout_keys).
    unfold output_layout. destruct (output_size =? 0); simpl; eauto.
Qed.

Lemma MLP_layers_by_name_witness :
  exists net fcs st',
    MLP_init 4 [8] 2 Defaults.MLP_output_activation
             Defaults.MLP_hidden_activation st0 = (Ok net, st') /\
    getattr (modules_of net) "fcs" = Some fcs /\
    map fst (modules_of fcs)
    = hidden_keys 0 (length [8]) ++ (if 2 =? 0 then [] else ["output"; "output_act"]) /\
    NoDup (map fst (modules_of fcs)) /\
    (forall i s, [8] !! i = Some s ->
       (exists o w b,
          getattr (modules_of fcs) (hidden_fc i)
          = Some (Linear o (nth i (4 :: [8]) 0) s w b)) /\
       getattr (modules_of fcs) (hidden_fc_act i)
       = Some (Act Defaults.MLP_hidden_activation)) /\
    (if 2 =? 0
     then getattr (modules_of fcs) "output" = None /\
          getattr (modules_of fcs) "output_act" = None
     else (exists o w b,
             getattr (modules_of fcs) "output"
             = Some (Linear o (default 4 (last [8])) 2 w b)) /\
          getattr (modules_of fcs) "output_act"
          = Some (Act Defaults.MLP_output_activation)).
Proof.
  apply (MLP_layers_by_name 4 [8] 2).
  split_and!; [lia|repeat constructor|lia].
Defined.

(** ** [MLP]: what the constructor allocates *)

(** X6. [MLP.__init__] allocates two parameter tensors (weight and bias) per
    affine layer, all distinct and all created by this call, and it leaves
    every tensor that existed before as it was: neither the construction of
    the layers nor the final [self.apply] of the initializer writes outside
    the new network.  The random generator's stream is the same one. *)
Theorem MLP_init_footprint (input_size : Z) (hidden_sizes : list Z)
    (output_size : Z) (output_activation hidden_activation : Activation)
    (st : State) :
  valid_sizes input_size hidden_sizes output_size ->
  exists net st',
    MLP_init input_size hidden_sizes output_size
             output_activation hidden_activation st = (Ok net, st') /\
    length (parameters net) = (2 * n_layers hidden_sizes output_size)%nat /\
    NoDup (own_parameters net) /\
    (forall p, p ∈ parameters net ->
       (next_oid st <= p < next_oid st')%nat /\ is_Some (store st' !! p)) /\
    (forall p, (p < next_oid st)%nat -> store st' !! p = store st !! p) /\
    gen st' = gen st.
Proof.
  intros Hs. apply valid_sizes_ok in Hs.
  destruct (MLP_init_ok _ _ _ output_activation hidden_activation st Hs)
    as (st' & E & N & _ & (_ & Hg & Hold) & P).
  eexists _, st'. split; [exact E|]. split_and!.
  - apply MLP_layout_parameters_length.
  - rewrite MLP_layout_parameters. apply param_ids_NoDup.
  - intros p Hp. split.
    + apply MLP_parameters_bound in Hp. rewrite N. lia.
    + rewrite MLP_layout_parameters_NoDup in Hp.
      exact (params_ok_present _ _ _ P Hp).
  - exact Hold.
  - exact Hg.
Qed.

Lemma MLP_init_footprint_witness :
  exists net st',
    MLP_init 4 [8] 2 Defaults.MLP_output_activation
             Defaults.MLP_hidden_activation st0 = (Ok net, st') /\
    length (parameters net) = (2 * n_layers [8%Z] 2%Z)%nat /\
    NoDup (own_parameters net) /\
    (forall p, p ∈ parameters net ->
       (next_oid st0 <= p < next_oid st')%nat /\ is_Some (store st' !! p)) /\
    (forall p, (p < next_oid st0)%nat -> store st' !! p = store st0 !! p) /\
    gen st' = gen st0.
Proof.
  apply (MLP_init_footprint 4 [8] 2).
  split_and!; [lia|repeat constructor|lia].
Defined.

(** With an output layer, what the network returns is the output
    activation applied to the result of the output layer. *)
Lemma MLP_forward_output n input hidden out oa ha x st :
  params_ok st (MLP_layout n input hidden out oa ha) -> out <> 0 ->
  ncols x = Z.to_nat input -> wf_tensor x ->
  exists z,
    forward (MLP_layout n input hidden out oa ha) x st
    = (Ok (act_forward (act_kind oa) z), st) /\
    ncols z = Z.to_nat out /\ wf_tensor z /\ nrows z = nrows x.
Proof.
  unfold params_ok, MLP_layout. simpl linears. rewrite app_nil_r.
  unfold fcs_layout. rewrite flat_map_app. intros Hok Hout Hx Hwf.
  apply Forall_app in Hok as [Hh Ho].
  rewrite forward_MLP. unfold call. rewrite getattr_here, forward_Sequential.
  destruct (chain_hidden_layout ha hidden 0 (2 + n)
              input (output_layout oa (3 * length hidden + (2 + n))
                       (default input (last hidden)) out) x st Hh Hx Hwf)
    as (y1 & E1 & C1 & W1 & R1).
  rewrite E1. unfold output_layout in *. apply Z.eqb_neq in Hout.
  rewrite Hout in *. simpl in Ho. apply Forall_cons in Ho as [Ho _].
  destruct (forward_Linear_ok _ _ _ _ _ y1 st Ho C1) as (y2 & E2 & C2 & W2 & R2).
  exists y2. cbn [chain]. rewrite (bind_ok _ _ _ _ _ E2).
  split_and!; [reflexivity|exact C2|exact W2|congruence].
Qed.


(** ** The distribution heads: shapes of what the forward pass returns *)

Lemma has_shape_act_forward k z n w :
  has_shape z n w -> has_shape (act_forward k z) n w.
Proof.
  intros (Hn & Hc & Hwf). split_and!.
  - rewrite <- Hn. unfold nrows, act_forward. simpl. apply length_map.
  - exact Hc.
  - now apply act_forward_wf.
Qed.

Lemma has_shape_map_tensor f z n w :
  has_shape z n w -> has_shape (map_tensor f z) n w.
Proof.
  intros (Hn & Hc & Hwf). split_and!.
  - rewrite <- Hn. unfold nrows, map_tensor. simpl. apply length_map.
  - exact Hc.
  - unfold wf_tensor, map_tensor in *. simpl. apply Forall_forall.
    intros r Hr. apply list_elem_of_In, in_map_iff in Hr as (r' & <- & Hr').
    rewrite length_map. rewrite Forall_forall in Hwf.
    apply Hwf, list_elem_of_In, Hr'.
Qed.

(** One trunk, two projections: the three calls of the forward pass. *)
Lemma shared_forward_shape n input hidden out mu_act sigma_act ha st x :
  let mods := shared_layout n input hidden out mu_act sigma_act ha in
  Forall (linear_ok st) (flat_map (fun nm => linears (snd nm)) mods) ->
  ncols x = Z.to_nat input -> wf_tensor x ->
  exists h zmu zsig,
    call mods "hidden_layer" x st = (Ok h, st) /\
    call mods "mu" h st = (Ok (act_forward (act_kind mu_act) zmu), st) /\
    call mods "sigma" h st = (Ok (act_forward (act_kind sigma_act) zsig), st) /\
    has_shape zmu (nrows x) (Z.to_nat out) /\
    has_shape zsig (nrows x) (Z.to_nat out).
Proof.
  intros mods Hok Hx Hwf. unfold mods, shared_layout in Hok.
  cbn [flat_map snd] in Hok. apply Forall_app in Hok as [Pt Hok].
  simpl in Hok. apply Forall_cons in Hok as [Lmu Hok].
  apply Forall_cons in Hok as [Lsig _].
  destruct (MLP_forward_ok _ _ _ _ _ _ x st Pt Hx Hwf) as (h & Fh & Ch & Wh & Rh).
  simpl in Ch.
  destruct (projection_forward_ok (3 + MLP_end n hidden 0) _ _ _ _ _ mu_act h st
              Lmu Ch) as (zmu & _ & Smu & Cmu & Wmu & Rmu).
  destruct (projection_forward_ok (7 + MLP_end n hidden 0) _ _ _ _ _ sigma_act h st
              Lsig Ch) as (zsig & _ & Ssig & Csig & Wsig & Rsig).
  exists h, zmu, zsig. split_and!.
  - exact Fh.
  - exact Smu.
  - exact Ssig.
  - split_and!; [congruence|exact Cmu|exact Wmu].
  - split_and!; [congruence|exact Csig|exact Wsig].
Qed.

(** Two separate networks: the two calls of the forward pass. *)
Lemma separate_forward_shape n input hidden out mu_act sigma_act ha st x :
  let mods := separate_layout n input hidden out mu_act sigma_act ha in
  Forall (linear_ok st) (flat_map (fun nm => linears (snd nm)) mods) ->
  ncols x = Z.to_nat input -> wf_tensor x ->
  exists mu sigma,
    call mods "mu" x st = (Ok mu, st) /\
    call mods "sigma" x st = (Ok sigma, st) /\
    has_shape mu (nrows x) (Z.to_nat (MLP_width input hidden out)) /\
    has_shape sigma (nrows x) (Z.to_nat (MLP_width input hidden out)) /\
    (out <> 0 -> exists z, sigma = act_forward (act_kind sigma_act) z).
Proof.
  intros mods Hok Hx Hwf. unfold mods, separate_layout in Hok.
  cbn [flat_map snd] in Hok. rewrite app_nil_r in Hok.
  apply Forall_app in Hok as [Pmu Psig].
  destruct (MLP_forward_ok _ _ _ _ _ _ x st Pmu Hx Hwf)
    as (mu & Fmu & Cmu & Wmu & Rmu).
  destruct (MLP_forward_ok _ _ _ _ _ _ x st Psig Hx Hwf)
    as (sigma & Fsig & Csig & Wsig & Rsig).
  exists mu, sigma. unfold has_shape, MLP_width. split_and!; auto.
  intros Hout.
  destruct (MLP_forward_output _ _ _ _ _ _ x st Psig Hout Hx Hwf) as (z & Fz & _).
  exists z. congruence.
Qed.

(** X8. On a batch of the declared width the forward pass of a
    [NormalDistMLP] hands to [Normal] a location and a scale of the same
    shape: as many rows as the batch, and a width of [output_size] when the
    trunk is shared (the two projections are built even for
    [output_size = 0]) and of the width of an [MLP] otherwise
    ([output_size], or the last hidden size when [output_size] is zero).
    The outcome of the forward pass is the outcome of that constructor. *)
Theorem NormalDistMLP_forward_shape (input_size : Z) (hidden_sizes : list Z)
    (output_size : Z) (mu_activation sigma_activation hidden_activation : Activation)
    (share_net std_ones : bool) (st : State) (x : Tensor) :
  valid_sizes input_size hidden_sizes output_size ->
  wf_tensor x -> ncols x = Z.to_nat input_size ->
  exists head st' mu sigma,
    NormalDistMLP_init input_size hidden_sizes output_size mu_activation
      sigma_activation hidden_activation share_net std_ones st = (Ok head, st') /\
    NormalDistMLP_forward head x st' = (Normal_init mu sigma, st') /\
    let width :=
      Z.to_nat (head_width share_net std_ones input_size hidden_sizes output_size) in
    has_shape mu (nrows x) width /\ has_shape sigma (nrows x) width.
Proof.
  intros Hs Hwf Hx. apply valid_sizes_ok in Hs.
  destruct (NormalDistMLP_init_ok _ _ _ mu_activation sigma_activation
              hidden_activation share_net std_ones st Hs) as (st' & E & _ & P & _).
  unfold NormalDistMLP_layout in E, P. unfold params_ok in P. simpl linears in P.
  unfold head_width. destruct std_ones; [|destruct share_net].
  - cbn [flat_map snd] in P. rewrite app_nil_r in P.
    destruct (MLP_forward_ok _ _ _ _ _ _ x st' P Hx Hwf) as (mu & F & C & W & Rw).
    eexists _, st', _, _. split; [exact E|]. split.
    + unfold NormalDistMLP_forward, call. rewrite getattr_here.
      rewrite (bind_ok _ _ _ _ _ F). reflexivity.
    + assert (Hmu : has_shape mu (nrows x)
                      (Z.to_nat (MLP_width input_size hidden_sizes output_size)))
        by (split_and!; assumption).
      split; [exact Hmu|]. now apply has_shape_map_tensor.
  - destruct (shared_forward_shape _ _ _ _ _ _ _ st' x P Hx Hwf)
      as (h & zmu & zsig & Fh & Fmu & Fsig & Smu & Ssig).
    eexists _, st', _, _. split; [exact E|]. split.
    + unfold NormalDistMLP_forward.
      rewrite (bind_ok _ _ _ _ _ Fh), (bind_ok _ _ _ _ _ Fmu),
        (bind_ok _ _ _ _ _ Fsig). reflexivity.
    + split; now apply has_shape_act_forward.
  - destruct (separate_forward_shape _ _ _ _ _ _ _ st' x P Hx Hwf)
      as (mu & sigma & Fmu & Fsig & Smu & Ssig & _).
    eexists _, st', _, _. split; [exact E|]. split.
    + unfold NormalDistMLP_forward.
      rewrite (bind_ok _ _ _ _ _ Fmu), (bind_ok _ _ _ _ _ Fsig). reflexivity.
    + split; assumption.
Qed.

Lemma NormalDistMLP_forward_shape_witness :
  exists head st' mu sigma,
    NormalDistMLP_init 4 [8] 2 Defaults.Normal_mu_activation
      Defaults.Normal_sigma_activation Defaults.Normal_hidden_activation
      true false st0 = (Ok head, st') /\
    NormalDistMLP_forward head batch34 st' = (Normal_init mu sigma, st') /\
    let width := Z.to_nat (head_width true false 4 [8] 2) in
    has_shape mu (nrows batch34) width /\
    has_shape sigma (nrows batch34) width.
Proof.
  apply (NormalDistMLP_forward_shape 4 [8] 2).
  - split_and!; [lia|repeat constructor; lia|lia].
  - repeat constructor.
  - reflexivity.
Defined.


(** ** [CategoricalMLP]: the probabilities *)

Lemma Categorical_init_shape p d n w :
  Categorical_init p = Ok d -> has_shape p n w -> has_shape (probs d) n w.
Proof.
  intros Hd (Hn & Hc & Hwf). apply Categorical_init_inv in Hd as [-> _].
  split_and!.
  - rewrite <- Hn. unfold nrows. simpl. apply length_map.
  - exact Hc.
  - unfold wf_tensor in *. simpl. apply Forall_forall. intros r Hr.
    apply list_elem_of_In, in_map_iff in Hr as (r' & <- & Hr').
    rewrite length_map. rewrite Forall_forall in Hwf.
    apply Hwf, list_elem_of_In, Hr'.
Qed.

(** X12. On a batch of rows of the declared width the forward pass of a
    [CategoricalMLP] with an output layer hands to [Categorical] the output
    of its network, which has as many rows as the batch and width
    [output_size]; its outcome is the outcome of that constructor.  A
    distribution that is returned holds the rows of that output divided by
    their sums, in the same shape, and every row of it passed the check of
    the constructor: no negative entry, and a sum that is one within
    [1e-6]. *)
Theorem CategoricalMLP_forward_simplex (input_size output_size : Z)
    (hidden_sizes : list Z) (output_activation hidden_activation : Activation)
    (st : State) (x : Tensor) :
  valid_sizes input_size hidden_sizes output_size -> 0 < output_size ->
  wf_tensor x -> ncols x = Z.to_nat input_size ->
  exists head st' fc output,
    CategoricalMLP_init input_size output_size hidden_sizes
                        output_activation hidden_activation st = (Ok head, st') /\
    modules_of head = [("fc", fc)] /\
    forward fc x st' = (Ok output, st') /\
    has_shape output (nrows x) (Z.to_nat output_size) /\
    CategoricalMLP_forward head x st' = (Categorical_init output, st') /\
    (forall d, Categorical_init output = Ok d ->
       has_shape (probs d) (nrows x) (Z.to_nat output_size) /\
       rows (probs d)
       = map (fun r => map (fun v => (v / sum_row r)%R) r) (rows output) /\
       Forall simplex_row (rows (probs d))).
Proof.
  intros Hs Hout Hwf Hx. apply valid_sizes_ok in Hs.
  destruct (CategoricalMLP_init_ok _ _ _ output_activation hidden_activation st Hs)
    as (st' & E & _ & P & _).
  unfold params_ok in P. simpl linears in P. cbn [flat_map snd] in P.
  rewrite app_nil_r in P.
  destruct (MLP_forward_output _ _ _ _ _ _ x st' P ltac:(lia) Hx Hwf)
    as (z & F & C & W & Rz).
  assert (Hshape : has_shape (act_forward (act_kind output_activation) z)
                     (nrows x) (Z.to_nat output_size)).
  { apply has_shape_act_forward. split_and!; assumption. }
  eexists _, st', _, _. split; [exact E|]. split; [reflexivity|].
  split; [exact F|]. split; [exact Hshape|]. split.
  - unfold CategoricalMLP_forward, call. rewrite getattr_here.
    rewrite (bind_ok _ _ _ _ _ F). reflexivity.
  - intros d Hd. split; [exact (Categorical_init_shape _ _ _ _ Hd Hshape)|].
    apply Categorical_init_inv in Hd as [Hp Hsimplex].
    split; [now rewrite Hp|exact Hsimplex].
Qed.

Lemma CategoricalMLP_forward_simplex_witness :
  exists head st' fc output,
    CategoricalMLP_init 4 2 [8] Defaults.Categorical_output_activation
                        Defaults.Categorical_hidden_activation st0 = (Ok head, st') /\
    modules_of head = [("fc", fc)] /\
    forward fc batch34 st' = (Ok output, st') /\
    has_shape output (nrows batch34) (Z.to_nat 2) /\
    CategoricalMLP_forward head batch34 st' = (Categorical_init output, st') /\
    (forall d, Categorical_init output = Ok d ->
       has_shape (probs d) (nrows batch34) (Z.to_nat 2) /\
       rows (probs d)
       = map (fun r => map (fun v => (v / sum_row r)%R) r) (rows output) /\
       Forall simplex_row (rows (probs d))).
Proof.
  apply (CategoricalMLP_forward_simplex 4 2 [8]).
  - split_and!; [lia|repeat constructor; lia|lia].
  - lia.
  - repeat constructor.
  - reflexivity.
Defined.

(** ** The distribution heads: parameters *)

Lemma param_ids_length n k : length (param_ids n k) = (2 * k)%nat.
Proof. revert n. induction k as [|k IH]; intros n; simpl; [|rewrite IH]; lia. Qed.

Lemma own_parameters_MLP_length n input hidden out oa ha :
  length (own_parameters (MLP_layout n input hidden out oa ha))
  = (2 * n_layers hidden out)%nat.
Proof. rewrite MLP_layout_parameters, param_ids_length. reflexivity. Qed.

Lemma head_layout_parameters_length n input hidden out mu_act sigma_act ha
    share_net std_ones :
  length (flat_map (fun nm => own_parameters (snd nm))
            (NormalDistMLP_layout n input hidden out mu_act sigma_act ha
                                  share_net std_ones))
  = head_parameter_count share_net std_ones hidden out.
Proof.
  unfold NormalDistMLP_layout, head_parameter_count.
  destruct std_ones; [|destruct share_net].
  - cbn [flat_map snd]. rewrite app_nil_r. apply own_parameters_MLP_length.
  - unfold shared_layout. cbn [flat_map snd].
    rewrite length_app, own_parameters_MLP_length. unfold n_layers. simpl. lia.
  - unfold separate_layout. cbn [flat_map snd].
    rewrite !length_app, !own_parameters_MLP_length. simpl. lia.
Qed.

Lemma head_layout_parameters_NoDup n input hidden out mu_act sigma_act ha
    share_net std_ones :
  NoDup (flat_map (fun nm => own_parameters (snd nm))
           (NormalDistMLP_layout n input hidden out mu_act sigma_act ha
                                 share_net std_ones)).
Proof.
  unfold NormalDistMLP_layout. destruct std_ones; [|destruct share_net].
  - apply std_ones_layout_NoDup.
  - apply shared_layout_NoDup.
  - apply separate_layout_NoDup.
Qed.

(** X13. The number of parameter tensors of a head: with [std_ones] only
    the network of the mean has parameters (two per affine layer); with a
    shared trunk the hidden layers are counted once and the two projections
    add four tensors; with separate networks every layer exists twice.  No
    tensor is shared between two layers.  A [GaussianDistMLP] has the
    parameters of a [NormalDistMLP] without [std_ones]. *)
Theorem head_parameter_counts (input_size : Z) (hidden_sizes : list Z)
    (output_size : Z) (mu_activation sigma_activation hidden_activation : Activation)
    (share_net std_ones : bool) (log_std_min log_std_max : R) (st : State) :
  valid_sizes input_size hidden_sizes output_size ->
  (exists head st',
     NormalDistMLP_init input_size hidden_sizes output_size mu_activation
       sigma_activation hidden_activation share_net std_ones st = (Ok head, st') /\
     NoDup (own_parameters head) /\
     length (parameters head)
     = head_parameter_count share_net std_ones hidden_sizes output_size) /\
  (exists head st',
     GaussianDistMLP_init input_size hidden_sizes output_size mu_activation
       sigma_activation hidden_activation share_net log_std_min log_std_max st
     = (Ok head, st') /\
     NoDup (own_parameters head) /\
     length (parameters head)
     = head_parameter_count share_net false hidden_sizes output_size).
Proof.
  intros Hs. apply valid_sizes_ok in Hs. split.
  - destruct (NormalDistMLP_init_ok _ _ _ mu_activation sigma_activation
                hidden_activation share_net std_ones st Hs) as (st' & E & _).
    eexists _, st'. split; [exact E|].
    pose proof (head_layout_parameters_NoDup (next_oid st) input_size hidden_sizes
                  output_size mu_activation sigma_activation hidden_activation
                  share_net std_ones) as Hnd.
    split; [exact Hnd|]. unfold parameters. cbn [own_parameters].
    rewrite (remove_dups_NoDup _ Hnd). apply head_layout_parameters_length.
  - destruct (GaussianDistMLP_init_ok _ _ _ mu_activation sigma_activation
                hidden_activation share_net log_std_min log_std_max st Hs)
      as (st' & E & _).
    eexists _, st'. split; [exact E|].
    pose proof (head_layout_parameters_NoDup (next_oid st) input_size hidden_sizes
                  output_size mu_activation sigma_activation hidden_activation
                  share_net false) as Hnd.
    split; [exact Hnd|]. unfold parameters. cbn [own_parameters].
    change (GaussianDistMLP_layout (next_oid st) input_size hidden_sizes output_size
              mu_activation sigma_activation hidden_activation share_net)
      with (NormalDistMLP_layout (next_oid st) input_size hidden_sizes output_size
              mu_activation sigma_activation hidden_activation share_net false).
    rewrite (remove_dups_NoDup _ Hnd). apply head_layout_parameters_length.
Qed.

Lemma head_parameter_counts_witness :
  (exists head st',
     NormalDistMLP_init 4 [8; 6] 2 Defaults.Normal_mu_activation
       Defaults.Normal_sigma_activation Defaults.Normal_hidden_activation
       true false st0 = (Ok head, st') /\
     NoDup (own_parameters head) /\
     length (parameters head) = head_parameter_count true false [8; 6] 2) /\
  (exists head st',
     GaussianDistMLP_init 4 [8; 6] 2 Defaults.Normal_mu_activation
       Defaults.Normal_sigma_activation Defaults.Normal_hidden_activation
       true (-20) 2 st0 = (Ok head, st') /\
     NoDup (own_parameters head) /\
     length (parameters head) = head_parameter_count true false [8; 6] 2).
Proof.
  apply (head_parameter_counts 4 [8; 6] 2).
  split_and!; [lia|repeat constructor; lia|lia].
Defined.

(** ** The distribution heads: which sizes are refused *)

Lemma MLP_init_refused input hidden out oa ha st :
  refused_sizes input hidden out ->
  fst (MLP_init input hidden out oa ha st) = Err RuntimeError.
Proof. intros H. unfold MLP_init. apply bind_fst_err, MLP_build_err. exact H. Qed.

(** Sizes an [MLP] accepts: valid ones, or no layer at all. *)
Lemma not_refused_cases input hidden out :
  ~ refused_sizes input hidden out ->
  sizes_ok input hidden out \/ (hidden = [] /\ out = 0).
Proof.
  intros H. unfold refused_sizes in H.
  assert (Hh : Forall (fun s => 0 <= s) hidden) by (apply not_Exists_neg; tauto).
  destruct (Z_lt_le_dec input 0) as [Hi|Hi].
  - right. split.
    + destruct hidden; [reflexivity|].
      exfalso. apply H. right. right. split; [lia|left; discriminate].
    + destruct (Z.eq_dec out 0); [assumption|tauto].
  - left. split_and!; [assumption|assumption|lia].
Qed.

(** The three ways the children of a head are built. *)
Lemma std_ones_children_refused input hidden out mu_act ha st :
  refused_sizes input hidden out ->
  fst ((mu <- MLP_init input hidden out mu_act ha ;;
        ret (add_module [] "mu" mu)) st) = Err RuntimeError.
Proof. intros H. now apply bind_fst_err, MLP_init_refused. Qed.

Lemma separate_branches_refused input hidden out mu_act sigma_act ha st :
  refused_sizes input hidden out ->
  fst (separate_branches input hidden out mu_act sigma_act ha st)
  = Err RuntimeError.
Proof. intros H. now apply bind_fst_err, MLP_init_refused. Qed.

Lemma shared_branches_refused input hidden out mu_act sigma_act ha st :
  Exists (fun s => s < 0) hidden \/ out < 0 \/ input < 0 ->
  fst (shared_branches input hidden out mu_act sigma_act ha st) = Err RuntimeError.
Proof.
  intros H. unfold shared_branches.
  destruct (refused_sizes_dec input hidden 0) as [Hr|Hr];
    [now apply bind_fst_err, MLP_init_refused|].
  destruct (MLP_init_accepted _ _ _ Defaults.MLP_output_activation ha st Hr)
    as (trunk & s1 & E).
  rewrite (bind_ok _ _ _ _ _ E). apply bind_fst_err, Linear_init_err.
  destruct (not_refused_cases _ _ _ Hr) as [(Hi & Hh & _)|[-> _]].
  - destruct H as [H|[H|H]]; [|right; exact H|lia].
    exfalso. apply Exists_exists in H as (s & Hin & Hneg).
    rewrite Forall_forall in Hh. apply Hh in Hin. lia.
  - destruct H as [H|[H|H]]; [inversion H|right; exact H|left; exact H].
Qed.

Lemma NormalDistMLP_init_refused input hidden out mu_act sigma_act ha
    share_net std_ones st :
  head_refused_sizes share_net std_ones input hidden out ->
  fst (NormalDistMLP_init input hidden out mu_act sigma_act ha
         share_net std_ones st) = Err RuntimeError.
Proof.
  intros H. unfold NormalDistMLP_init.
  destruct (fresh_ok st) as (sa & Ea & _). rewrite (bind_ok _ _ _ _ _ Ea).
  apply bind_fst_err. unfold head_refused_sizes in H.
  destruct std_ones; [now apply std_ones_children_refused|].
  destruct share_net;
    [now apply shared_branches_refused|now apply separate_branches_refused].
Qed.

Lemma GaussianDistMLP_init_refused input hidden out mu_act sigma_act ha
    share_net lmin lmax st :
  head_refused_sizes share_net false input hidden out ->
  fst (GaussianDistMLP_init input hidden out mu_act sigma_act ha
         share_net lmin lmax st) = Err RuntimeError.
Proof.
  intros H. unfold GaussianDistMLP_init.
  destruct (fresh_ok st) as (sa & Ea & _). rewrite (bind_ok _ _ _ _ _ Ea).
  apply bind_fst_err. unfold head_refused_sizes in H.
  destruct share_net;
    [now apply shared_branches_refused|now apply separate_branches_refused].
Qed.

(** X14. The constructors of the two Gaussian heads fail with the
    [RuntimeError] of [nn.Linear] when a layer of negative size is asked
    for, the sizes being 64-bit integers.  With separate networks, or with
    [std_ones], these are the sizes an [MLP] refuses; with a shared trunk
    the two projections are always built, so that every negative size is
    refused, also a negative input size without hidden layers and with
    [output_size = 0], which an [MLP] accepts. *)
Theorem head_init_negative_size (input_size : Z) (hidden_sizes : list Z)
    (output_size : Z) (mu_activation sigma_activation hidden_activation : Activation)
    (share_net std_ones : bool) (log_std_min log_std_max : R) (st : State) :
  Forall int64 (input_size :: output_size :: hidden_sizes) ->
  (head_refused_sizes share_net std_ones input_size hidden_sizes output_size ->
   fst (NormalDistMLP_init input_size hidden_sizes output_size mu_activation
          sigma_activation hidden_activation share_net std_ones st)
   = Err RuntimeError) /\
  (head_refused_sizes share_net false input_size hidden_sizes output_size ->
   fst (GaussianDistMLP_init input_size hidden_sizes output_size mu_activation
          sigma_activation hidden_activation share_net log_std_min log_std_max st)
   = Err RuntimeError).
Proof.
  intros _. split.
  - apply NormalDistMLP_init_refused.
  - apply GaussianDistMLP_init_refused.
Qed.

Lemma head_init_negative_size_witness :
  fst (NormalDistMLP_init (-1) [] 0 Defaults.Normal_mu_activation
         Defaults.Normal_sigma_activation Defaults.Normal_hidden_activation
         true false st0) = Err RuntimeError /\
  fst (GaussianDistMLP_init (-1) [] 0 Defaults.Gaussian_mu_activation
         Defaults.Gaussian_sigma_activation Defaults.Gaussian_hidden_activation
         true Defaults.log_std_min Defaults.log_std_max st0) = Err RuntimeError /\
  (exists net st',
     MLP_init (-1) [] 0 Defaults.MLP_output_activation
       Defaults.MLP_hidden_activation st0 = (Ok net, st')).
Proof.
  assert (H64 : Forall int64 [-1; 0]) by (repeat constructor; unfold int64; lia).
  split_and!.
  - apply (head_init_negative_size (-1) [] 0 Defaults.Normal_mu_activation
             Defaults.Normal_sigma_activation Defaults.Normal_hidden_activation
             true false 0 0 st0 H64).
    right. right. lia.
  - apply (head_init_negative_size (-1) [] 0 Defaults.Gaussian_mu_activation
             Defaults.Gaussian_sigma_activation
             Defaults.Gaussian_hidden_activation
             true false Defaults.log_std_min Defaults.log_std_max st0 H64).
    right. right. lia.
  - destruct (MLP_init_no_layers (-1) Defaults.MLP_output_activation
                Defaults.MLP_hidden_activation st0) as (st' & E & _).
    eauto.
Defined.

(** ** The experiment assembly: what the six networks compute *)

(** An affine layer computes with the data of its two tensors only. *)
Lemma forward_Linear_agree o i out w b o' i' out' w' b' x st :
  store st !! w' = store st !! w -> store st !! b' = store st !! b ->
  forward (Linear o' i' out' w' b') x st = forward (Linear o i out w b) x st.
Proof.
  intros Hw Hb. simpl. munfold. rewrite Hw.
  destruct (store st !! w); [|reflexivity]. now rewrite Hb.
Qed.

Lemma chain_eta l : forall x st, chain l x st = (fst (chain l x st), st).
Proof.
  intros x st. rewrite <- (forward_Sequential 0 l x). apply forward_eta.
Qed.

(** Two stacks of hidden layers of the same sizes whose tensors hold the
    same data compute the same. *)
Lemma chain_hidden_agree ha sizes : forall i n t prev rest_n rest_t x st,
  (forall tp p, (tp, p) ∈ zip (param_ids t (length sizes))
                              (param_ids n (length sizes)) ->
                store st !! tp = store st !! p) ->
  (forall y, chain rest_t y st = chain rest_n y st) ->
  chain (hidden_layout ha i t prev sizes ++ rest_t) x st
  = chain (hidden_layout ha i n prev sizes ++ rest_n) x st.
Proof.
  induction sizes as [|s more IH]; intros i n t prev rest_n rest_t x st Hz Hrest.
  - apply Hrest.
  - cbn [hidden_layout app chain]. cbn [length param_ids zip zip_with] in Hz.
    assert (Hw : store st !! S t = store st !! S n)
      by (apply Hz; rewrite !elem_of_cons; auto).
    assert (Hb : store st !! S (S t) = store st !! S (S n))
      by (apply Hz; rewrite !elem_of_cons; auto).
    unfold bind at 1 3.
    rewrite (forward_Linear_agree n prev s (S n) (S (S n)) t prev s (S t) (S (S t))
               x st Hw Hb).
    rewrite (forward_eta (Linear n prev s (S n) (S (S n))) x st).
    destruct (fst (forward (Linear n prev s (S n) (S (S n))) x st)) as [y|e];
      [|reflexivity].
    cbn [forward]. unfold bind at 1 2, ret at 1 2.
    apply IH; [|exact Hrest].
    intros tp p Hin. apply Hz. rewrite !elem_of_cons. auto.
Qed.

Lemma zip_param_ids_app t n a b tp p :
  (tp, p) ∈ zip (param_ids (t + 3 * a) b) (param_ids (n + 3 * a) b) ->
  (tp, p) ∈ zip (param_ids t (a + b)) (param_ids n (a + b)).
Proof.
  intros H. rewrite !param_ids_app.
  rewrite zip_with_app by (now rewrite !param_ids_length).
  apply elem_of_app. now right.
Qed.

Lemma zip_param_ids_prefix t n a b tp p :
  (tp, p) ∈ zip (param_ids t a) (param_ids n a) ->
  (tp, p) ∈ zip (param_ids t (a + b)) (param_ids n (a + b)).
Proof.
  intros H. rewrite !param_ids_app.
  rewrite zip_with_app by (now rewrite !param_ids_length).
  apply elem_of_app. now left.
Qed.

(** Two networks of the same topology whose corresponding parameter
    tensors hold the same data compute the same function. *)
Lemma MLP_layout_forward_agree n t input hidden out oa oa' ha x st :
  act_kind oa' = act_kind oa ->
  (forall tp p,
     (tp, p) ∈ zip (parameters (MLP_layout t input hidden out oa' ha))
                   (parameters (MLP_layout n input hidden out oa ha)) ->
     store st !! tp = store st !! p) ->
  forward (MLP_layout t input hidden out oa' ha) x st
  = forward (MLP_layout n input hidden out oa ha) x st.
Proof.
  intros Hk Hz. rewrite !MLP_layout_parameters_NoDup, !MLP_layout_parameters in Hz.
  unfold MLP_layout. rewrite !forward_MLP. unfold call.
  rewrite !getattr_here, !forward_Sequential. unfold fcs_layout.
  apply chain_hidden_agree.
  - intros tp p Hin. apply Hz. now apply zip_param_ids_prefix.
  - intros y. unfold output_layout. destruct (out =? 0); [reflexivity|].
    cbn [chain].
    assert (Hin : forall tp p,
              (tp, p) ∈ zip (param_ids (2 + t + 3 * length hidden) 1)
                            (param_ids (2 + n + 3 * length hidden) 1) ->
              store st !! tp = store st !! p)
      by (intros tp p Hin; apply Hz; now apply zip_param_ids_app).
    replace (3 * length hidden + (2 + t))%nat with (2 + t + 3 * length hidden)%nat
      by lia.
    replace (3 * length hidden + (2 + n))%nat with (2 + n + 3 * length hidden)%nat
      by lia.
    cbn [param_ids zip zip_with] in Hin.
    unfold bind.
    set (kn := (2 + n + 3 * length hidden)%nat) in *.
    set (kt := (2 + t + 3 * length hidden)%nat) in *.
    rewrite (forward_Linear_agree kn (default input (last hidden)) out (S kn)
               (S (S kn)) kt (default input (last hidden)) out (S kt) (S (S kt))
               y st)
      by (apply Hin; rewrite !elem_of_cons; auto).
    cbn [forward]. unfold ret. now rewrite Hk.
Qed.

Lemma synced_same_data st live target tp p :
  synced st live target -> (tp, p) ∈ zip (parameters target) (parameters live) ->
  store st !! tp = store st !! p.
Proof.
  intros [_ H] Hin. destruct (H tp p Hin) as ((data & -> & ->) & _). reflexivity.
Qed.

(** X15. In the bundle [init_model] returns, every target network computes
    the same function as its live counterpart: on any input whatsoever the
    forward pass of the target gives what the forward pass of the live
    network gives (the same tensor, or the same error). *)
Theorem init_model_targets_agree (env : Env) (hyperparams : Hyperparams)
    (st : State) :
  0 < state_size env -> 0 < action_size env -> hyperparams_ok hyperparams ->
  exists models st',
    init_model env hyperparams st = (Ok models, st') /\
    forall x,
      forward (target_actor models) x st' = forward (actor models) x st' /\
      forward (target_critic1 models) x st' = forward (critic1 models) x st' /\
      forward (target_critic2 models) x st' = forward (critic2 models) x st'.
Proof.
  intros Hstate Haction Hhp.
  destruct (init_model_ok env hyperparams st Hstate Haction Hhp)
    as (st' & E & Sa & Sc1 & Sc2).
  eexists _, st'. split; [exact E|]. intros x.
  unfold init_model_layout in *.
  cbn [actor target_actor critic1 critic2 target_critic1 target_critic2] in *.
  split_and!; (apply MLP_layout_forward_agree; [reflexivity|]); intros tp p Hin.
  - exact (synced_same_data _ _ _ _ _ Sa Hin).
  - exact (synced_same_data _ _ _ _ _ Sc1 Hin).
  - exact (synced_same_data _ _ _ _ _ Sc2 Hin).
Qed.

Lemma init_model_targets_agree_witness :
  exists models st',
    init_model BipedalWalker init_hyperparams st0 = (Ok models, st') /\
    forall x,
      forward (target_actor models) x st' = forward (actor models) x st' /\
      forward (target_critic1 models) x st' = forward (critic1 models) x st' /\
      forward (target_critic2 models) x st' = forward (critic2 models) x st'.
Proof.
  apply (init_model_targets_agree BipedalWalker init_hyperparams st0).
  - reflexivity.
  - reflexivity.
  - split; repeat constructor.
Defined.

(** The six networks after the assembly: the parameters of the live ones
    are in the store with the sizes of their layers. *)
Lemma init_model_run env hp st :
  0 < state_size env -> 0 < action_size env -> hyperparams_ok hp ->
  let models := init_model_layout (next_oid st) env hp in
  exists st',
    init_model env hp st = (Ok models, st') /\
    params_ok st' (actor models) /\
    params_ok st' (critic1 models) /\
    params_ok st' (critic2 models).
Proof.
  intros Hstate Haction [HhA HhC] models.
  apply Forall_pos_nonneg in HhA, HhC.
  assert (HsA : sizes_ok (state_size env) (actor_hidden_sizes hp) (action_size env))
    by (split_and!; [lia|exact HhA|lia]).
  assert (HsC : sizes_ok (state_size env + action_size env)
                  (critic_hidden_sizes hp) 1)
    by (split_and!; [lia|exact HhC|lia]).
  set (relu := Defaults.MLP_hidden_activation).
  set (ident := Defaults.MLP_output_activation).
  destruct (Tanh_init_ok st) as (sA & EA & NA & GA).
  destruct (MLP_init_ok _ _ _ (mkAct (next_oid st) Tanh) relu sA HsA)
    as (s1 & E1 & N1 & _ & G1 & P1). rewrite NA in E1, N1, P1.
  destruct (Tanh_init_ok s1) as (sB & EB & NB & GB). rewrite N1 in EB, NB.
  destruct (MLP_init_ok _ _ _
              (mkAct (MLP_end (S (next_oid st)) (actor_hidden_sizes hp)
                              (action_size env)) Tanh) relu sB HsA)
    as (s2 & E2 & N2 & _ & G2 & P2). rewrite NB in E2, N2, P2.
  destruct (MLP_init_ok _ _ _ ident relu s2 HsC) as (s3 & E3 & N3 & _ & G3 & P3).
  rewrite N2 in E3, N3, P3.
  destruct (MLP_init_ok _ _ _ ident relu s3 HsC) as (s4 & E4 & N4 & _ & G4 & P4).
  rewrite N3 in E4, N4, P4.
  destruct (MLP_init_ok _ _ _ ident relu s4 HsC) as (s5 & E5 & N5 & _ & G5 & P5).
  rewrite N4 in E5, N5, P5.
  destruct (MLP_init_ok _ _ _ ident relu s5 HsC) as (s6 & E6 & N6 & _ & G6 & P6).
  rewrite N5 in E6, N6, P6.
  unfold models, init_model_layout. clear models. fold relu ident.
  set (n := next_oid st) in *.
  change (1 + n)%nat with (S n).
  set (n1 := MLP_end (S n) (actor_hidden_sizes hp) (action_size env)) in *.
  change (1 + n1)%nat with (S n1).
  set (n2 := MLP_end (S n1) (actor_hidden_sizes hp) (action_size env)) in *.
  set (n3 := MLP_end n2 (critic_hidden_sizes hp) 1) in *.
  set (n4 := MLP_end n3 (critic_hidden_sizes hp) 1) in *.
  set (n5 := MLP_end n4 (critic_hidden_sizes hp) 1) in *.
  set (n6 := MLP_end n5 (critic_hidden_sizes hp) 1) in *.
  set (a := MLP_layout (S n) (state_size env) (actor_hidden_sizes hp)
              (action_size env) (mkAct n Tanh) relu) in *.
  set (ta := MLP_layout (S n1) (state_size env) (actor_hidden_sizes hp)
               (action_size env) (mkAct n1 Tanh) relu) in *.
  set (c1 := MLP_layout n2 (state_size env + action_size env)
               (critic_hidden_sizes hp) 1 ident relu) in *.
  set (c2 := MLP_layout n3 (state_size env + action_size env)
               (critic_hidden_sizes hp) 1 ident relu) in *.
  set (tc1 := MLP_layout n4 (state_size env + action_size env)
                (critic_hidden_sizes hp) 1 ident relu) in *.
  set (tc2 := MLP_layout n5 (state_size env + action_size env)
                (critic_hidden_sizes hp) 1 ident relu) in *.
  pose proof (MLP_end_le (S n) (actor_hidden_sizes hp) (action_size env)) as L1.
  pose proof (MLP_end_le (S n1) (actor_hidden_sizes hp) (action_size env)) as L2.
  pose proof (MLP_end_le n2 (critic_hidden_sizes hp) 1) as L3.
  pose proof (MLP_end_le n3 (critic_hidden_sizes hp) 1) as L4.
  pose proof (MLP_end_le n4 (critic_hidden_sizes hp) 1) as L5.
  pose proof (MLP_end_le n5 (critic_hidden_sizes hp) 1) as L6.
  fold n1 in L1. fold n2 in L2. fold n3 in L3. fold n4 in L4. fold n5 in L5.
  fold n6 in L6.
  (* the parameters of the live networks are still there after the six
     constructions *)
  assert (Pa : params_ok s6 a).
  { apply (params_ok_grows s1); [eauto 8 using grows_trans| |exact P1].
    intros p Hp. apply MLP_layout_parameters_bound in Hp. fold n1 in Hp. lia. }
  assert (Pc1 : params_ok s6 c1).
  { apply (params_ok_grows s3); [eauto 8 using grows_trans| |exact P3].
    intros p Hp. apply MLP_layout_parameters_bound in Hp. fold n3 in Hp. lia. }
  assert (Pc2 : params_ok s6 c2).
  { apply (params_ok_grows s4); [eauto 8 using grows_trans| |exact P4].
    intros p Hp. apply MLP_layout_parameters_bound in Hp. fold n4 in Hp. lia. }
  (* the three hard updates *)
  destruct (hard_update_ok (S n) (S n1) (state_size env) (actor_hidden_sizes hp)
              (action_size env) (mkAct n Tanh) (mkAct n1 Tanh)
              relu relu s6 (Nat.le_succ_diag_r n1) Pa)
    as (h1 & U1 & _ & _ & O1 & C1). fold a ta in U1, O1, C1.
  assert (Pc1' : params_ok h1 c1).
  { apply (params_ok_agree s6); [|exact Pc1]. intros p Hp. apply O1.
    intros Hq. apply MLP_parameters_bound in Hq.
    apply MLP_layout_parameters_bound in Hp. fold n2 in Hq. fold n3 in Hp. lia. }
  destruct (hard_update_ok n2 n4 (state_size env + action_size env)
              (critic_hidden_sizes hp) 1 ident ident relu relu h1
              (Nat.le_trans _ _ _ (Nat.le_add_l n3 2) L4) Pc1')
    as (h2 & U2 & _ & _ & O2 & C2). fold c1 tc1 in U2, O2, C2.
  assert (Pc2' : params_ok h2 c2).
  { apply (params_ok_agree s6); [|exact Pc2]. intros p Hp.
    apply MLP_layout_parameters_bound in Hp. fold n4 in Hp.
    rewrite O2, O1; [reflexivity| |]; intros Hq;
      apply MLP_parameters_bound in Hq; fold n2 n5 in Hq; lia. }
  destruct (hard_update_ok n3 n5 (state_size env + action_size env)
              (critic_hidden_sizes hp) 1 ident ident relu relu h2
              (Nat.le_trans _ _ _ (Nat.le_add_l n4 2) L5) Pc2')
    as (h3 & U3 & _ & _ & O3 & C3). fold c2 tc2 in U3, O3, C3.
  exists h3.
  cbn [actor target_actor critic1 critic2 target_critic1 target_critic2].
  split_and!.
  - unfold init_model, to_device.
    rewrite (bind_ok _ _ _ _ _ EA), (bind_ok _ _ _ _ _ E1).
    unfold bind at 1, ret at 1.
    rewrite (bind_ok _ _ _ _ _ EB), (bind_ok _ _ _ _ _ E2).
    unfold bind at 1, ret at 1. rewrite (bind_ok _ _ _ _ _ E3).
    unfold bind at 1, ret at 1. rewrite (bind_ok _ _ _ _ _ E4).
    unfold bind at 1, ret at 1. rewrite (bind_ok _ _ _ _ _ E5).
    unfold bind at 1, ret at 1. rewrite (bind_ok _ _ _ _ _ E6).
    unfold bind at 1, ret at 1.
    assert (Ha0 : action_size env <> 0) by lia.
    assert (H10 : 1 <> 0) by lia.
    rewrite (bind_ok _ _ _ _ _ (Adam_ok (parameters a) _ s6
               (MLP_parameters_nonempty _ _ _ _ _ _ Ha0))).
    rewrite (bind_ok _ _ _ _ _ (Adam_ok (parameters c1) _ s6
               (MLP_parameters_nonempty _ _ _ _ _ _ H10))).
    rewrite (bind_ok _ _ _ _ _ (Adam_ok (parameters c2) _ s6
               (MLP_parameters_nonempty _ _ _ _ _ _ H10))).
    rewrite (bind_ok _ _ _ _ _ U1), (bind_ok _ _ _ _ _ U2), (bind_ok _ _ _ _ _ U3).
    reflexivity.
  - apply (params_ok_agree s6); [|exact Pa]. intros p Hp.
    apply MLP_layout_parameters_bound in Hp. fold n1 in Hp.
    rewrite O3, O2, O1; [reflexivity| | |]; intros Hq;
      apply MLP_parameters_bound in Hq; fold n2 n5 n6 in Hq; lia.
  - apply (params_ok_agree s6); [|exact Pc1]. intros p Hp.
    apply MLP_layout_parameters_bound in Hp. fold n3 in Hp.
    rewrite O3, O2, O1; [reflexivity| | |]; intros Hq;
      apply MLP_parameters_bound in Hq; fold n2 n5 n6 in Hq; lia.
  - apply (params_ok_agree s6); [|exact Pc2]. intros p Hp.
    apply MLP_layout_parameters_bound in Hp. fold n4 in Hp.
    rewrite O3, O2, O1; [reflexivity| | |]; intros Hq;
      apply MLP_parameters_bound in Hq; fold n2 n5 n6 in Hq; lia.
Qed.

(** X16. What the networks of the bundle compute right after [init_model].
    On a batch of states the actor returns one row of [action_size] entries
    per state, and the target actor, whose parameters [hard_update] copied
    from it, returns the same tensor.  On a batch of state-action rows each
    critic returns one value per row, and its target returns the same
    tensor. *)
Theorem init_model_outputs (env : Env) (hyperparams : Hyperparams) (st : State) :
  0 < state_size env -> 0 < action_size env -> hyperparams_ok hyperparams ->
  exists models st',
    init_model env hyperparams st = (Ok models, st') /\
    (forall x, wf_tensor x -> ncols x = Z.to_nat (state_size env) ->
       exists a,
         forward (actor models) x st' = (Ok a, st') /\
         forward (target_actor models) x st' = (Ok a, st') /\
         has_shape a (nrows x) (Z.to_nat (action_size env))) /\
    (forall z, wf_tensor z ->
       ncols z = Z.to_nat (state_size env + action_size env) ->
       exists q1 q2,
         forward (critic1 models) z st' = (Ok q1, st') /\
         forward (target_critic1 models) z st' = (Ok q1, st') /\
         forward (critic2 models) z st' = (Ok q2, st') /\
         forward (target_critic2 models) z st' = (Ok q2, st') /\
         has_shape q1 (nrows z) 1 /\ has_shape q2 (nrows z) 1).
Proof.
  intros Hstate Haction Hhp.
  destruct (init_model_run env hyperparams st Hstate Haction Hhp)
    as (st' & E & Pa & Pc1 & Pc2).
  destruct (init_model_ok env hyperparams st Hstate Haction Hhp)
    as (st2 & E2 & Sa & Sc1 & Sc2).
  assert (st2 = st') as -> by congruence. clear E2.
  eexists _, st'. split; [exact E|].
  unfold init_model_layout in *.
  cbn [actor target_actor critic1 critic2 target_critic1 target_critic2] in *.
  split.
  - intros x Hwf Hx.
    destruct (MLP_forward_output _ _ _ _ _ _ x st' Pa ltac:(lia) Hx Hwf)
      as (y & F & C & W & Ry).
    eexists. split_and!.
    + exact F.
    + rewrite <- F. apply MLP_layout_forward_agree; [reflexivity|].
      intros tp p Hin. exact (synced_same_data _ _ _ _ _ Sa Hin).
    + apply has_shape_act_forward. split_and!; assumption.
  - intros z Hwf Hz.
    destruct (MLP_forward_ok _ _ _ _ _ _ z st' Pc1 Hz Hwf)
      as (q1 & F1 & C1 & W1 & R1).
    destruct (MLP_forward_ok _ _ _ _ _ _ z st' Pc2 Hz Hwf)
      as (q2 & F2 & C2 & W2 & R2).
    exists q1, q2. split_and!.
    + exact F1.
    + rewrite <- F1. apply MLP_layout_forward_agree; [reflexivity|].
      intros tp p Hin. exact (synced_same_data _ _ _ _ _ Sc1 Hin).
    + exact F2.
    + rewrite <- F2. apply MLP_layout_forward_agree; [reflexivity|].
      intros tp p Hin. exact (synced_same_data _ _ _ _ _ Sc2 Hin).
    + split_and!; assumption.
    + split_and!; assumption.
Qed.

Lemma init_model_outputs_witness :
  exists models st',
    init_model BipedalWalker init_hyperparams st0 = (Ok models, st') /\
    (forall x, wf_tensor x -> ncols x = Z.to_nat (state_size BipedalWalker) ->
       exists a,
         forward (actor models) x st' = (Ok a, st') /\
         forward (target_actor models) x st' = (Ok a, st') /\
         has_shape a (nrows x) (Z.to_nat (action_size BipedalWalker))) /\
    (forall z, wf_tensor z ->
       ncols z = Z.to_nat (state_size BipedalWalker + action_size BipedalWalker) ->
       exists q1 q2,
         forward (critic1 models) z st' = (Ok q1, st') /\
         forward (target_critic1 models) z st' = (Ok q1, st') /\
         forward (critic2 models) z st' = (Ok q2, st') /\
         forward (target_critic2 models) z st' = (Ok q2, st') /\
         has_shape q1 (nrows z) 1 /\ has_shape q2 (nrows z) 1).
Proof.
  apply (init_model_outputs BipedalWalker init_hyperparams st0).
  - reflexivity.
  - reflexivity.
  - split; repeat constructor.
Defined.

(** ** The experiment assembly: an actor without parameters *)

(** X17. [init_model] hands the parameters of the actor to [optim.Adam].
    With no hidden size for the actor and an environment without actions the
    actor has no layer, hence no parameter: the six networks are built, and
    the construction of the first optimizer raises the [ValueError] of an
    empty parameter list. *)
Theorem init_model_empty_actor (env : Env) (hyperparams : Hyperparams)
    (st : State) :
  actor_hidden_sizes hyperparams = [] -> action_size env = 0 ->
  0 <= state_size env ->
  Forall (fun s => 0 <= s) (critic_hidden_sizes hyperparams) ->
  fst (init_model env hyperparams st) = Err ValueError.
Proof.
  intros Hh Ha Hstate HhC.
  assert (HsC : sizes_ok (state_size env + action_size env)
                  (critic_hidden_sizes hyperparams) 1)
    by (split_and!; [lia|exact HhC|lia]).
  destruct (Tanh_init_ok st) as (sA & EA & _).
  destruct (MLP_init_no_layers (state_size env) (mkAct (next_oid st) Tanh)
              Defaults.MLP_hidden_activation sA) as (s1 & E1 & _).
  destruct (Tanh_init_ok s1) as (sB & EB & _).
  destruct (MLP_init_no_layers (state_size env) (mkAct (next_oid s1) Tanh)
              Defaults.MLP_hidden_activation sB) as (s2 & E2 & _).
  destruct (MLP_init_ok _ _ _ Defaults.MLP_output_activation
              Defaults.MLP_hidden_activation s2 HsC) as (s3 & E3 & _).
  destruct (MLP_init_ok _ _ _ Defaults.MLP_output_activation
              Defaults.MLP_hidden_activation s3 HsC) as (s4 & E4 & _).
  destruct (MLP_init_ok _ _ _ Defaults.MLP_output_activation
              Defaults.MLP_hidden_activation s4 HsC) as (s5 & E5 & _).
  destruct (MLP_init_ok _ _ _ Defaults.MLP_output_activation
              Defaults.MLP_hidden_activation s5 HsC) as (s6 & E6 & _).
  unfold init_model, to_device. rewrite Hh.
  rewrite Ha in *.
  rewrite (bind_ok _ _ _ _ _ EA), (bind_ok _ _ _ _ _ E1).
  unfold bind at 1, ret at 1.
  rewrite (bind_ok _ _ _ _ _ EB), (bind_ok _ _ _ _ _ E2).
  unfold bind at 1, ret at 1. rewrite (bind_ok _ _ _ _ _ E3).
  unfold bind at 1, ret at 1. rewrite (bind_ok _ _ _ _ _ E4).
  unfold bind at 1, ret at 1. rewrite (bind_ok _ _ _ _ _ E5).
  unfold bind at 1, ret at 1. rewrite (bind_ok _ _ _ _ _ E6).
  unfold bind at 1, ret at 1.
  apply bind_fst_err. reflexivity.
Qed.

Lemma init_model_empty_actor_witness :
  fst (init_model env_without_actions hyperparams_without_actor_layers st0)
  = Err ValueError.
Proof.
  apply (init_model_empty_actor env_without_actions
           hyperparams_without_actor_layers st0).
  - reflexivity.
  - reflexivity.
  - simpl. lia.
  - repeat constructor; simpl; lia.
Defined.

(** ** [NormalDistMLP]: the scale is not constrained *)

Lemma dot_zero r c : dot r (repeat 0%R c) = 0%R.
Proof.
  unfold dot. revert c. induction r as [|a r IH]; intros [|c]; simpl; try reflexivity.
  rewrite IH. lra.
Qed.

Lemma zip_plus_zero v c :
  zip_with Rplus (repeat 0%R c) (repeat v c) = repeat v c.
Proof. induction c as [|c IH]; simpl; [reflexivity|]. rewrite IH. f_equal. lra. Qed.

Lemma map_dot_zero r c k :
  map (dot r) (repeat (repeat 0%R c) k) = repeat 0%R k.
Proof. induction k as [|k IH]; simpl; [reflexivity|]. now rewrite dot_zero, IH. Qed.

(** An affine layer with a zero weight returns its bias on every row. *)
Lemma F_linear_constant x prev out v :
  ncols x = prev ->
  F_linear x (zero_weight out prev) (constant_bias v out)
  = Ok {| ncols := out; rows := map (fun _ => repeat v out) (rows x) |}.
Proof.
  intros Hx. unfold F_linear, zero_weight, constant_bias, nrows. cbn [ncols rows hd].
  rewrite bool_decide_eq_true_2 by (now rewrite repeat_length).
  rewrite repeat_length. f_equal. f_equal. apply map_ext. intros r.
  now rewrite map_dot_zero, zip_plus_zero.
Qed.

Lemma entries_constant (v : R) c (l : list (list R)) k :
  entries (fun u => u = v) {| ncols := k; rows := map (fun _ => repeat v c) l |}.
Proof.
  unfold entries. cbn [rows]. apply Forall_forall. intros r Hr.
  apply list_elem_of_In, in_map_iff in Hr as (_ & <- & _).
  apply Forall_forall. intros u Hu.
  apply list_elem_of_In, repeat_spec in Hu. exact Hu.
Qed.

Lemma with_constant_layer_lookup w b prev out v st p :
  store (with_constant_layer w b prev out v st) !! p
  = if decide (p = b) then Some (constant_bias v (Z.to_nat out))
    else if decide (p = w) then Some (zero_weight (Z.to_nat out) (Z.to_nat prev))
    else store st !! p.
Proof.
  unfold with_constant_layer, write. cbn [snd store].
  destruct (decide (p = b)) as [->|Hb]; [apply lookup_insert_eq|].
  rewrite lookup_insert_ne by congruence.
  destruct (decide (p = w)) as [->|Hw]; [apply lookup_insert_eq|].
  now rewrite lookup_insert_ne by congruence.
Qed.

Lemma forward_Linear_read o i out w b W B x st :
  store st !! w = Some W -> store st !! b = Some B ->
  forward (Linear o i out w b) x st = (F_linear x W B, st).
Proof. intros HW HB. simpl. munfold. now rewrite HW, HB. Qed.

Lemma with_constant_layer_weight w b prev out v st :
  w <> b ->
  store (with_constant_layer w b prev out v st) !! w
  = Some (zero_weight (Z.to_nat out) (Z.to_nat prev)).
Proof.
  intros Hne. rewrite with_constant_layer_lookup.
  destruct (decide (w = b)); [congruence|].
  destruct (decide (w = w)); [reflexivity|congruence].
Qed.

Lemma with_constant_layer_bias w b prev out v st :
  store (with_constant_layer w b prev out v st) !! b
  = Some (constant_bias v (Z.to_nat out)).
Proof.
  rewrite with_constant_layer_lookup.
  destruct (decide (b = b)); [reflexivity|congruence].
Qed.

Lemma linear_ok_constant o w b prev out v st :
  0 <= prev -> 0 <= out -> w <> b ->
  linear_ok (with_constant_layer w b prev out v st) (Linear o prev out w b).
Proof.
  intros Hp Ho Hne. cbn [linear_ok].
  exists (zero_weight (Z.to_nat out) (Z.to_nat prev)),
         (constant_bias v (Z.to_nat out)).
  rewrite !with_constant_layer_lookup.
  destruct (decide (w = b)); [congruence|].
  destruct (decide (w = w)); [|congruence].
  destruct (decide (b = b)); [|congruence].
  unfold zero_weight, constant_bias, nrows. cbn [ncols rows hd].
  rewrite !repeat_length. split_and!; reflexivity.
Qed.

Lemma linear_ok_other w b prev out v st l :
  w ∉ own_parameters l -> b ∉ own_parameters l ->
  linear_ok st l -> linear_ok (with_constant_layer w b prev out v st) l.
Proof.
  destruct l as [o i k pw pb| |]; try (intros; exact I).
  cbn [own_parameters linear_ok]. rewrite !elem_of_cons.
  intros Hw Hb (W & B & HW & HB & Hshape).
  exists W, B. rewrite !with_constant_layer_lookup.
  destruct (decide (pw = b)) as [->|_]; [exfalso; apply Hb; auto|].
  destruct (decide (pw = w)) as [->|_]; [exfalso; apply Hw; auto|].
  destruct (decide (pb = b)) as [->|_]; [exfalso; apply Hb; auto|].
  destruct (decide (pb = w)) as [->|_]; [exfalso; apply Hw; auto|].
  auto.
Qed.

(** A head with a shared trunk, an output layer and the identity as sigma
    activation: when the weight of the sigma projection is zero and its bias
    is constantly [v], the scale handed to [Normal] is constantly [v]. *)
Lemma shared_constant_scale (input_size : Z) (hidden_sizes : list Z)
    (output_size : Z) (mu_activation sigma_activation hidden_activation : Activation)
    (st : State) (x : Tensor) :
  valid_sizes input_size hidden_sizes output_size -> 0 < output_size ->
  act_kind sigma_activation = Identity ->
  wf_tensor x -> ncols x = Z.to_nat input_size ->
  exists head st' sigma o w b,
    NormalDistMLP_init input_size hidden_sizes output_size mu_activation
      sigma_activation hidden_activation true false st = (Ok head, st') /\
    getattr (modules_of head) "sigma" = Some sigma /\
    linears sigma
    = [Linear o (default input_size (last hidden_sizes)) output_size w b] /\
    forall v, exists mu s,
      let trained :=
        with_constant_layer w b (default input_size (last hidden_sizes))
                            output_size v st' in
      NormalDistMLP_forward head x trained = (Normal_init mu s, trained) /\
      has_shape s (nrows x) (Z.to_nat output_size) /\
      entries (fun u => u = v) s.
Proof.
  intros Hs Hout Hk Hwf Hx. apply valid_sizes_ok in Hs as Hs'.
  destruct Hs' as (Hi & Hh & _).
  pose proof (default_last_nonneg input_size hidden_sizes Hi Hh) as Hprev.
  destruct (NormalDistMLP_init_ok _ _ _ mu_activation sigma_activation
              hidden_activation true false st (valid_sizes_ok _ _ _ Hs))
    as (st' & E & _ & P & _).
  unfold NormalDistMLP_layout in E, P. unfold params_ok in P. simpl linears in P.
  set (n := S (next_oid st)) in *.
  set (n1 := MLP_end n hidden_sizes 0).
  set (prev := default input_size (last hidden_sizes)) in *.
  eexists _, st', _, _, _, _. split; [exact E|].
  split; [reflexivity|]. split; [reflexivity|]. intros v.
  fold n1 prev.
  set (trained := with_constant_layer (5 + n1) (6 + n1) prev output_size v st').
  assert (Pt : Forall (linear_ok trained)
                 (flat_map (fun nm => linears (snd nm))
                    (shared_layout n input_size hidden_sizes output_size
                       mu_activation sigma_activation hidden_activation))).
  { unfold shared_layout in *. cbn [flat_map snd] in *. fold n1 prev in P |- *.
    apply Forall_app in P as [Ptrunk Prest]. apply Forall_app. split.
    - apply Forall_forall. intros l Hl. rewrite Forall_forall in Ptrunk.
      assert (Hb : forall p, p ∈ own_parameters l -> (p < n1)%nat).
      { intros p Hp.
        assert (Hin : p ∈ own_parameters (MLP_layout n input_size hidden_sizes 0
                            Defaults.MLP_output_activation hidden_activation)).
        { rewrite own_parameters_linears. apply elem_of_flat_map. eauto. }
        apply MLP_layout_parameters_bound in Hin. fold n1 in Hin. lia. }
      apply linear_ok_other; [| |now apply Ptrunk];
        intros Hp; apply Hb in Hp; lia.
    - simpl in Prest |- *. apply Forall_cons in Prest as [Pmu _].
      repeat (apply Forall_cons; split); [| |constructor].
      + apply linear_ok_other; [| |exact Pmu]; cbn [own_parameters];
          rewrite !elem_of_cons; intros [H|[H|H]]; try lia; inversion H.
      + apply linear_ok_constant; lia. }
  destruct (shared_forward_ok _ _ _ _ _ _ _ trained x Pt Hx Hwf)
    as (h & zmu & zsig & Fh & _ & Fsig & Cmu & Csig & _).
  fold n1 prev in Fsig.
  assert (Hh' : ncols h = Z.to_nat prev /\ nrows h = nrows x).
  { unfold shared_layout, call in Fh. rewrite getattr_here in Fh.
    unfold shared_layout in Pt. cbn [flat_map snd] in Pt.
    apply Forall_app in Pt as [Ptrunk _].
    destruct (MLP_forward_ok _ _ _ _ _ _ x trained Ptrunk Hx Hwf)
      as (h' & Fh' & Ch' & _ & Rh').
    assert (h' = h) as -> by congruence. split; [exact Ch'|exact Rh']. }
  destruct Hh' as [Hh' Hrows].
  assert (Hz : zsig = {| ncols := Z.to_nat output_size;
                         rows := map (fun _ => repeat v (Z.to_nat output_size))
                                     (rows h) |}).
  { rewrite (forward_Linear_read _ _ _ _ _ _ _ h trained
               (with_constant_layer_weight (5 + n1) (6 + n1) prev output_size v st'
                  ltac:(lia))
               (with_constant_layer_bias (5 + n1) (6 + n1) prev output_size v st'))
      in Fsig.
    rewrite (F_linear_constant h _ _ v Hh') in Fsig. congruence. }
  eexists _, _. cbv zeta. split_and!.
  - unfold NormalDistMLP_forward.
    rewrite (bind_ok _ _ _ _ _ Fh), (bind_ok _ _ _ _ _ Cmu),
      (bind_ok _ _ _ _ _ Csig). reflexivity.
  - apply has_shape_act_forward. rewrite Hz. split_and!.
    + unfold nrows in *. cbn [rows]. now rewrite length_map.
    + reflexivity.
    + unfold wf_tensor. cbn [rows ncols]. apply Forall_forall. intros r Hr.
      apply list_elem_of_In, in_map_iff in Hr as (_ & <- & _).
      apply repeat_length.
  - rewrite Hk, Hz. unfold act_forward. cbn [ncols rows act_row].
    rewrite map_id. apply entries_constant.
Qed.

(** A tensor with an entry, all of whose entries are [v]. *)
Lemma entries_constant_positive (v : R) s :
  entries (fun u => u = v) s -> (0 < v)%R -> entries (fun u => (0 < u)%R) s.
Proof.
  unfold entries. intros H Hv. eapply Forall_impl; [exact H|].
  intros r Hr. eapply Forall_impl; [exact Hr|]. simpl. intros u ->. exact Hv.
Qed.

Lemma entries_constant_not_positive (v : R) s n w :
  entries (fun u => u = v) s -> has_shape s (S n) (S w) -> (v <= 0)%R ->
  ~ entries (fun u => (0 < u)%R) s.
Proof.
  unfold entries, has_shape, nrows, wf_tensor.
  intros H (Hn & Hc & Hwf) Hv Hpos.
  destruct (rows s) as [|r rs]; [discriminate|].
  apply Forall_cons in H as [Hr _]. apply Forall_cons in Hpos as [Hp _].
  apply Forall_cons in Hwf as [Hl _]. rewrite Hc in Hl.
  destruct r as [|u r]; [discriminate|].
  apply Forall_cons in Hr as [-> _]. apply Forall_cons in Hp as [Hp _]. lra.
Qed.

(** X18. [NormalDistMLP] does not constrain its scale: with the identity as
    sigma activation (the default) the scale handed to [Normal] is the raw
    output of the sigma projection, and whether the forward pass returns is
    decided by the weights.  For the head [NormalDistMLP(4, [8], 2)] with a
    shared trunk and the batch of three rows: when the weight of the sigma
    projection is zero and its bias is one everywhere, the forward pass
    returns a distribution whose scale is one everywhere; when the bias is
    minus one everywhere, it raises the [ValueError] of [Normal]. *)
Theorem NormalDistMLP_scale_unconstrained :
  exists head st' sigma o w b,
    NormalDistMLP_init 4 [8] 2 Defaults.Normal_mu_activation
      Defaults.Normal_sigma_activation Defaults.Normal_hidden_activation
      true false st0 = (Ok head, st') /\
    getattr (modules_of head) "sigma" = Some sigma /\
    linears sigma = [Linear o 8 2 w b] /\
    (exists d,
       NormalDistMLP_forward head batch34 (with_constant_layer w b 8 2 1 st')
       = (Ok d, with_constant_layer w b 8 2 1 st') /\
       has_shape (scale d) 3 2 /\
       entries (fun u => u = 1%R) (scale d)) /\
    NormalDistMLP_forward head batch34 (with_constant_layer w b 8 2 (-1) st')
    = (Err ValueError, with_constant_layer w b 8 2 (-1) st').
Proof.
  destruct (shared_constant_scale 4 [8] 2 Defaults.Normal_mu_activation
              Defaults.Normal_sigma_activation Defaults.Normal_hidden_activation
              st0 batch34)
    as (head & st' & sigma & o & w & b & E & G & L & Hv).
  - split_and!; [lia|repeat constructor; lia|lia].
  - lia.
  - reflexivity.
  - repeat constructor.
  - reflexivity.
  - exists head, st', sigma, o, w, b. split_and!; [exact E|exact G|exact L| |].
    + destruct (Hv 1%R) as (mu & s & F & Hshape & Hs). cbv zeta in F.
      exists (mkNormal mu s). cbn [scale]. split_and!.
      * change (default 4 (last [8])) with 8 in F. rewrite F.
        rewrite Normal_init_positive; [reflexivity|].
        apply (entries_constant_positive 1); [exact Hs|lra].
      * exact Hshape.
      * exact Hs.
    + destruct (Hv (-1)%R) as (mu & s & F & Hshape & Hs). cbv zeta in F.
      change (default 4 (last [8])) with 8 in F. rewrite F.
      rewrite Normal_init_refused; [reflexivity|].
      apply (entries_constant_not_positive (-1) s 2 1); [exact Hs|exact Hshape|lra].
Qed.
